(** * Drone build manager and queue: a shallow embedding

    The Go packages [manager] (operator/manager: [Accept], [After], [Watch],
    [Cancel]) and [queue] (scheduler/queue: [signal], [checkLabels],
    [withinLimits], [withinBranchLimits]) are embedded below.

    - Go structs are records, one module per struct so that [Stage.ID s]
      reads like [stage.ID].
    - [int64] and [int] fields are [Z]; the only arithmetic of the code is
      [count++] on a counter bounded by the length of a slice, which does
      not wrap.
    - [map[string]string] is [gmap string string]; a nil map and an empty
      map are both [∅] ([len] is 0 and lookups miss for either).
    - A Go [error] value is [option error], [None] being [nil].
    - Calls on the collaborator interfaces (stores, scheduler, status,
      webhook, log stream, clock, logger) are the nodes of a program tree
      [Prog]; [exec] runs a tree against any implementation of the
      collaborators and records the calls made, in order.

    The other methods of the manager ([Request], [Details], [Before],
    [Netrc]), the HTTP handler that calls [Cancel] (handler/api/repos/builds:
    [HandleCancel]) and the vendored drone-yaml files ([Manifest.UnmarshalJSON],
    [DindFunc], [WithVolumes], [WithVolumeSlice]) are embedded over [tree.t],
    program trees like [Prog] that are generic in the interface called. *)

From stdpp Require Import gmap strings list.

Open Scope string_scope.
Open Scope Z_scope.

(** ** Data model (package core) *)

(** Modelled from the spec: the status constants of package core, which is
    not among the sources; named as in the data model of the spec. In Go a
    status is a string; only the ten constants are modelled. *)
Inductive status : Type :=
| StatusSkipped
| StatusBlocked
| StatusDeclined
| StatusWaiting
| StatusPending
| StatusRunning
| StatusPassing
| StatusFailing
| StatusKilled
| StatusError.

(** Modelled from the spec: [IsDone] of package core. A status is terminal
    when it is one of passing, failing, killed, skipped, error. *)
Definition status_IsDone (s : status) : bool :=
  match s with
  | StatusPassing | StatusFailing | StatusKilled | StatusSkipped | StatusError => true
  | _ => false
  end.

(** Go errors. [db.ErrOptimisticLock] is a sentinel compared with [==];
    [ErrorNew] is an error made from a plain message ([errors.New], or
    [fmt.Errorf] without verbs); [Errorf format cause] is
    [fmt.Errorf(format, cause)] with a single [%v]; [MultiError] is
    [*multierror.Error]. *)
#[local] Unset Elimination Schemes.
Inductive error : Type :=
| ErrOptimisticLock
| ErrorNew (msg : string)
| Errorf (format : string) (cause : error)
| MultiError (errs : list error).
#[local] Set Elimination Schemes.

(** [multierror.Append(err, e)]: flattens multi-errors on either side and
    always returns a [*multierror.Error]. *)
Definition multierror_Append (err : option error) (e : error) : error :=
  let old := match err with
             | None => []
             | Some (MultiError l) => l
             | Some x => [x]
             end in
  let new := match e with
             | MultiError l => l
             | _ => [e]
             end in
  MultiError (old ++ new).

Module Step.
Record t : Type := mk {
  ID : Z;
  StageID : Z;
  Name : string;
  Status : status;
  ExitCode : Z;
  Started : Z;
  Stopped : Z
}.

Definition IsDone (s : t) : bool := status_IsDone (Status s).

Definition with_Status (v : status) (s : t) : t :=
  mk (ID s) (StageID s) (Name s) v (ExitCode s) (Started s) (Stopped s).
Definition with_ExitCode (v : Z) (s : t) : t :=
  mk (ID s) (StageID s) (Name s) (Status s) v (Started s) (Stopped s).
Definition with_Started (v : Z) (s : t) : t :=
  mk (ID s) (StageID s) (Name s) (Status s) (ExitCode s) v (Stopped s).
Definition with_Stopped (v : Z) (s : t) : t :=
  mk (ID s) (StageID s) (Name s) (Status s) (ExitCode s) (Started s) v.
End Step.

(** [core.Build]. The struct holds its stages ([Stages []*Stage]) and a
    stage holds a reference to its build ([Build *Build]); the type of the
    stage list is a parameter so that the build embedded in a stage is a
    [Build.t Empty_set], a build whose stage list can only be empty. *)
Module Build.
Record t (S : Type) : Type := mk {
  ID : Z;
  RepoID : Z;
  Number : Z;
  Status : status;
  Event : string;
  Source : string;
  Started : Z;
  Finished : Z;
  Stages : list S
}.
Arguments mk {S}.
Arguments ID {S}.
Arguments RepoID {S}.
Arguments Number {S}.
Arguments Status {S}.
Arguments Event {S}.
Arguments Source {S}.
Arguments Started {S}.
Arguments Finished {S}.
Arguments Stages {S}.

Definition with_Status {S} (v : status) (b : t S) : t S :=
  mk (ID b) (RepoID b) (Number b) v (Event b) (Source b) (Started b) (Finished b) (Stages b).
Definition with_Started {S} (v : Z) (b : t S) : t S :=
  mk (ID b) (RepoID b) (Number b) (Status b) (Event b) (Source b) v (Finished b) (Stages b).
Definition with_Finished {S} (v : Z) (b : t S) : t S :=
  mk (ID b) (RepoID b) (Number b) (Status b) (Event b) (Source b) (Started b) v (Stages b).
Definition with_Stages {S S'} (v : list S') (b : t S) : t S' :=
  mk (ID b) (RepoID b) (Number b) (Status b) (Event b) (Source b) (Started b) (Finished b) v.
End Build.

(** [core.Stage], with the fields the two packages read or write. The
    struct declaration is not among the sources; [Build] is the
    denormalised build the store attaches to every incomplete stage (a
    pointer in Go, taken to be set). *)
Module Stage.
Record t : Type := mk {
  ID : Z;
  RepoID : Z;
  BuildID : Z;
  Name : string;
  Status : status;
  Machine : string;
  OS : string;
  Arch : string;
  Variant : string;
  Kernel : string;
  Limit : Z;
  Started : Z;
  Stopped : Z;
  Updated : Z;
  Labels : gmap string string;
  Steps : list Step.t;
  Build : Build.t Empty_set
}.

Definition IsDone (s : t) : bool := status_IsDone (Status s).

Definition with_Status (v : status) (s : t) : t :=
  mk (ID s) (RepoID s) (BuildID s) (Name s) v (Machine s) (OS s) (Arch s)
     (Variant s) (Kernel s) (Limit s) (Started s) (Stopped s) (Updated s)
     (Labels s) (Steps s) (Build s).
Definition with_Machine (v : string) (s : t) : t :=
  mk (ID s) (RepoID s) (BuildID s) (Name s) (Status s) v (OS s) (Arch s)
     (Variant s) (Kernel s) (Limit s) (Started s) (Stopped s) (Updated s)
     (Labels s) (Steps s) (Build s).
Definition with_Started (v : Z) (s : t) : t :=
  mk (ID s) (RepoID s) (BuildID s) (Name s) (Status s) (Machine s) (OS s) (Arch s)
     (Variant s) (Kernel s) (Limit s) v (Stopped s) (Updated s)
     (Labels s) (Steps s) (Build s).
Definition with_Stopped (v : Z) (s : t) : t :=
  mk (ID s) (RepoID s) (BuildID s) (Name s) (Status s) (Machine s) (OS s) (Arch s)
     (Variant s) (Kernel s) (Limit s) (Started s) v (Updated s)
     (Labels s) (Steps s) (Build s).
Definition with_Updated (v : Z) (s : t) : t :=
  mk (ID s) (RepoID s) (BuildID s) (Name s) (Status s) (Machine s) (OS s) (Arch s)
     (Variant s) (Kernel s) (Limit s) (Started s) (Stopped s) v
     (Labels s) (Steps s) (Build s).
Definition with_Steps (v : list Step.t) (s : t) : t :=
  mk (ID s) (RepoID s) (BuildID s) (Name s) (Status s) (Machine s) (OS s) (Arch s)
     (Variant s) (Kernel s) (Limit s) (Started s) (Stopped s) (Updated s)
     (Labels s) v (Build s).
End Stage.

(** A build as the manager sees it: with its stages. *)
Abbreviation Build := (Build.t Stage.t).

(** [core.Repository] and [core.User]: passed through to the status and
    webhook services, never inspected. *)
Record Repository : Type := { Repo_ID : Z; Repo_Slug : string }.
Record User : Type := { User_ID : Z; User_Login : string }.

(** [core.WebhookData]. *)
Record WebhookData : Type := {
  Webhook_Event : string;
  Webhook_Action : string;
  Webhook_Repo : Repository;
  Webhook_Build : Build
}.

(** Modelled from the spec: the webhook constants of package core
    ([{event: build, action: updated, repo, build}]). *)
Definition WebhookEventBuild : string := "build".
Definition WebhookActionUpdated : string := "updated".

(** ** Programs over the collaborator interfaces *)

(** Calls that return only an [error]. *)
Inductive command : Type :=
| Stages_Update (stage : Stage.t)
| Steps_Update (step : Step.t)
| Builds_Update (build : Build)
| Scheduler_Cancel (build_id : Z)
| Status_Send (user : User) (repo : Repository) (build : Build)
| Webhook_Send (payload : WebhookData)
| Logz_Delete (step_id : Z)
| updater_do (step : Step.t).

Inductive level : Type := Debug | Warn.

(** A program: what a method of the package does, as a tree whose nodes are
    the calls it makes and whose branches are indexed by what the callee
    returns. A Go pointer result that may be nil is an [option]. [Panic] is
    a run-time panic (a nil pointer dereference). *)
Inductive Prog (A : Type) : Type :=
| Ret (a : A)
| Call (c : command) (k : option error -> Prog A)
| Stages_Find (id : Z) (k : option Stage.t * option error -> Prog A)
| Stages_ListSteps (build_id : Z) (k : list Stage.t * option error -> Prog A)
| Stages_ListIncomplete (k : list Stage.t * option error -> Prog A)
| Scheduler_Cancelled (id : Z) (k : bool * option error -> Prog A)
| time_Now_Unix (k : Z -> Prog A)
| Log (l : level) (msg : string) (err : option error) (k : Prog A)
| Panic.
Arguments Ret {A}.
Arguments Call {A}.
Arguments Stages_Find {A}.
Arguments Stages_ListSteps {A}.
Arguments Stages_ListIncomplete {A}.
Arguments Scheduler_Cancelled {A}.
Arguments time_Now_Unix {A}.
Arguments Log {A}.
Arguments Panic {A}.

Fixpoint bind {A B} (p : Prog A) (f : A -> Prog B) : Prog B :=
  match p with
  | Ret a => f a
  | Call c k => Call c (fun r => bind (k r) f)
  | Stages_Find id k => Stages_Find id (fun r => bind (k r) f)
  | Stages_ListSteps id k => Stages_ListSteps id (fun r => bind (k r) f)
  | Stages_ListIncomplete k => Stages_ListIncomplete (fun r => bind (k r) f)
  | Scheduler_Cancelled id k => Scheduler_Cancelled id (fun r => bind (k r) f)
  | time_Now_Unix k => time_Now_Unix (fun r => bind (k r) f)
  | Log l msg err k => Log l msg err (bind k f)
  | Panic => Panic
  end.

#[global] Instance Prog_ret : MRet Prog := @Ret.
#[global] Instance Prog_bind : MBind Prog := fun A B f p => bind p f.

Definition call (c : command) : Prog (option error) := Call c Ret.
Definition now : Prog Z := time_Now_Unix Ret.
Definition log (l : level) (msg : string) (err : option error) : Prog unit :=
  Log l msg err (Ret tt).

(** An entry of the record of an execution: a call with what it returned. *)
Inductive event : Type :=
| ECall (c : command) (r : option error)
| EFind (id : Z) (r : option Stage.t * option error)
| EListSteps (build_id : Z) (r : list Stage.t * option error)
| EListIncomplete (r : list Stage.t * option error)
| ECancelled (id : Z) (r : bool * option error)
| ENow (t : Z)
| ELog (l : level) (msg : string) (err : option error).

(** An implementation of the collaborators over a state [W]. *)
Record handler (W : Type) : Type := {
  on_call : command -> W -> option error * W;
  on_find : Z -> W -> (option Stage.t * option error) * W;
  on_list_steps : Z -> W -> (list Stage.t * option error) * W;
  on_list_incomplete : W -> (list Stage.t * option error) * W;
  on_cancelled : Z -> W -> (bool * option error) * W;
  on_now : W -> Z * W
}.
Arguments on_call {W}.
Arguments on_find {W}.
Arguments on_list_steps {W}.
Arguments on_list_incomplete {W}.
Arguments on_cancelled {W}.
Arguments on_now {W}.

(** The outcome of a run: what the method returned ([None] when it
    panicked), the final state of the collaborators, and the calls made. *)
Record run (W A : Type) : Type := Run {
  result : option A;
  world : W;
  trace : list event
}.
Arguments Run {W A}.
Arguments result {W A}.
Arguments world {W A}.
Arguments trace {W A}.

Definition after {W A} (e : event) (r : run W A) : run W A :=
  Run (result r) (world r) (e :: trace r).

Fixpoint exec {W A} (h : handler W) (p : Prog A) (w : W) : run W A :=
  match p with
  | Ret a => Run (Some a) w []
  | Call c k =>
      let '(r, w') := on_call h c w in after (ECall c r) (exec h (k r) w')
  | Stages_Find id k =>
      let '(r, w') := on_find h id w in after (EFind id r) (exec h (k r) w')
  | Stages_ListSteps id k =>
      let '(r, w') := on_list_steps h id w in after (EListSteps id r) (exec h (k r) w')
  | Stages_ListIncomplete k =>
      let '(r, w') := on_list_incomplete h w in after (EListIncomplete r) (exec h (k r) w')
  | Scheduler_Cancelled id k =>
      let '(r, w') := on_cancelled h id w in after (ECancelled id r) (exec h (k r) w')
  | time_Now_Unix k =>
      let '(t, w') := on_now h w in after (ENow t) (exec h (k t) w')
  | Log l msg err k => after (ELog l msg err) (exec h k w)
  | Panic => Run None w []
  end.

#[global] Instance status_eq_dec : EqDecision status.
Proof. solve_decision. Defined.

(** ** Package manager (operator/manager) *)

Module manager.

(** [Manager.Accept]. *)
Definition Accept (id : Z) (machine : string) : Prog (option error) :=
  log Debug "manager: accept stage" None;;
  '(stage, err) ← Stages_Find id Ret;
  match err with
  | Some e =>
      log Warn "manager: cannot find stage" (Some e);;
      mret (Some e)
  | None =>
      match stage with
      | None => Panic
      | Some stage =>
          if negb (String.eqb (Stage.Machine stage) "") then
            log Debug "manager: stage already assigned. abort." None;;
            mret (Some ErrOptimisticLock)
          else
            let stage := Stage.with_Machine machine stage in
            let stage := Stage.with_Status StatusPending stage in
            t ← now;
            let stage := Stage.with_Updated t stage in
            err ← call (Stages_Update stage);
            match err with
            | Some ErrOptimisticLock =>
                log Debug "manager: stage processed by another agent" err
            | Some _ =>
                log Debug "manager: cannot update stage" err
            | None =>
                log Debug "manager: stage accepted" None
            end;;
            mret err
      end
  end.

(** [Manager.After]. [updater.do] is the step updater of the package
    (updater.go, not among the sources): a call that returns an error. *)
Definition After (step : Step.t) : Prog (option error) :=
  log Debug "manager: updating step status" None;;
  let errs : option error := None in
  err ← call (updater_do step);
  errs ← match err with
         | Some e =>
             log Warn "manager: cannot update step" (Some e);;
             mret (Some (multierror_Append errs e))
         | None => mret errs
         end;
  err ← call (Logz_Delete (Step.ID step));
  match err with
  | Some e => log Warn "manager: cannot teardown log stream" (Some e)
  | None => mret tt
  end;;
  mret errs.

(** [Manager.Watch]. The branch taken after [Stages.Find] is the one the
    source has: [if err == nil { ...; return ok, err }]. When the lookup
    fails the method goes on to [stage.IsDone()]. *)
Definition Watch (id : Z) : Prog (bool * option error) :=
  '(ok, err) ← Scheduler_Cancelled id Ret;
  match err with
  | Some e => mret (ok, Some e)
  | None =>
      '(stage, err) ← Stages_Find id Ret;
      match err with
      | None =>
          log Warn "manager: cannot find stage" None;;
          mret (ok, None)
      | Some _ =>
          match stage with
          | None => Panic
          | Some stage => mret (Stage.IsDone stage, None)
          end
      end
  end.

(** The loop [for _, step := range stage.Steps] of [Manager.Cancel]. The
    steps are updated in place in Go; here the loop returns the updated
    slice, or the error it stopped at. The elements of the slice are taken
    to be distinct objects, as a store returns them. *)
Fixpoint Cancel_steps (steps : list Step.t) : Prog (list Step.t + error) :=
  match steps with
  | [] => mret (inl [])
  | step :: rest =>
      if Step.IsDone step then
        r ← Cancel_steps rest;
        mret (match r with inl rest' => inl (step :: rest') | inr e => inr e end)
      else
        step ← (if negb (Step.Started step =? 0) then
                  mret (Step.with_Status StatusKilled step)
                else
                  let step := Step.with_Status StatusSkipped step in
                  t ← now;
                  mret (Step.with_Started t step));
        t ← now;
        let step := Step.with_Stopped t step in
        let step := Step.with_ExitCode 130 step in
        err ← call (Steps_Update step);
        match err with
        | Some e => mret (inr (Errorf "cannot update step status: %v" e))
        | None =>
            r ← Cancel_steps rest;
            mret (match r with inl rest' => inl (step :: rest') | inr e => inr e end)
        end
  end.

(** The loop [for _, stage := range stages] of [Manager.Cancel]. *)
Fixpoint Cancel_stages (stages : list Stage.t) : Prog (list Stage.t + error) :=
  match stages with
  | [] => mret (inl [])
  | stage :: rest =>
      if Stage.IsDone stage then
        r ← Cancel_stages rest;
        mret (match r with inl rest' => inl (stage :: rest') | inr e => inr e end)
      else
        stage ← (if negb (Stage.Started stage =? 0) then
                   mret (Stage.with_Status StatusKilled stage)
                 else
                   let stage := Stage.with_Status StatusSkipped stage in
                   t ← now;
                   mret (Stage.with_Started t stage));
        t ← now;
        let stage := Stage.with_Stopped t stage in
        err ← call (Stages_Update stage);
        match err with
        | Some e => mret (inr (Errorf "cannot update stage status: %v" e))
        | None =>
            s ← Cancel_steps (Stage.Steps stage);
            match s with
            | inr e => mret (inr e)
            | inl steps =>
                let stage := Stage.with_Steps steps stage in
                r ← Cancel_stages rest;
                mret (match r with inl rest' => inl (stage :: rest') | inr e => inr e end)
            end
        end
  end.

(** [Manager.Cancel]. [build] is a pointer in Go and is updated in place:
    the method returns, with its error, the state it leaves the caller's
    build in. [user] may be nil. *)
Definition Cancel (build : Build) (repo : Repository) (user : option User)
  : Prog (Build * option error) :=
  if bool_decide (Build.Status build ≠ StatusPending) &&
     bool_decide (Build.Status build ≠ StatusRunning) then
    mret (build, Some (ErrorNew "cannot cancel completed build"))
  else
    let build := Build.with_Status StatusKilled build in
    t ← now;
    let build := Build.with_Finished t build in
    build ← (if Build.Started build =? 0 then
               t ← now; mret (Build.with_Started t build)
             else mret build);
    err ← call (Builds_Update build);
    match err with
    | Some e => mret (build, Some (Errorf "cannot update build status to cancelled: %v" e))
    | None =>
    err ← call (Scheduler_Cancel (Build.ID build));
    match err with
    | Some e => mret (build, Some (Errorf "cannot signal cancelled build is complete: %v" e))
    | None =>
    err ← match user with
          | Some u => call (Status_Send u repo build)
          | None => mret None
          end;
    match err with
    | Some e => mret (build, Some (Errorf "cannot set status: %v" e))
    | None =>
    '(stages, err) ← Stages_ListSteps (Build.ID build) Ret;
    match err with
    | Some e => mret (build, Some (Errorf "cannot list build stages: %v" e))
    | None =>
    r ← Cancel_stages stages;
    match r with
    | inr e => mret (build, Some e)
    | inl stages =>
        let build := Build.with_Stages stages build in
        let payload := {| Webhook_Event := WebhookEventBuild;
                          Webhook_Action := WebhookActionUpdated;
                          Webhook_Repo := repo;
                          Webhook_Build := build |} in
        err ← call (Webhook_Send payload);
        match err with
        | Some e => log Warn "manager: cannot send global webhook" (Some e)
        | None => mret tt
        end;;
        mret (build, None)
    end end end end end.

End manager.

(** ** Package queue (scheduler/queue) *)

Module queue.

(** [worker]: a parked [Request]. [channel] stands for the Go channel the
    stage is delivered on; it tells apart two workers of equal platform. *)
Record worker : Type := {
  os : string;
  arch : string;
  kernel : string;
  variant : string;
  labels : gmap string string;
  channel : nat
}.

(** [queue], with the fields [signal] reads or writes. [workers] is a Go
    map used as a set, keyed by pointer: here the list of its keys. *)
Record t : Type := {
  paused : bool;
  workers : list worker
}.

(** The loop [for k, v := range a] of [checkLabels], over the entries of
    [a] in the order the range yields them. *)
Fixpoint checkLabels_range (entries : list (string * string)) (b : gmap string string) : bool :=
  match entries with
  | [] => true
  | (k, v) :: rest =>
      match b !! k with
      | Some w => if negb (String.eqb v w) then false else checkLabels_range rest b
      | None => false
      end
  end.

Definition checkLabels (a b : gmap string string) : bool :=
  if negb (Nat.eqb (size a) (size b)) then false
  else checkLabels_range (map_to_list a) b.

(** The loop of [withinLimits]; [count] is the counter so far. *)
Fixpoint withinLimits_count (stage : Stage.t) (siblings : list Stage.t) (count : Z) : Z :=
  match siblings with
  | [] => count
  | sibling :: rest =>
      if negb (Stage.RepoID sibling =? Stage.RepoID stage) then
        withinLimits_count stage rest count
      else if Stage.ID sibling =? Stage.ID stage then
        withinLimits_count stage rest count
      else if negb (String.eqb (Stage.Name sibling) (Stage.Name stage)) then
        withinLimits_count stage rest count
      else if Stage.ID sibling <? Stage.ID stage then
        withinLimits_count stage rest (count + 1)
      else
        withinLimits_count stage rest count
  end.

Definition withinLimits (stage : Stage.t) (siblings : list Stage.t) : bool :=
  if Stage.Limit stage =? 0 then true
  else withinLimits_count stage siblings 0 <? Stage.Limit stage.

(** The loop of [withinBranchLimits]: it returns at the first sibling of
    another build of the same repository when both builds are of master. *)
Fixpoint withinBranchLimits_range (stage : Stage.t) (siblings : list Stage.t) : bool :=
  match siblings with
  | [] => true
  | sibling :: rest =>
      if (Stage.BuildID sibling =? Stage.BuildID stage) ||
         negb (Stage.RepoID sibling =? Stage.RepoID stage) then
        withinBranchLimits_range stage rest
      else if String.eqb (Build.Source (Stage.Build sibling)) "master" &&
              String.eqb (Build.Source (Stage.Build stage)) "master" then
        if Stage.BuildID stage <? Stage.BuildID sibling then true
        else false
      else
        withinBranchLimits_range stage rest
  end.

Definition withinBranchLimits (stage : Stage.t) (siblings : list Stage.t) : bool :=
  if bool_decide (Build.Status (Stage.Build stage) = StatusRunning) then true
  else withinBranchLimits_range stage siblings.

(** The loop [for w := range q.workers] of [signal] for one item, over the
    workers in the order the range yields them: the worker the item is sent
    to and the workers left ([delete(q.workers, w)]), or [None] when no
    worker matches. The send [w.channel <- item] is taken to complete. *)
Fixpoint signal_workers (item : Stage.t) (ws : list worker) : option (worker * list worker) :=
  match ws with
  | [] => None
  | w :: rest =>
      let continue :=
        match signal_workers item rest with
        | Some (w', rest') => Some (w', w :: rest')
        | None => None
        end in
      if negb (String.eqb (os w) (Stage.OS item)) then continue
      else if negb (String.eqb (arch w) (Stage.Arch item)) then continue
      else if negb (String.eqb (Stage.Variant item) "") &&
              negb (String.eqb (Stage.Variant item) (variant w)) then continue
      else if negb (String.eqb (Stage.Kernel item) "") &&
              negb (String.eqb (Stage.Kernel item) (kernel w)) then continue
      else if (Nat.ltb 0 (size (Stage.Labels item)) || Nat.ltb 0 (size (labels w))) then
        if negb (checkLabels (Stage.Labels item) (labels w)) then continue
        else Some (w, rest)
      else Some (w, rest)
  end.

Section Signal.
(** Go leaves the order in which [range] visits a map unspecified:
    [range_workers ws] is the order the workers [ws] are visited in. *)
Variable range_workers : list worker -> list worker.

(** The loop [for _, item := range items] of [signal]: the deliveries made,
    in order, and the workers still waiting. [items] is the whole list, as
    the two limit checks are made against it. *)
Fixpoint signal_items (items rest : list Stage.t) (ws : list worker)
  : list (worker * Stage.t) * list worker :=
  match rest with
  | [] => ([], ws)
  | item :: rest =>
      if negb (withinBranchLimits item items) then signal_items items rest ws
      else if bool_decide (Stage.Status item = StatusRunning) then signal_items items rest ws
      else if negb (String.eqb (Stage.Machine item) "") then signal_items items rest ws
      else if negb (withinLimits item items) then signal_items items rest ws
      else
        match signal_workers item (range_workers ws) with
        | Some (w, ws') =>
            let '(sent, waiting) := signal_items items rest ws' in
            ((w, item) :: sent, waiting)
        | None => signal_items items rest ws
        end
  end.

(** [queue.signal]: one dispatch pass. It returns the queue it leaves, the
    deliveries it made (worker, stage) and its error. *)
Definition signal (q : t) : Prog (t * list (worker * Stage.t) * option error) :=
  let count := length (workers q) in
  let pause := paused q in
  if pause then mret (q, [], None)
  else if Nat.eqb count 0 then mret (q, [], None)
  else
    '(items, err) ← Stages_ListIncomplete Ret;
    match err with
    | Some e => mret (q, [], Some e)
    | None =>
        let '(sent, waiting) := signal_items items items (workers q) in
        mret ({| paused := paused q; workers := waiting |}, sent, None)
    end.

End Signal.

End queue.

(** ** What the spec asks of the queue *)

Module queue_spec.
Import queue.

(** A delivery is to a worker of the stage's platform: same os and arch,
    the stage's variant and kernel empty or the worker's, and, when either
    side has labels, the same label map (same keys, same values). *)
Definition platform_matches (w : worker) (item : Stage.t) : Prop :=
  os w = Stage.OS item /\
  arch w = Stage.Arch item /\
  (Stage.Variant item = "" \/ Stage.Variant item = variant w) /\
  (Stage.Kernel item = "" \/ Stage.Kernel item = kernel w) /\
  (Stage.Labels item <> ∅ \/ labels w <> ∅ -> Stage.Labels item = labels w).

(** A sibling that counts against the limit of [stage]: another stage of
    the same repository and of the same name, with a smaller id. *)
Definition older_sibling (stage sibling : Stage.t) : bool :=
  (Stage.RepoID sibling =? Stage.RepoID stage) &&
  negb (Stage.ID sibling =? Stage.ID stage) &&
  String.eqb (Stage.Name sibling) (Stage.Name stage) &&
  (Stage.ID sibling <? Stage.ID stage).

(** No stage of [l] in the repository of [stage] is of a master build with
    a larger build id. *)
Definition no_newer_master (stage : Stage.t) (l : list Stage.t) : Prop :=
  forall s, In s l ->
    Stage.RepoID s = Stage.RepoID stage ->
    Build.Source (Stage.Build s) = "master" ->
    Stage.BuildID s <= Stage.BuildID stage.

(** No stage of [l] in the repository of [stage] is of another master
    build. *)
Definition no_other_master (stage : Stage.t) (l : list Stage.t) : Prop :=
  forall s, In s l ->
    Stage.RepoID s = Stage.RepoID stage ->
    Build.Source (Stage.Build s) = "master" ->
    Stage.BuildID s = Stage.BuildID stage.

End queue_spec.

(** ** What cancellation leaves behind *)

Module after_cancel.

(** What [Cancel] has done to a step [s] of a stage it went through, given
    the step [s'] it left and the calls [tr] it made: a step that was done
    is as it was; any other step is now killed (if it had started) or
    skipped (with [Started] read from the clock), [Stopped] is a reading of
    the clock, [ExitCode] is 130, and the step was written to the store. *)
Definition step (tr : list event) (s s' : Step.t) : Prop :=
  if Step.IsDone s then s' = s
  else
    Step.ID s' = Step.ID s /\
    Step.IsDone s' = true /\
    Step.Status s' = (if Step.Started s =? 0 then StatusSkipped else StatusKilled) /\
    (if Step.Started s =? 0 then In (ENow (Step.Started s')) tr
     else Step.Started s' = Step.Started s) /\
    In (ENow (Step.Stopped s')) tr /\
    Step.ExitCode s' = 130 /\
    In (ECall (Steps_Update s') None) tr.

(** The same for a stage [s] of the build. The stage is written to the
    store before its steps are gone through. *)
Definition stage (tr : list event) (s s' : Stage.t) : Prop :=
  if Stage.IsDone s then s' = s
  else
    Stage.ID s' = Stage.ID s /\
    Stage.IsDone s' = true /\
    Stage.Status s' = (if Stage.Started s =? 0 then StatusSkipped else StatusKilled) /\
    (if Stage.Started s =? 0 then In (ENow (Stage.Started s')) tr
     else Stage.Started s' = Stage.Started s) /\
    In (ENow (Stage.Stopped s')) tr /\
    In (ECall (Stages_Update (Stage.with_Steps (Stage.Steps s) s')) None) tr /\
    Forall2 (step tr) (Stage.Steps s) (Stage.Steps s').

(** The calls the loop over the steps of a stage may make: readings of the
    clock, and writes of steps of [steps] that were not done. *)
Definition steps_event (steps : list Step.t) (e : event) : Prop :=
  match e with
  | ENow _ => True
  | ECall (Steps_Update u) _ =>
      exists x, In x steps /\ Step.IsDone x = false /\ Step.ID u = Step.ID x
  | _ => False
  end.

(** The calls the loop over the stages may make: readings of the clock,
    writes of stages of [stages] that were not done, and writes of steps
    of such stages that were not done. *)
Definition stages_event (stages : list Stage.t) (e : event) : Prop :=
  match e with
  | ENow _ => True
  | ECall (Stages_Update u) _ =>
      exists s, In s stages /\ Stage.IsDone s = false /\ Stage.ID u = Stage.ID s
  | ECall (Steps_Update u) _ =>
      exists s x, In s stages /\ Stage.IsDone s = false /\
                  In x (Stage.Steps s) /\ Step.IsDone x = false /\
                  Step.ID u = Step.ID x
  | _ => False
  end.

(** Every write to the stage store and to the step store in [tr] is for a
    stage of [stages] that was not done, or for a step that was not done of
    such a stage. *)
Definition writes_live (stages : list Stage.t) (tr : list event) : Prop :=
  (forall u e, In (ECall (Stages_Update u) e) tr ->
     stages_event stages (ECall (Stages_Update u) e)) /\
  (forall u e, In (ECall (Steps_Update u) e) tr ->
     stages_event stages (ECall (Steps_Update u) e)).

End after_cancel.

(** ** A simulated server, to run the methods on concrete scenarios *)

Module Sim.

(** The collaborators in memory: a clock that advances by one second at
    every reading, the rows of the stage store, what the scheduler answers
    to [Cancelled], and the error each error-only call is made to return. *)
Record world : Type := {
  clock : Z;
  stages : list Stage.t;
  cancelled : Z -> bool * option error;
  failing : command -> option error
}.

Definition put_stage (s : Stage.t) (rows : list Stage.t) : list Stage.t :=
  map (fun row => if Stage.ID row =? Stage.ID s
                  then Stage.with_Steps (Stage.Steps row) s else row) rows.

Definition put_step (s : Step.t) (rows : list Stage.t) : list Stage.t :=
  map (fun row =>
         Stage.with_Steps
           (map (fun x => if Step.ID x =? Step.ID s then s else x) (Stage.Steps row))
           row) rows.

Definition write (c : command) (w : world) : world :=
  match c with
  | Stages_Update s =>
      {| clock := clock w; stages := put_stage s (stages w);
         cancelled := cancelled w; failing := failing w |}
  | Steps_Update s =>
      {| clock := clock w; stages := put_step s (stages w);
         cancelled := cancelled w; failing := failing w |}
  | _ => w
  end.

Definition server : handler world := {|
  on_call c w :=
    match failing w c with
    | Some e => (Some e, w)
    | None => (None, write c w)
    end;
  on_find id w :=
    match List.find (fun row => Stage.ID row =? id) (stages w) with
    | Some row => ((Some row, None), w)
    | None => ((None, Some (ErrorNew "sql: no rows in result set")), w)
    end;
  on_list_steps build_id w :=
    ((filter (fun row => Stage.BuildID row = build_id) (stages w), None), w);
  on_list_incomplete w :=
    ((filter (fun row => Stage.IsDone row = false) (stages w), None), w);
  on_cancelled id w := (cancelled w id, w);
  on_now w :=
    (clock w, {| clock := clock w + 1; stages := stages w;
                 cancelled := cancelled w; failing := failing w |})
|}.

Definition repo : Repository := {| Repo_ID := 1; Repo_Slug := "octocat/hello-world" |}.
Definition user : User := {| User_ID := 1; User_Login := "octocat" |}.

(** A build of [repo], as embedded in a stage and as held by a caller. *)
Definition build_of {S} (id : Z) (st : status) (source : string) (started : Z) : Build.t S :=
  Build.mk id 1 id st "push" source started 0 [].

(** A linux/amd64 stage of [repo] without labels, variant or kernel. *)
Definition stage_of (id build_id : Z) (name : string) (st : status) (machine : string)
    (limit started : Z) (steps : list Step.t) (b : Build.t Empty_set) : Stage.t :=
  Stage.mk id 1 build_id name st machine "linux" "amd64" "" "" limit started 0 0 ∅ steps b.

Definition never_cancelled : Z -> bool * option error := fun _ => (false, None).
Definition never_failing : command -> option error := fun _ => None.

(** Scenario "happy path": one pending stage, id 7, of build 10. *)
Definition stage7 : Stage.t :=
  stage_of 7 10 "build" StatusPending "" 0 0
    [Step.mk 70 7 "test" StatusPending 0 0 0]
    (build_of 10 StatusPending "master" 0).

Definition w_pending : world :=
  {| clock := 1000; stages := [stage7];
     cancelled := never_cancelled; failing := never_failing |}.

(** Scenario "cancel mid-flight": build 10 has stage A (running, one step
    running, one pending), stage B (not started) and stage C (already
    passing, with its step). *)
Definition stageA : Stage.t :=
  stage_of 1 10 "A" StatusRunning "m1" 0 900
    [Step.mk 11 1 "compile" StatusRunning 0 950 0;
     Step.mk 12 1 "test" StatusPending 0 0 0]
    (build_of 10 StatusRunning "master" 900).
Definition stageB : Stage.t :=
  stage_of 2 10 "B" StatusWaiting "" 0 0
    [Step.mk 21 2 "deploy" StatusPending 0 0 0]
    (build_of 10 StatusRunning "master" 900).
Definition stageC : Stage.t :=
  stage_of 3 10 "C" StatusPassing "m2" 0 800
    [Step.mk 31 3 "lint" StatusPassing 0 800 850]
    (build_of 10 StatusRunning "master" 900).

Definition build10 : Build := build_of 10 StatusRunning "master" 900.
Definition build9_passing : Build := build_of 9 StatusPassing "master" 100.

Definition w_running : world :=
  {| clock := 1000; stages := [stageA; stageB; stageC];
     cancelled := never_cancelled; failing := never_failing |}.

(** The same server with a log stream that cannot be deleted, a status
    service that is down, or a webhook sink that is down. *)
Definition logz_down (c : command) : option error :=
  match c with
  | Logz_Delete _ => Some (ErrorNew "stream: not found")
  | _ => None
  end.
Definition status_down (c : command) : option error :=
  match c with
  | Status_Send _ _ _ => Some (ErrorNew "scm: 502 bad gateway")
  | _ => None
  end.
Definition webhook_down (c : command) : option error :=
  match c with
  | Webhook_Send _ => Some (ErrorNew "webhook: connection refused")
  | _ => None
  end.

(** What "cancel mid-flight" must leave, the clock reading 1000 when
    [Cancel] is called. *)
Definition stageA_killed : Stage.t :=
  Stage.with_Stopped 1001
    (stage_of 1 10 "A" StatusKilled "m1" 0 900
       [Step.mk 11 1 "compile" StatusKilled 130 950 1002;
        Step.mk 12 1 "test" StatusSkipped 130 1003 1004]
       (build_of 10 StatusRunning "master" 900)).
Definition stageB_skipped : Stage.t :=
  Stage.with_Stopped 1006
    (stage_of 2 10 "B" StatusSkipped "" 0 1005
       [Step.mk 21 2 "deploy" StatusSkipped 130 1007 1008]
       (build_of 10 StatusRunning "master" 900)).
Definition build10_killed : Build :=
  Build.with_Stages [stageA_killed; stageB_skipped; stageC]
    (Build.with_Finished 1000 (build_of (S:=Stage.t) 10 StatusKilled "master" 900)).

Definition w_failing (f : command -> option error) : world :=
  {| clock := 1000; stages := [stageA; stageB; stageC];
     cancelled := never_cancelled; failing := f |}.

(** Scenario "happy path", queue side: one linux/amd64 worker waits. *)
Definition worker1 : queue.worker :=
  {| queue.os := "linux"; queue.arch := "amd64"; queue.kernel := "";
     queue.variant := ""; queue.labels := ∅; queue.channel := 1 |}.
Definition q_waiting : queue.t :=
  {| queue.paused := false; queue.workers := [worker1] |}.
Definition q_served : queue.t :=
  {| queue.paused := false; queue.workers := [] |}.

(** Scenario "platform mismatch": the worker is linux/arm64. *)
Definition worker_arm : queue.worker :=
  {| queue.os := "linux"; queue.arch := "arm64"; queue.kernel := "";
     queue.variant := ""; queue.labels := ∅; queue.channel := 2 |}.

(** Scenario "concurrency limit": three pending stages named "build" of
    builds 20, 21, 22 on branches other than master, with limit 2. *)
Definition limited (id build_id : Z) : Stage.t :=
  stage_of id build_id "build" StatusPending "" 2 0 []
    (build_of build_id StatusPending "feature" 0).
Definition three_limited : list Stage.t := [limited 1 20; limited 2 21; limited 3 22].

(** Scenario "branch priority": master builds 10 and 11 of [repo], one
    pending stage each; and build 11 once it is running, and a stage of a
    third master build, 12. *)
Definition master (id build_id : Z) (build_status : status) : Stage.t :=
  stage_of id build_id "build" StatusPending "" 0 0 []
    (build_of build_id build_status "master" 0).
Definition master10 : Stage.t := master 1 10 StatusPending.
Definition master11 : Stage.t := master 2 11 StatusPending.
Definition master11_running : Stage.t := master 2 11 StatusRunning.
Definition master12 : Stage.t := master 3 12 StatusPending.

End Sim.


(** ** The queue: order of the list read from the store *)

Module queue_order.

(** The list is in ascending order of build id. *)
Fixpoint in_build_order (l : list Stage.t) : Prop :=
  match l with
  | [] => True
  | s :: rest =>
      (forall x, In x rest -> Stage.BuildID s <= Stage.BuildID x) /\ in_build_order rest
  end.

End queue_order.

(** ** Cancel: reading its trace *)

Module cancel_trace.

(** [wraps ev e]: the call [ev] failed and [e] is the error [Cancel] makes
    of that failure. *)
Definition wraps (ev : event) (e : error) : Prop :=
  match ev with
  | ECall (Builds_Update _) (Some cause) =>
      e = Errorf "cannot update build status to cancelled: %v" cause
  | ECall (Scheduler_Cancel _) (Some cause) =>
      e = Errorf "cannot signal cancelled build is complete: %v" cause
  | ECall (Status_Send _ _ _) (Some cause) =>
      e = Errorf "cannot set status: %v" cause
  | EListSteps _ (_, Some cause) =>
      e = Errorf "cannot list build stages: %v" cause
  | ECall (Stages_Update _) (Some cause) =>
      e = Errorf "cannot update stage status: %v" cause
  | ECall (Steps_Update _) (Some cause) =>
      e = Errorf "cannot update step status: %v" cause
  | _ => False
  end.

Definition is_webhook (ev : event) : bool :=
  match ev with
  | ECall (Webhook_Send _) _ => true
  | _ => false
  end.

Definition is_status (ev : event) : bool :=
  match ev with
  | ECall (Status_Send _ _ _) _ => true
  | _ => false
  end.

End cancel_trace.

(** ** Programs over any interface *)

(** Program trees like [Prog], over an interface given by its calls [Op],
    for each call the type [Res] of what it returns, and the type [Out] of
    what a program writes without an answer (log lines). *)
Module tree.
Section Interface.
Context {Op : Type} {Res : Op -> Type} {Out : Type}.

Inductive t (A : Type) : Type :=
| Ret (a : A)
| Ask (o : Op) (k : Res o -> t A)
| Say (x : Out) (k : t A)
| Panic.
Arguments Ret {A}.
Arguments Ask {A}.
Arguments Say {A}.
Arguments Panic {A}.

Fixpoint bind {A B} (p : t A) (f : A -> t B) : t B :=
  match p with
  | Ret a => f a
  | Ask o k => Ask o (fun r => bind (k r) f)
  | Say x k => Say x (bind k f)
  | Panic => Panic
  end.

Definition ask (o : Op) : t (Res o) := Ask o Ret.
Definition say (x : Out) : t unit := Say x (Ret tt).

(** What a run records: a call with what it returned, or a line written. *)
Inductive entry : Type :=
| Called (o : Op) (r : Res o)
| Said (x : Out).

(** An implementation of the interface over a state [W]. *)
Definition handler (W : Type) : Type := forall o : Op, W -> Res o * W.

Record run (W A : Type) : Type := Run {
  result : option A;
  world : W;
  trace : list entry
}.
Arguments Run {W A}.
Arguments result {W A}.
Arguments world {W A}.
Arguments trace {W A}.

Fixpoint exec {W A} (h : handler W) (p : t A) (w : W) : run W A :=
  match p with
  | Ret a => Run (Some a) w []
  | Ask o k =>
      let '(r, w') := h o w in
      let out := exec h (k r) w' in
      Run (result out) (world out) (Called o r :: trace out)
  | Say x k =>
      let out := exec h k w in
      Run (result out) (world out) (Said x :: trace out)
  | Panic => Run None w []
  end.

(** The calls of a run, in order, without what they returned. *)
Fixpoint calls (tr : list entry) : list Op :=
  match tr with
  | [] => []
  | Called o _ :: rest => o :: calls rest
  | Said _ :: rest => calls rest
  end.

End Interface.
Arguments t {Op} Res Out A.
Arguments Ret {Op Res Out A}.
Arguments Ask {Op Res Out A}.
Arguments Say {Op Res Out A}.
Arguments Panic {Op Res Out A}.
Arguments entry {Op} Res Out.
Arguments Called {Op Res Out}.
Arguments Said {Op Res Out}.
Arguments handler {Op} Res W.
Arguments run {Op} Res Out W A.
Arguments Run {Op Res Out W A}.
Arguments result {Op Res Out W A}.
Arguments world {Op Res Out W A}.
Arguments trace {Op Res Out W A}.
End tree.

#[global] Instance tree_ret {Op} {Res : Op -> Type} {Out} : MRet (tree.t Res Out) :=
  @tree.Ret Op Res Out.
#[global] Instance tree_bind {Op} {Res : Op -> Type} {Out} : MBind (tree.t Res Out) :=
  fun A B f p => tree.bind p f.

(** A log line: level, message and the error attached to the logger. *)
Definition logline : Type := level * string * option error.

(** ** More of package core *)

(** [core.Repository] with the fields the manager and the handler read. *)
Module Repo.
Record t : Type := mk {
  ID : Z;
  UserID : Z;
  Namespace : string;
  Name : string;
  Slug : string
}.
End Repo.

(** [core.Secret]. *)
Module Secret.
Record t : Type := mk {
  Name : string;
  Data : string;
  PullRequest : bool
}.
End Secret.

(** [core.Netrc]. *)
Module Netrc.
Record t : Type := mk {
  Machine : string;
  Login : string;
  Password : string
}.
End Netrc.

(** [core.System], passed through. *)
Module System.
Record t : Type := mk { Host : string }.
End System.

(** [core.Filter]. *)
Record Filter : Type := {
  Filter_Kind : string;
  Filter_Type : string;
  Filter_OS : string;
  Filter_Arch : string;
  Filter_Kernel : string;
  Filter_Variant : string;
  Filter_Labels : gmap string string
}.

(** Modelled from the spec: the event constant of package core
    ([build.event == pull_request]). *)
Definition EventPullRequest : string := "pull_request".

(** ** Package manager: the other methods *)

Module manager_io.

(** [Request] of package manager: the filters of an agent. *)
Record Request_args : Type := {
  Kind : string;
  Type_ : string;
  OS : string;
  Arch : string;
  Variant : string;
  Kernel : string;
  Labels : gmap string string
}.

(** The calls of the methods below on the collaborators of the manager;
    [Ctx_Err] is [ctx.Err()]. *)
Inductive op : Type :=
| Scheduler_Request (f : Filter)
| Ctx_Err
| Stages_Find (id : Z)
| Builds_Find (id : Z)
| Repos_Find (id : Z)
| Users_Find (id : Z)
| Config_Find (user : option User) (repo : Repo.t) (build : Build)
| Secrets_List (repo_id : Z)
| Netrcs_Create (user : option User) (repo : Repo.t)
| Logz_Create (step_id : Z)
| updater_do (step : Step.t).

(** What each call returns; a pointer result is an [option], [None] being
    nil. [Config.Find] returns a [*core.Config], here its data. *)
Definition res (o : op) : Type :=
  match o with
  | Scheduler_Request _ => (option Stage.t * option error)%type
  | Ctx_Err => option error
  | Stages_Find _ => (option Stage.t * option error)%type
  | Builds_Find _ => (option Build * option error)%type
  | Repos_Find _ => (option Repo.t * option error)%type
  | Users_Find _ => (option User * option error)%type
  | Config_Find _ _ _ => (option string * option error)%type
  | Secrets_List _ => (list Secret.t * option error)%type
  | Netrcs_Create _ _ => (option Netrc.t * option error)%type
  | Logz_Create _ => option error
  | updater_do _ => option error
  end.

Definition M : Type -> Type := tree.t res logline.
Definition ask (o : op) : M (res o) := tree.ask o.
Definition log (l : level) (msg : string) (err : option error) : M unit :=
  tree.say (l, msg, err).

(** [Manager.Request]. *)
Definition Request (args : Request_args) : M (option Stage.t * option error) :=
  log Debug "manager: request queue item" None;;
  '(stage, err) ← ask (Scheduler_Request
                         {| Filter_Kind := Kind args;
                            Filter_Type := Type_ args;
                            Filter_OS := OS args;
                            Filter_Arch := Arch args;
                            Filter_Kernel := Kernel args;
                            Filter_Variant := Variant args;
                            Filter_Labels := Labels args |});
  match err with
  | None => mret (stage, None)
  | Some e =>
      cerr ← ask Ctx_Err;
      match cerr with
      | Some _ =>
          log Debug "manager: context canceled" None;;
          mret (None, Some e)
      | None =>
          log Warn "manager: request queue item error" (Some e);;
          mret (None, Some e)
      end
  end.

(** The loop [for _, secret := range tmpSecrets] of [Manager.Details]. *)
Fixpoint Details_secrets (build : Build) (tmpSecrets : list Secret.t) : list Secret.t :=
  match tmpSecrets with
  | [] => []
  | secret :: rest =>
      if negb (Secret.PullRequest secret) &&
         String.eqb (Build.Event build) EventPullRequest then
        Details_secrets build rest
      else
        secret :: Details_secrets build rest
  end.

(** [Context] of package manager, as [Details] fills it. [Config] is the
    data of the [core.File]. *)
Record Context : Type := {
  Repo : Repo.t;
  Build : Build.t Stage.t;
  Stage : Stage.t;
  Config : string;
  Secrets : list Secret.t;
  System : option System.t
}.

(** [Manager.Details]; [system] is the field [m.System]. *)
Definition Details (system : option System.t) (id : Z) : M (option Context * option error) :=
  log Debug "manager: fetching stage details" None;;
  '(stage, err) ← ask (Stages_Find id);
  match err with
  | Some e => log Warn "manager: cannot find stage" (Some e);; mret (None, Some e)
  | None =>
  match stage with
  | None => tree.Panic
  | Some stage =>
  '(build, err) ← ask (Builds_Find (Stage.BuildID stage));
  match err with
  | Some e => log Warn "manager: cannot find build" (Some e);; mret (None, Some e)
  | None =>
  match build with
  | None => tree.Panic
  | Some build =>
  '(repo, err) ← ask (Repos_Find (Build.RepoID build));
  match err with
  | Some e => log Warn "manager: cannot find repository" (Some e);; mret (None, Some e)
  | None =>
  match repo with
  | None => tree.Panic
  | Some repo =>
  '(user, err) ← ask (Users_Find (Repo.UserID repo));
  match err with
  | Some e => log Warn "manager: cannot find repository owner" (Some e);; mret (None, Some e)
  | None =>
  '(config, err) ← ask (Config_Find user repo build);
  match err with
  | Some e => log Warn "manager: cannot find configuration" (Some e);; mret (None, Some e)
  | None =>
  '(tmpSecrets, err) ← ask (Secrets_List (Repo.ID repo));
  match err with
  | Some e => log Warn "manager: cannot list secrets" (Some e);; mret (None, Some e)
  | None =>
  let secrets := Details_secrets build tmpSecrets in
  match config with
  | None => tree.Panic
  | Some data =>
      mret (Some {| Repo := repo;
                    Build := build;
                    Stage := stage;
                    Config := data;
                    Secrets := secrets;
                    System := system |}, None)
  end end end end end end end end end end.

(** [Manager.Before]. *)
Definition Before (step : Step.t) : M (option error) :=
  log Debug "manager: updating step status" None;;
  err ← ask (Logz_Create (Step.ID step));
  match err with
  | Some e =>
      log Warn "manager: cannot create log stream" (Some e);;
      mret (Some e)
  | None => ask (updater_do step)
  end.

(** [Manager.Netrc]. *)
Definition Netrc (id : Z) : M (option Netrc.t * option error) :=
  '(repo, err) ← ask (Repos_Find id);
  match err with
  | Some e => log Warn "manager: cannot find repository" (Some e);; mret (None, Some e)
  | None =>
  match repo with
  | None => tree.Panic
  | Some repo =>
  '(user, err) ← ask (Users_Find (Repo.UserID repo));
  match err with
  | Some e => log Warn "manager: cannot find repository owner" (Some e);; mret (None, Some e)
  | None =>
  '(netrc, err) ← ask (Netrcs_Create user repo);
  match err with
  | Some e => log Warn "manager: cannot gernerate netrc" (Some e)
  | None => mret tt
  end;;
  mret (netrc, err)
  end end end.

(** The error a call returned. *)
Definition error_of (o : op) : res o -> option error :=
  match o with
  | Scheduler_Request _ => snd
  | Ctx_Err => fun r => r
  | Stages_Find _ => snd
  | Builds_Find _ => snd
  | Repos_Find _ => snd
  | Users_Find _ => snd
  | Config_Find _ _ _ => snd
  | Secrets_List _ => snd
  | Netrcs_Create _ _ => snd
  | Logz_Create _ => fun r => r
  | updater_do _ => fun r => r
  end.

(** What [Details] and [Netrc] rely on: a lookup that returns no error
    returns what was asked for; the pointer is not nil. *)
Definition found (o : op) : res o -> Prop :=
  match o with
  | Stages_Find _ => fun r => snd r = None -> fst r <> None
  | Builds_Find _ => fun r => snd r = None -> fst r <> None
  | Repos_Find _ => fun r => snd r = None -> fst r <> None
  | Config_Find _ _ _ => fun r => snd r = None -> fst r <> None
  | _ => fun _ => True
  end.

End manager_io.
(** ** Package builds (handler/api/repos/builds): the cancel handler *)

Module builds.

(** What the handler calls: the three stores, and the build manager, which
    it holds as an interface. [Cancel] updates the build it is given in
    place: the call returns the build as it leaves it, with its error.
    [Manager_Cancel_nil] is the call with a nil build. *)
Inductive op : Type :=
| Repos_FindName (namespace name : string)
| Users_Find (id : Z)
| Builds_FindNumber (repo_id number : Z)
| Manager_Cancel (build : Build) (repo : Repo.t) (user : option User)
| Manager_Cancel_nil (repo : Repo.t) (user : option User).

Definition res (o : op) : Type :=
  match o with
  | Repos_FindName _ _ => (option Repo.t * option error)%type
  | Users_Find _ => (option User * option error)%type
  | Builds_FindNumber _ _ => (option Build * option error)%type
  | Manager_Cancel _ _ _ => (Build * option error)%type
  | Manager_Cancel_nil _ _ => option error
  end.

(** What the handler writes to the client, by the function of package
    render it calls. *)
Inductive response : Type :=
| BadRequest (err : error)
| NotFound (err : error)
| InternalError (err : error)
| JSON (v : Build) (status : Z).

Definition M : Type -> Type := tree.t res logline.
Definition ask (o : op) : M (res o) := tree.ask o.
Definition log (l : level) (msg : string) (err : option error) : M unit :=
  tree.say (l, msg, err).

Section Handler.
(** [strconv.ParseInt(s, 10, 64)]. *)
Variable ParseInt : string -> Z * option error.

(** The function [HandleCancel] returns, for a request whose URL
    parameters are [owner], [name] and [number]. *)
Definition HandleCancel (owner name number : string) : M response :=
  let namespace := owner in
  let '(number, err) := ParseInt number in
  match err with
  | Some e => mret (BadRequest e)
  | None =>
  '(repo, err) ← ask (Repos_FindName namespace name);
  match err with
  | Some e =>
      log Debug "api: cannot find repository" (Some e);;
      mret (NotFound e)
  | None =>
  match repo with
  | None => tree.Panic
  | Some repo =>
  '(user, err) ← ask (Users_Find (Repo.UserID repo));
  match err with
  | Some e => log Debug "api: cannot find repository owner" (Some e)
  | None => mret tt
  end;;
  '(build, err) ← ask (Builds_FindNumber (Repo.ID repo) number);
  match err with
  | Some e =>
      match build with
      | None => tree.Panic
      | Some _ =>
          log Debug "api: cannot find build" (Some e);;
          mret (NotFound e)
      end
  | None =>
  match build with
  | None =>
      ask (Manager_Cancel_nil repo user);;
      tree.Panic
  | Some build =>
  '(build, err) ← ask (Manager_Cancel build repo user);
  match err with
  | Some e =>
      log Warn "api: cannot cancel build: %v" (Some e);;
      mret (InternalError (ErrorNew "Build failed to be cancelled"))
  | None =>
      log Debug "api: successfully cancelled build" None;;
      mret (JSON build 200)
  end end end end end end.

End Handler.

(** The calls on the build manager. *)
Definition is_cancel (o : op) : bool :=
  match o with
  | Manager_Cancel _ _ _ | Manager_Cancel_nil _ _ => true
  | _ => false
  end.

(** What the handler relies on: a repository lookup without an error
    returns the repository, and a build lookup returns a build even with
    an error (the handler reads [build.Number] for its log line). *)
Definition usable (o : op) : res o -> Prop :=
  match o with
  | Repos_FindName _ _ => fun r => snd r = None -> fst r <> None
  | Builds_FindNumber _ _ => fun r => fst r <> None
  | _ => fun _ => True
  end.

End builds.

(** ** Package yaml (vendor/github.com/drone/drone-yaml/yaml) *)

(** [strings.Split(s, sep)] of the Go standard library for a separator of
    one byte: the pieces of [s] between the separators, one more than
    there are separators. *)
Fixpoint strings_Split (s : string) (sep : Ascii.ascii) : list string :=
  match s with
  | EmptyString => [EmptyString]
  | String c rest =>
      if Ascii.eqb c sep then EmptyString :: strings_Split rest sep
      else match strings_Split rest sep with
           | [] => [String c EmptyString]
           | part :: parts => String c part :: parts
           end
  end.

Definition colon : Ascii.ascii := Ascii.ascii_of_nat 58.
Definition newline : Ascii.ascii := Ascii.ascii_of_nat 10.

(** The byte [sep] does not occur in [s]. *)
Fixpoint without (sep : Ascii.ascii) (s : string) : Prop :=
  match s with
  | EmptyString => True
  | String c rest => c <> sep /\ without sep rest
  end.

Module yaml.

(** [yaml.Container], with the fields [DindFunc] reads; its declaration is
    not among the sources. *)
Module Container.
Record t : Type := mk {
  Image : string;
  Commands : list string;
  Command : list string;
  Entrypoint : list string
}.
End Container.

Definition KindCron : string := "cron".
Definition KindPipeline : string := "pipeline".
Definition KindRegistry : string := "registry".
Definition KindSecret : string := "secret".
Definition KindSignature : string := "signature".

(** [resource]: the head of an encoded resource. *)
Record resource : Type := {
  Version : string;
  Kind : string;
  Type_ : string
}.

(** The struct types [UnmarshalJSON] allocates, by the case of its switch
    that allocates them. *)
Inductive allocated : Type := new_Cron | new_Secret | new_Signature | new_Registry | new_Pipeline.

(** [switch res.Kind]. *)
Definition switch_Kind (k : string) : allocated :=
  if String.eqb k "cron" then new_Cron
  else if String.eqb k "secret" then new_Secret
  else if String.eqb k "signature" then new_Signature
  else if String.eqb k "registry" then new_Registry
  else new_Pipeline.

Section Manifest.
(** The five resource structs are declared in other files of the package;
    [[]byte] and [json.RawMessage] are strings. *)
Variables Cron Secret Signature Registry Pipeline : Type.

(** A value of the interface [Resource]: a pointer to one of the five
    structs. *)
Inductive Resource : Type :=
| of_Cron (c : Cron)
| of_Secret (s : Secret)
| of_Signature (s : Signature)
| of_Registry (r : Registry)
| of_Pipeline (p : Pipeline).

Definition allocated_of (obj : Resource) : allocated :=
  match obj with
  | of_Cron _ => new_Cron
  | of_Secret _ => new_Secret
  | of_Signature _ => new_Signature
  | of_Registry _ => new_Registry
  | of_Pipeline _ => new_Pipeline
  end.

(** [Manifest]. *)
Record Manifest : Type := { Resources : list Resource }.

(** [json.Unmarshal] at each type it is called at: into a slice of raw
    messages, into a [resource], and into a new struct of each kind. *)
Variable Unmarshal_messages : string -> list string + error.
Variable Unmarshal_resource : string -> resource + error.
Variable Unmarshal_Cron : string -> Cron + error.
Variable Unmarshal_Secret : string -> Secret + error.
Variable Unmarshal_Signature : string -> Signature + error.
Variable Unmarshal_Registry : string -> Registry + error.
Variable Unmarshal_Pipeline : string -> Pipeline + error.
(** [json.Marshal] of the resources. *)
Variable Marshal : list Resource -> string * option error.

Definition into {A} (wrap : A -> Resource) (r : A + error) : Resource + error :=
  match r with
  | inl a => inl (wrap a)
  | inr e => inr e
  end.

(** [obj = new(T)] followed by [json.Unmarshal(message, obj)]. *)
Definition Unmarshal_obj (a : allocated) (message : string) : Resource + error :=
  match a with
  | new_Cron => into of_Cron (Unmarshal_Cron message)
  | new_Secret => into of_Secret (Unmarshal_Secret message)
  | new_Signature => into of_Signature (Unmarshal_Signature message)
  | new_Registry => into of_Registry (Unmarshal_Registry message)
  | new_Pipeline => into of_Pipeline (Unmarshal_Pipeline message)
  end.

(** The loop [for _, message := range messages] of [UnmarshalJSON]: the
    manifest as the loop leaves it, and the error it returns. *)
Fixpoint UnmarshalJSON_range (messages : list string) (m : Manifest)
  : Manifest * option error :=
  match messages with
  | [] => (m, None)
  | message :: rest =>
      match Unmarshal_resource message with
      | inr err => (m, Some err)
      | inl res =>
          match Unmarshal_obj (switch_Kind (Kind res)) message with
          | inr err => (m, Some err)
          | inl obj =>
              UnmarshalJSON_range rest {| Resources := Resources m ++ [obj] |}
          end
      end
  end.

(** [Manifest.UnmarshalJSON]: the receiver is updated in place. *)
Definition UnmarshalJSON (m : Manifest) (b : string) : Manifest * option error :=
  match Unmarshal_messages b with
  | inr err => (m, Some err)
  | inl messages => UnmarshalJSON_range messages m
  end.

(** [Manifest.MarshalJSON]. *)
Definition MarshalJSON (m : Manifest) : string * option error := Marshal (Resources m).

(** [Manifest.MarshalYAML]; the value returned is a nil interface. *)
Definition MarshalYAML (m : Manifest) : option Manifest * option error :=
  (None, Some (ErrorNew "yaml: marshal not implemented")).

(** [message] decodes to [obj]: its head decodes, and the struct its kind
    selects decodes to [obj]. *)
Definition decodes (message : string) (obj : Resource) : Prop :=
  exists res,
    Unmarshal_resource message = inl res /\
    Unmarshal_obj (switch_Kind (Kind res)) message = inl obj.

(** [message] fails to decode with [e]: its head does, or the struct its
    kind selects does. *)
Definition fails (message : string) (e : error) : Prop :=
  Unmarshal_resource message = inr e \/
  exists res,
    Unmarshal_resource message = inl res /\
    Unmarshal_obj (switch_Kind (Kind res)) message = inr e.

End Manifest.
Arguments of_Cron {Cron Secret Signature Registry Pipeline}.
Arguments of_Secret {Cron Secret Signature Registry Pipeline}.
Arguments of_Signature {Cron Secret Signature Registry Pipeline}.
Arguments of_Registry {Cron Secret Signature Registry Pipeline}.
Arguments of_Pipeline {Cron Secret Signature Registry Pipeline}.
Arguments allocated_of {Cron Secret Signature Registry Pipeline}.
Arguments Resources {Cron Secret Signature Registry Pipeline}.
Arguments Build_Manifest {Cron Secret Signature Registry Pipeline}.

End yaml.

(** ** Package compiler (drone-yaml/yaml/compiler) *)

Module compiler.
Import yaml.

Section Dind.
(** [image.Match] of package image, which is not among the sources. *)
Variable image_Match : string -> string -> bool.

(** The loop [for _, img := range images] of [DindFunc]. *)
Fixpoint DindFunc_range (images : list string) (container : Container.t) : bool :=
  match images with
  | [] => false
  | img :: rest =>
      let a := img in
      let b := Container.Image container in
      if image_Match a b then true else DindFunc_range rest container
  end.

(** [DindFunc(images)], applied to a container. *)
Definition DindFunc (images : list string) (container : Container.t) : bool :=
  if Nat.ltb 0 (length (Container.Commands container)) then false
  else if Nat.ltb 0 (length (Container.Command container)) then false
  else if Nat.ltb 0 (length (Container.Entrypoint container)) then false
  else DindFunc_range images container.

End Dind.
End compiler.

(** ** Package engine (drone-runtime), as package transform uses it *)

(** The structs of package engine with the fields [WithVolumes] reads or
    writes; their declarations are not among the sources. *)
Module engine.
Record Metadata : Type := {
  Metadata_UID : string;
  Metadata_Name : string;
  Metadata_Namespace : string;
  Metadata_Labels : gmap string string
}.
Record VolumeHostPath : Type := { HostPath_Path : string }.
Record Volume : Type := {
  Volume_Metadata : Metadata;
  Volume_HostPath : option VolumeHostPath
}.
Record VolumeMount : Type := { Mount_Name : string; Mount_Path : string }.
Record Step : Type := {
  Step_Metadata : Metadata;
  Step_Volumes : list VolumeMount
}.
Record DockerConfig : Type := { Docker_Volumes : list Volume }.
(** [Docker] is a pointer, [None] being nil; the steps are pointers taken
    to be set and distinct. *)
Record Spec : Type := {
  Spec_Metadata : Metadata;
  Spec_Docker : option DockerConfig;
  Spec_Steps : list Step
}.
End engine.

(** ** Package transform (drone-yaml/yaml/compiler/transform) *)

Module transform.
Import engine.

(** The one call of the package on a collaborator: [rand.String()]. *)
Inductive op : Type := rand_String.
Definition res (o : op) : Type := string.
Definition M : Type -> Type := tree.t res Empty_set.

(** [step.Volumes = append(step.Volumes, mount)]. *)
Definition mounted (mount : VolumeMount) (step : Step) : Step :=
  {| Step_Metadata := Step_Metadata step;
     Step_Volumes := Step_Volumes step ++ [mount] |}.

(** The loop [for key, value := range volumes] of [WithVolumes], over the
    entries of the map in the order the runtime ranges over them; the spec
    is updated in place. *)
Fixpoint WithVolumes_range (entries : list (string * string)) (spec : Spec) : M Spec :=
  match entries with
  | [] => mret spec
  | (key, value) :: rest =>
      uid ← tree.ask rand_String;
      name ← tree.ask rand_String;
      let volume :=
        {| Volume_Metadata :=
             {| Metadata_UID := uid;
                Metadata_Name := name;
                Metadata_Namespace := Metadata_Name (Spec_Metadata spec);
                Metadata_Labels := ∅ |};
           Volume_HostPath := Some {| HostPath_Path := key |} |} in
      match Spec_Docker spec with
      | None => tree.Panic
      | Some docker =>
          let docker := {| Docker_Volumes := Docker_Volumes docker ++ [volume] |} in
          let mount := {| Mount_Name := Metadata_Name (Volume_Metadata volume);
                          Mount_Path := value |} in
          WithVolumes_range rest
            {| Spec_Metadata := Spec_Metadata spec;
               Spec_Docker := Some docker;
               Spec_Steps := map (mounted mount) (Spec_Steps spec) |}
      end
  end.

(** The loop [for _, s := range volumes] of [WithVolumeSlice]. *)
Fixpoint WithVolumeSlice_range (volumes : list string) (to : gmap string string)
  : gmap string string :=
  match volumes with
  | [] => to
  | s :: rest =>
      let parts := strings_Split s colon in
      if negb (Nat.eqb (length parts) 2) then WithVolumeSlice_range rest to
      else
        let key := nth 0 parts "" in
        let val := nth 1 parts "" in
        WithVolumeSlice_range rest (<[key := val]> to)
  end.

Section Range.
(** The order in which the runtime ranges over a map. *)
Variable range_volumes : gmap string string -> list (string * string).

(** [WithVolumes(volumes)], applied to a spec. *)
Definition WithVolumes (volumes : gmap string string) (spec : Spec) : M Spec :=
  WithVolumes_range (range_volumes volumes) spec.

(** [WithVolumeSlice(volumes)], applied to a spec. *)
Definition WithVolumeSlice (volumes : list string) (spec : Spec) : M Spec :=
  let to := WithVolumeSlice_range volumes ∅ in
  WithVolumes to spec.

End Range.

Definition with_mounts (mounts : list VolumeMount) (step : Step) : Step :=
  {| Step_Metadata := Step_Metadata step;
     Step_Volumes := Step_Volumes step ++ mounts |}.

(** What [WithVolumes] adds for the entries, given the two random strings
    drawn for each: the volumes, and the mounts of every step. *)
Definition volumes_for (namespace : string) (entries : list (string * string))
    (drawn : list (string * string)) : list Volume :=
  zip_with (fun kv un =>
              {| Volume_Metadata :=
                   {| Metadata_UID := fst un;
                      Metadata_Name := snd un;
                      Metadata_Namespace := namespace;
                      Metadata_Labels := ∅ |};
                 Volume_HostPath := Some {| HostPath_Path := fst kv |} |})
           entries drawn.

Definition mounts_for (entries : list (string * string))
    (drawn : list (string * string)) : list VolumeMount :=
  zip_with (fun kv un => {| Mount_Name := snd un; Mount_Path := snd kv |}) entries drawn.

(** The calls that draw the strings [drawn], in order. *)
Definition draws (drawn : list (string * string)) : list (tree.entry res Empty_set) :=
  flat_map (fun un => [tree.Called rand_String (fst un); tree.Called rand_String (snd un)])
           drawn.

End transform.

(** Stand-ins to run the three packages on: resources written as
    [kind:text], one per line; images matched by name; random strings
    counted up. *)
Module Sim_yaml.

Definition head_of (message : string) : yaml.resource + error :=
  match strings_Split message colon with
  | [kind; _] => inl {| yaml.Version := ""; yaml.Kind := kind; yaml.Type_ := "" |}
  | _ => inr (ErrorNew "json: cannot unmarshal")
  end.

Definition body_of (message : string) : string + error :=
  match strings_Split message colon with
  | [_; text] =>
      if String.eqb text "" then inr (ErrorNew "unexpected end of JSON input")
      else inl text
  | _ => inr (ErrorNew "json: cannot unmarshal")
  end.

Definition messages_of (b : string) : list string + error :=
  if String.eqb b "" then inr (ErrorNew "unexpected end of JSON input")
  else inl (strings_Split b newline).

Definition UnmarshalJSON :=
  yaml.UnmarshalJSON string string string string string
    messages_of head_of body_of body_of body_of body_of body_of.

Definition empty : yaml.Manifest string string string string string :=
  yaml.Build_Manifest [].

(** The random source: the value of a counter, which it advances. *)
Definition counter : tree.handler transform.res nat := fun o n =>
  match o with
  | transform.rand_String => (String (Ascii.ascii_of_nat (97 + n)) "", S n)
  end.

Definition range_sorted (m : gmap string string) : list (string * string) := map_to_list m.

Definition spec : engine.Spec :=
  {| engine.Spec_Metadata :=
       {| engine.Metadata_UID := "u0"; engine.Metadata_Name := "default";
          engine.Metadata_Namespace := ""; engine.Metadata_Labels := ∅ |};
     engine.Spec_Docker := Some {| engine.Docker_Volumes := [] |};
     engine.Spec_Steps :=
       [ {| engine.Step_Metadata :=
              {| engine.Metadata_UID := "u1"; engine.Metadata_Name := "clone";
                 engine.Metadata_Namespace := "default"; engine.Metadata_Labels := ∅ |};
            engine.Step_Volumes := [] |};
         {| engine.Step_Metadata :=
              {| engine.Metadata_UID := "u2"; engine.Metadata_Name := "build";
                 engine.Metadata_Namespace := "default"; engine.Metadata_Labels := ∅ |};
            engine.Step_Volumes :=
              [ {| engine.Mount_Name := "cache"; engine.Mount_Path := "/cache" |} ] |} ] |}.

End Sim_yaml.

(** ** Simulated stores, to run the methods above on concrete scenarios *)

Module Sim_io.
Import manager_io.

(** The rows of the stores, the configuration file and the secrets of the
    one repository, and the error each call is made to return. *)
Record world : Type := {
  stages : list Stage.t;
  builds : list (Build.t Stage.t);
  repos : list Repo.t;
  users : list User;
  config : string;
  secrets : list Secret.t;
  down : op -> option error
}.

Definition no_rows : error := ErrorNew "sql: no rows in result set".

Definition row {A} (key : A -> Z) (id : Z) (rows : list A) : option A * option error :=
  match List.find (fun r => key r =? id) rows with
  | Some r => (Some r, None)
  | None => (None, Some no_rows)
  end.

(** What a call returns when it fails with [e]. *)
Definition failed (o : op) (e : error) : res o :=
  match o with
  | Scheduler_Request _ => (None, Some e)
  | Ctx_Err => Some e
  | Stages_Find _ => (None, Some e)
  | Builds_Find _ => (None, Some e)
  | Repos_Find _ => (None, Some e)
  | Users_Find _ => (None, Some e)
  | Config_Find _ _ _ => (None, Some e)
  | Secrets_List _ => ([], Some e)
  | Netrcs_Create _ _ => (None, Some e)
  | Logz_Create _ => Some e
  | updater_do _ => Some e
  end.

Definition answer (o : op) (w : world) : res o :=
  match o with
  | Scheduler_Request f =>
      match List.find (fun s => String.eqb (Stage.OS s) (Filter_OS f) &&
                                String.eqb (Stage.Arch s) (Filter_Arch f)) (stages w) with
      | Some s => (Some s, None)
      | None => (None, Some (ErrorNew "context canceled"))
      end
  | Ctx_Err => None
  | Stages_Find id => row Stage.ID id (stages w)
  | Builds_Find id => row Build.ID id (builds w)
  | Repos_Find id => row Repo.ID id (repos w)
  | Users_Find id => row User_ID id (users w)
  | Config_Find _ _ _ => (Some (config w), None)
  | Secrets_List _ => (secrets w, None)
  | Netrcs_Create user repo =>
      match user with
      | Some u => (Some (Netrc.mk "github.com" (User_Login u) "t0ken"), None)
      | None => (None, None)
      end
  | Logz_Create _ => None
  | updater_do _ => None
  end.

Definition server : tree.handler res world := fun o w =>
  match down w o with
  | Some e => (failed o e, w)
  | None => (answer o w, w)
  end.

Definition repo : Repo.t := Repo.mk 1 1 "octocat" "hello-world" "octocat/hello-world".

(** Build 10 of [repo] was pushed; build 11 is a pull request. *)
Definition build10 : Build.t Stage.t := Sim.build_of 10 StatusPending "master" 0.
Definition build11 : Build.t Stage.t := Build.mk 11 1 11 StatusPending "pull_request" "feature" 0 0 [].
Definition stage8 : Stage.t :=
  Sim.stage_of 8 11 "build" StatusPending "" 0 0 [] (Sim.build_of 11 StatusPending "feature" 0).

Definition token : Secret.t := Secret.mk "docker_password" "s3cr3t" false.
Definition preview : Secret.t := Secret.mk "preview_key" "k3y" true.

Definition never_down : op -> option error := fun _ => None.

Definition w_ready (f : op -> option error) : world :=
  {| stages := [Sim.stage7; stage8];
     builds := [build10; build11];
     repos := [repo];
     users := [Sim.user];
     config := "kind: pipeline";
     secrets := [token; preview];
     down := f |}.

Definition repos_down (o : op) : option error :=
  match o with
  | Repos_Find _ => Some (ErrorNew "sql: database is closed")
  | _ => None
  end.
Definition logz_down (o : op) : option error :=
  match o with
  | Logz_Create _ => Some (ErrorNew "stream: already exists")
  | _ => None
  end.
Definition netrcs_down (o : op) : option error :=
  match o with
  | Netrcs_Create _ _ => Some (ErrorNew "oauth: token expired")
  | _ => None
  end.

Definition agent : Request_args :=
  {| Kind := "pipeline"; Type_ := "docker"; OS := "linux"; Arch := "amd64";
     Variant := ""; Kernel := ""; Labels := ∅ |}.
Definition agent_arm : Request_args :=
  {| Kind := "pipeline"; Type_ := "docker"; OS := "linux"; Arch := "arm64";
     Variant := ""; Kernel := ""; Labels := ∅ |}.

End Sim_io.

Module Sim_api.
Import builds.

(** The value of a string of decimal digits. *)
Fixpoint digits (s : string) (acc : Z) : option Z :=
  match s with
  | EmptyString => Some acc
  | String c rest =>
      let n := Z.of_N (Ascii.N_of_ascii c) in
      if (48 <=? n) && (n <=? 57) then digits rest (10 * acc + (n - 48)) else None
  end.

(** [strconv.ParseInt(s, 10, 64)] for an unsigned numeral; anything else
    is a syntax error, a value that does not fit 64 bits a range error. *)
Definition ParseInt (s : string) : Z * option error :=
  match s with
  | EmptyString => (0, Some (ErrorNew "strconv.ParseInt: invalid syntax"))
  | _ =>
      match digits s 0 with
      | Some n =>
          if n <? 2 ^ 63 then (n, None)
          else (2 ^ 63 - 1, Some (ErrorNew "strconv.ParseInt: value out of range"))
      | None => (0, Some (ErrorNew "strconv.ParseInt: invalid syntax"))
      end
  end.

(** The rows of the stores, and the collaborators of the build manager,
    which is the [Manager] of package manager. *)
Record state : Type := {
  repos : list Repo.t;
  users : list User;
  builds : list Build;
  backend : Sim.world
}.

Definition as_Repository (repo : Repo.t) : Repository :=
  {| Repo_ID := Repo.ID repo; Repo_Slug := Repo.Slug repo |}.

(** [missing] is what the build store returns beside its error when it
    has no row ([None] is nil). *)
Definition server (missing : option Build) : tree.handler res state := fun o w =>
  match o return res o * state with
  | Repos_FindName namespace name =>
      (match List.find (fun r => String.eqb (Repo.Namespace r) namespace &&
                                 String.eqb (Repo.Name r) name) (repos w) with
       | Some r => (Some r, None)
       | None => (None, Some Sim_io.no_rows)
       end, w)
  | Users_Find id => (Sim_io.row User_ID id (users w), w)
  | Builds_FindNumber repo_id number =>
      (match List.find (fun b => (Build.RepoID b =? repo_id) &&
                                 (Build.Number b =? number)) (builds w) with
       | Some b => (Some b, None)
       | None => (missing, Some Sim_io.no_rows)
       end, w)
  | Manager_Cancel build repo user =>
      let r := exec Sim.server (manager.Cancel build (as_Repository repo) user) (backend w) in
      match result r with
      | Some out =>
          (out, {| repos := repos w; users := users w; builds := builds w;
                   backend := world r |})
      | None => ((build, Some (ErrorNew "panic")), w)
      end
  | Manager_Cancel_nil _ _ => (Some (ErrorNew "panic"), w)
  end.

Definition zero_build : Build := Build.mk 0 0 0 StatusSkipped "" "" 0 0 [].

(** Build 10 is running, build 9 has passed. The owner of the repository
    may be missing from the user store. *)
Definition w_api (owners : list User) : state :=
  {| repos := [Sim_io.repo];
     users := owners;
     builds := [Sim.build9_passing; Sim.build10];
     backend := Sim.w_running |}.

End Sim_api.

(** ** Running programs: general facts *)

Section Exec.
Context {W : Type} (h : handler W).

Lemma exec_bind {A B} (p : Prog A) (f : A -> Prog B) (w : W) :
  exec h (bind p f) w =
    match result (exec h p w) with
    | Some a =>
        Run (result (exec h (f a) (world (exec h p w))))
            (world (exec h (f a) (world (exec h p w))))
            (trace (exec h p w) ++ trace (exec h (f a) (world (exec h p w))))
    | None => Run None (world (exec h p w)) (trace (exec h p w))
    end.
Proof.
  revert w; induction p as [a|c k IH|id k IH|id k IH|k IH|id k IH|k IH|l msg err p IH|];
    intros w; cbn [bind exec].
  - cbn. destruct (exec h (f a) w); reflexivity.
  - destruct (on_call h c w) as [r w']. rewrite IH.
    destruct (exec h (k r) w') as [[a|] w'' tr]; reflexivity.
  - destruct (on_find h id w) as [r w']. rewrite IH.
    destruct (exec h (k r) w') as [[a|] w'' tr]; reflexivity.
  - destruct (on_list_steps h id w) as [r w']. rewrite IH.
    destruct (exec h (k r) w') as [[a|] w'' tr]; reflexivity.
  - destruct (on_list_incomplete h w) as [r w']. rewrite IH.
    destruct (exec h (k r) w') as [[a|] w'' tr]; reflexivity.
  - destruct (on_cancelled h id w) as [r w']. rewrite IH.
    destruct (exec h (k r) w') as [[a|] w'' tr]; reflexivity.
  - destruct (on_now h w) as [r w']. rewrite IH.
    destruct (exec h (k r) w') as [[a|] w'' tr]; reflexivity.
  - rewrite IH. destruct (exec h p w) as [[a|] w'' tr]; reflexivity.
  - reflexivity.
Qed.

Lemma exec_mbind {A B} (p : Prog A) (f : A -> Prog B) (w : W) :
  exec h (p ≫= f) w =
    match result (exec h p w) with
    | Some a =>
        Run (result (exec h (f a) (world (exec h p w))))
            (world (exec h (f a) (world (exec h p w))))
            (trace (exec h p w) ++ trace (exec h (f a) (world (exec h p w))))
    | None => Run None (world (exec h p w)) (trace (exec h p w))
    end.
Proof. apply exec_bind. Qed.

End Exec.

Lemma in_app_l {A} (x : A) (l l' : list A) : In x l -> In x (l ++ l').
Proof. intros; apply in_or_app; auto. Qed.

Lemma in_app_r {A} (x : A) (l l' : list A) : In x l' -> In x (l ++ l').
Proof. intros; apply in_or_app; auto. Qed.

(** Split the run of a sequence into the runs of its two parts. *)
Ltac exec_seq := first [rewrite exec_mbind | rewrite exec_bind].

(** Name what each collaborator call in the goal returned. *)
Ltac run_calls h :=
  repeat match goal with
    | |- context [on_now h ?w] => destruct (on_now h w) as [? ?]; cbn
    | |- context [on_call h ?c ?w] => destruct (on_call h c w) as [[?|] ?]; cbn
    | |- context [on_list_steps h ?i ?w] =>
        destruct (on_list_steps h i w) as [[? [?|]] ?]; cbn
    end.

(** ** Package manager: facts *)

Module manager_facts.
Import manager.

Section Accept.
Context {W : Type} (h : handler W) (w : W).


End Accept.


(** Scenario "accept race": the first agent is given the stage, the second
    finds the machine set and is refused. *)
Example Accept_race :
  let first := exec Sim.server (Accept 7 "m1") Sim.w_pending in
  let second := exec Sim.server (Accept 7 "m2") (world first) in
  result first = Some None /\ result second = Some (Some ErrOptimisticLock).
Proof. vm_compute. auto. Qed.

Section Watch_After.
Context {W : Type} (h : handler W) (w : W).

(** [Watch] answers with the scheduler's flag whenever both calls succeed:
    the stage that was found is not looked at. *)
Lemma Watch_found_returns_flag (id : Z) (ok : bool) (stage : option Stage.t) (w1 w2 : W) :
  on_cancelled h id w = ((ok, None), w1) ->
  on_find h id w1 = ((stage, None), w2) ->
  result (exec h (Watch id) w) = Some (ok, None).
Proof. intros Hc Hf. unfold Watch. cbn. rewrite Hc. cbn. rewrite Hf. reflexivity. Qed.

(** When the lookup fails with no stage, [Watch] panics. *)
Lemma Watch_not_found_panics (id : Z) (ok : bool) (e : error) (w1 w2 : W) :
  on_cancelled h id w = ((ok, None), w1) ->
  on_find h id w1 = ((None, Some e), w2) ->
  result (exec h (Watch id) w) = None.
Proof. intros Hc Hf. unfold Watch. cbn. rewrite Hc. cbn. rewrite Hf. reflexivity. Qed.

(** C8, as the code has it. [After step] calls the updater and then deletes
    the live log stream of the step, whether or not the updater failed;
    it returns a multi-error holding the updater's error, or nil when the
    updater succeeded; a failure to delete the stream is logged as a
    warning and is not part of what is returned. *)
Theorem After_attempts_both (step : Step.t) :
  let r := exec h (After step) w in
  exists uerr derr,
    In (ECall (updater_do step) uerr) (trace r) /\
    In (ECall (Logz_Delete (Step.ID step)) derr) (trace r) /\
    result r = Some (match uerr with
                     | Some e => Some (multierror_Append None e)
                     | None => None
                     end) /\
    (forall e, derr = Some e ->
       In (ELog Warn "manager: cannot teardown log stream" (Some e)) (trace r)).
Proof.
  unfold After. cbn.
  destruct (on_call h (updater_do step) w) as [uerr w1]. exists uerr.
  destruct uerr as [e|]; cbn;
    destruct (on_call h (Logz_Delete (Step.ID step)) w1) as [derr w2]; exists derr;
    destruct derr; cbn; intuition (try congruence); auto 10.
Qed.

End Watch_After.

(** C4 on a server where nothing was cancelled and stage 3 is complete
    (passing): the store finds the stage, and [Watch 3] returns
    [(false, nil)] instead of [(true, nil)]. *)
Lemma Watch_completed_stage_not_reported :
  Sim.cancelled Sim.w_running 3 = (false, None) /\
  on_find Sim.server 3 Sim.w_running = ((Some Sim.stageC, None), Sim.w_running) /\
  Stage.IsDone Sim.stageC = true /\
  result (exec Sim.server (Watch 3) Sim.w_running) = Some (false, None).
Proof. vm_compute. auto. Qed.

(** C8 as stated fails: the updater succeeds, deleting the stream fails,
    and [After] returns nil. *)
Lemma After_teardown_failure_not_returned :
  let step := Step.mk 70 7 "test" StatusPassing 0 1000 1001 in
  let r := exec Sim.server (After step) (Sim.w_failing Sim.logz_down) in
  In (ECall (updater_do step) None) (trace r) /\
  In (ECall (Logz_Delete 70) (Some (ErrorNew "stream: not found"))) (trace r) /\
  result r = Some None.
Proof. vm_compute. auto 10. Qed.

(** *** Cancel *)

Import after_cancel.

Lemma step_mono (tr tr' : list event) (s s' : Step.t) :
  (forall e, In e tr -> In e tr') -> step tr s s' -> step tr' s s'.
Proof.
  intros Hsub. unfold step.
  destruct (Step.IsDone s); [auto|].
  destruct (Step.Started s =? 0); intuition auto.
Qed.

Lemma steps_mono (tr tr' : list event) (l l' : list Step.t) :
  (forall e, In e tr -> In e tr') ->
  Forall2 (step tr) l l' -> Forall2 (step tr') l l'.
Proof.
  intros Hsub H. induction H; constructor; eauto using step_mono.
Qed.

Lemma stage_mono (tr tr' : list event) (s s' : Stage.t) :
  (forall e, In e tr -> In e tr') -> stage tr s s' -> stage tr' s s'.
Proof.
  intros Hsub. unfold stage.
  destruct (Stage.IsDone s); [auto|].
  destruct (Stage.Started s =? 0); intuition eauto using steps_mono.
Qed.

Lemma stages_mono (tr tr' : list event) (l l' : list Stage.t) :
  (forall e, In e tr -> In e tr') ->
  Forall2 (stage tr) l l' -> Forall2 (stage tr') l l'.
Proof.
  intros Hsub H. induction H; constructor; eauto using stage_mono.
Qed.

Lemma steps_event_mono (l l' : list Step.t) (e : event) :
  (forall x, In x l -> In x l') -> steps_event l e -> steps_event l' e.
Proof.
  intros Hsub. destruct e as [[]| | | | | |]; cbn; try tauto.
  intros (x & Hx & Hlive & Hid). eauto.
Qed.

Lemma stages_event_mono (l l' : list Stage.t) (e : event) :
  (forall x, In x l -> In x l') -> stages_event l e -> stages_event l' e.
Proof.
  intros Hsub. destruct e as [[]| | | | | |]; cbn; try tauto.
  - intros (x & Hx & Hlive & Hid). eauto.
  - intros (x & y & Hx & Hlive & Hrest). eauto 10.
Qed.

Lemma steps_event_stage (s : Stage.t) (steps : list Step.t) (l : list Stage.t) (e : event) :
  In s l -> Stage.IsDone s = false -> steps = Stage.Steps s ->
  steps_event steps e -> stages_event l e.
Proof.
  intros Hs Hlive ->. destruct e as [[]| | | | | |]; cbn; try tauto.
  intros (x & Hx & Hxlive & Hid). eauto 10.
Qed.

Lemma event_in {P : event -> Prop} (tr : list event) (e : event) :
  Forall P tr -> In e tr -> P e.
Proof. intros Hall Hin. rewrite List.Forall_forall in Hall. auto. Qed.

(** Break up a hypothesis that an event is in a run made of known calls
    and of the calls of a loop. *)
Ltac split_in :=
  repeat match goal with
    | H : In _ (_ :: _) |- _ => destruct H as [H|H]; [try discriminate H|]
    | H : _ \/ _ |- _ => destruct H as [H|H]; [try discriminate H|]
    | H : False |- _ => destruct H
    | H : In _ (_ ++ _) |- _ => apply in_app_or in H; destruct H as [H|H]
    | H : In _ [] |- _ => destruct H
    | H : Forall (stages_event _) ?tr, H' : In _ ?tr |- _ =>
        apply (event_in _ _ H) in H'; cbn in H'; try contradiction
    end.

Section Cancel.
Context {W : Type} (h : handler W).

(** Run the rest of a loop: [IH] is what is known of it. *)
Ltac rest_of_loop IH :=
  exec_seq;
  match goal with
  | |- context [exec h (?loop ?rest) ?w] =>
      specialize (IH w);
      destruct (exec h (loop rest) w) as [[[?|?]|] ? ?]; cbn in *;
      rewrite ?app_nil_r
  end.

Lemma Cancel_steps_spec (steps : list Step.t) : forall (w : W) (steps' : list Step.t),
  result (exec h (Cancel_steps steps) w) = Some (inl steps') ->
  Forall2 (step (trace (exec h (Cancel_steps steps) w))) steps steps'.
Proof.
  induction steps as [|s rest IH]; intros w steps'; cbn [Cancel_steps].
  - cbn. intros [= <-]. constructor.
  - destruct (Step.IsDone s) eqn:Hdone;
      [|destruct (Step.Started s =? 0) eqn:Hstarted]; cbn; run_calls h;
      try discriminate; rest_of_loop IH; try discriminate;
      intros [= <-]; constructor.
    all: try (unfold step; rewrite Hdone, ?Hstarted; cbn; auto 10; fail).
    all: eapply steps_mono; [|apply IH; reflexivity]; cbn; auto.
Qed.

Lemma Cancel_steps_events (steps : list Step.t) : forall (w : W),
  Forall (steps_event steps) (trace (exec h (Cancel_steps steps) w)).
Proof.
  induction steps as [|s rest IH]; intros w; cbn [Cancel_steps].
  - constructor.
  - assert (forall tr, Forall (steps_event rest) tr -> Forall (steps_event (s :: rest)) tr)
      as Hrest.
    { intros tr. apply List.Forall_impl. intros e. apply steps_event_mono. cbn; auto. }
    destruct (Step.IsDone s) eqn:Hdone; [|destruct (Step.Started s =? 0)]; cbn;
      run_calls h;
      repeat (constructor; [first [exact I | exists s; cbn; auto]|]);
      try (constructor; fail); rest_of_loop IH; auto.
Qed.

(** Run the loop over the steps of a stage: [lem] is what is known of it. *)
Ltac steps_loop lem H :=
  exec_seq;
  match goal with
  | |- context [exec h (Cancel_steps ?l) ?w] =>
      pose proof (lem l w) as H; cbn in H;
      destruct (exec h (Cancel_steps l) w) as [[[?|?]|] ? ?]; cbn in *;
      rewrite ?app_nil_r
  end.

Lemma Cancel_stages_events (stages : list Stage.t) : forall (w : W),
  Forall (stages_event stages) (trace (exec h (Cancel_stages stages) w)).
Proof.
  induction stages as [|s rest IH]; intros w; cbn [Cancel_stages].
  - constructor.
  - assert (forall tr, Forall (stages_event rest) tr -> Forall (stages_event (s :: rest)) tr)
      as Hrest.
    { intros tr. apply List.Forall_impl. intros e. apply stages_event_mono. cbn; auto. }
    assert (forall tr, Forall (steps_event (Stage.Steps s)) tr -> Stage.IsDone s = false ->
                       Forall (stages_event (s :: rest)) tr) as Hsteps.
    { intros tr Htr Hlive. revert Htr. apply List.Forall_impl. intros e.
      apply (steps_event_stage s); cbn; auto. }
    destruct (Stage.IsDone s) eqn:Hdone; [|destruct (Stage.Started s =? 0)]; cbn;
      run_calls h;
      repeat (constructor; [first [exact I | exists s; cbn; auto]|]);
      try (constructor; fail).
    + rest_of_loop IH; auto.
    + steps_loop Cancel_steps_events Hs; auto.
      apply Forall_app; split; [auto|]. rest_of_loop IH; auto.
    + steps_loop Cancel_steps_events Hs; auto.
      apply Forall_app; split; [auto|]. rest_of_loop IH; auto.
Qed.

Lemma Cancel_stages_spec (stages : list Stage.t) : forall (w : W) (stages' : list Stage.t),
  result (exec h (Cancel_stages stages) w) = Some (inl stages') ->
  Forall2 (stage (trace (exec h (Cancel_stages stages) w))) stages stages'.
Proof.
  induction stages as [|s rest IH]; intros w stages'; cbn [Cancel_stages].
  - cbn. intros [= <-]. constructor.
  - destruct (Stage.IsDone s) eqn:Hdone;
      [|destruct (Stage.Started s =? 0) eqn:Hstarted]; cbn; run_calls h;
      try discriminate.
    + rest_of_loop IH; try discriminate. intros [= <-]. constructor; [|auto].
      unfold stage. rewrite Hdone. reflexivity.
    + steps_loop Cancel_steps_spec Hs; try discriminate.
      rest_of_loop IH; try discriminate. intros [= <-]. constructor.
      * unfold stage. rewrite Hdone, Hstarted. cbn. repeat split; auto 10.
        eapply steps_mono; [|apply Hs; reflexivity].
        intros e He. repeat right. apply in_app_l, He.
      * eapply stages_mono; [|apply IH; reflexivity].
        intros e He. repeat right. apply in_app_r, He.
    + steps_loop Cancel_steps_spec Hs; try discriminate.
      rest_of_loop IH; try discriminate. intros [= <-]. constructor.
      * unfold stage. rewrite Hdone, Hstarted. cbn. repeat split; auto 10.
        eapply steps_mono; [|apply Hs; reflexivity].
        intros e He. repeat right. apply in_app_l, He.
      * eapply stages_mono; [|apply IH; reflexivity].
        intros e He. repeat right. apply in_app_r, He.
Qed.

Lemma Cancel_not_completed (build : Build) :
  Build.Status build = StatusPending \/ Build.Status build = StatusRunning ->
  bool_decide (Build.Status build ≠ StatusPending) &&
  bool_decide (Build.Status build ≠ StatusRunning) = false.
Proof. intros [-> | ->]; reflexivity. Qed.

(** C7. For a build that is neither pending nor running, [Cancel] returns
    the error "cannot cancel completed build", leaves the build as it was
    and calls no collaborator: the run has no call at all (no store write,
    no scheduler cancellation, no status send, no webhook) and the state of
    the collaborators is the one it started from. *)
Theorem Cancel_completed_build (w : W) (build : Build) (repo : Repository)
    (user : option User) :
  Build.Status build <> StatusPending ->
  Build.Status build <> StatusRunning ->
  exec h (Cancel build repo user) w =
    Run (Some (build, Some (ErrorNew "cannot cancel completed build"))) w [].
Proof.
  intros Hp Hr. unfold Cancel.
  rewrite !bool_decide_eq_true_2 by assumption. reflexivity.
Qed.

(** C3. When [Cancel] of a pending or running build returns nil, the build
    holds, for the stages the store listed for it, stage by stage: a stage
    that was done, unchanged; any other stage killed (if it had started) or
    skipped with [Started] read from the clock, [Stopped] read from the
    clock, written to the store; and within such a stage, a step that was
    done, unchanged, any other step killed or skipped by the same rule,
    with [Stopped] read from the clock and [ExitCode] 130, written to the
    store. No stage that was done, and no step that was done or of a stage
    that was done, was written. *)
Theorem Cancel_terminates_stages (w : W) (build : Build) (repo : Repository)
    (user : option User) (build' : Build) :
  Build.Status build = StatusPending \/ Build.Status build = StatusRunning ->
  let r := exec h (Cancel build repo user) w in
  result r = Some (build', None) ->
  exists stages,
    In (EListSteps (Build.ID build) (stages, None)) (trace r) /\
    Forall2 (stage (trace r)) stages (Build.Stages build') /\
    writes_live stages (trace r).
Proof.
  intros Hst. unfold Cancel. rewrite (Cancel_not_completed build Hst). cbn.
  destruct (Build.Started build =? 0); destruct user as [u|]; cbn; run_calls h;
    try discriminate.
  all: exec_seq.
  all: match goal with
       | |- context [exec h (Cancel_stages ?l) ?w] =>
           pose proof (Cancel_stages_spec l w) as Hs;
           pose proof (Cancel_stages_events l w) as Hev;
           destruct (exec h (Cancel_stages l) w) as [[[stages'|e]|] w' tr'];
           cbn in *; try discriminate; run_calls h
       end.
  all: intros [= <-]; cbn; eexists; (split; [auto 10|]); split.
  all: try (eapply stages_mono; [|apply Hs; reflexivity];
            intros ev Hin; repeat right; apply in_app_l; exact Hin).
  all: split; intros x e0 Hin; split_in; exact Hin.
Qed.


End Cancel.

(** The same for a build that has passed. *)
Lemma Cancel_completed_build_witness :
  exec Sim.server (Cancel Sim.build9_passing Sim.repo (Some Sim.user)) Sim.w_running =
    Run (Some (Sim.build9_passing, Some (ErrorNew "cannot cancel completed build")))
        Sim.w_running [].
Proof.
  apply (Cancel_completed_build Sim.server Sim.w_running Sim.build9_passing
           Sim.repo (Some Sim.user)); vm_compute; discriminate.
Defined.

(** The same on the scenario "cancel mid-flight". *)
Lemma Cancel_terminates_stages_witness :
  let r := exec Sim.server (Cancel Sim.build10 Sim.repo (Some Sim.user)) Sim.w_running in
  exists stages,
    In (EListSteps 10 (stages, None)) (trace r) /\
    Forall2 (stage (trace r)) stages [Sim.stageA_killed; Sim.stageB_skipped; Sim.stageC] /\
    writes_live stages (trace r).
Proof.
  apply (Cancel_terminates_stages Sim.server Sim.w_running Sim.build10 Sim.repo
           (Some Sim.user) Sim.build10_killed).
  - right. reflexivity.
  - vm_compute. reflexivity.
Defined.


(** The two failures of C9 on the simulated server: with the status
    service down [Cancel] returns the wrapped error and goes no further;
    with the webhook sink down it returns nil, the stages being written. *)
Example Cancel_status_down :
  let r := exec Sim.server (Cancel Sim.build10 Sim.repo (Some Sim.user))
             (Sim.w_failing Sim.status_down) in
  (exists b, result r =
     Some (b, Some (Errorf "cannot set status: %v" (ErrorNew "scm: 502 bad gateway")))) /\
  Sim.stages (world r) = [Sim.stageA; Sim.stageB; Sim.stageC].
Proof. vm_compute. eauto. Qed.

Example Cancel_webhook_down :
  let r := exec Sim.server (Cancel Sim.build10 Sim.repo (Some Sim.user))
             (Sim.w_failing Sim.webhook_down) in
  result r = Some (Sim.build10_killed, None) /\
  In (ELog Warn "manager: cannot send global webhook"
        (Some (ErrorNew "webhook: connection refused"))) (trace r) /\
  Sim.stages (world r) = [Sim.stageA_killed; Sim.stageB_skipped; Sim.stageC].
Proof.
  vm_compute. repeat split.
  repeat first [left; reflexivity | right].
Qed.

End manager_facts.

(** ** Package queue: facts *)

Module queue_facts.
Import queue queue_spec.

Lemma checkLabels_range_sound (entries : list (string * string)) (b : gmap string string) :
  checkLabels_range entries b = true ->
  forall k v, In (k, v) entries -> b !! k = Some v.
Proof.
  induction entries as [|[k' v'] rest IH]; cbn; [tauto|].
  destruct (b !! k') as [w|] eqn:Hk; [|discriminate].
  destruct (String.eqb_spec v' w) as [->|]; cbn; [|discriminate].
  intros Hrest k v [[= <- <-]|Hin]; auto.
Qed.

(** [checkLabels] accepts two maps only when they are the same map. *)
Lemma checkLabels_eq (a b : gmap string string) :
  checkLabels a b = true -> a = b.
Proof.
  unfold checkLabels.
  destruct (Nat.eqb_spec (size a) (size b)) as [Hsize|]; cbn; [|discriminate].
  intros Hrange. apply map_subseteq_size_eq; [|lia].
  apply map_subseteq_spec. intros k v Hkv.
  apply (checkLabels_range_sound _ _ Hrange).
  apply list_elem_of_In, elem_of_map_to_list, Hkv.
Qed.

Lemma checkLabels_refl (a : gmap string string) : checkLabels a a = true.
Proof.
  unfold checkLabels. rewrite Nat.eqb_refl. cbn.
  assert (forall l, (forall k v, In (k, v) l -> a !! k = Some v) ->
                    checkLabels_range l a = true) as H.
  { induction l as [|[k v] l IH]; cbn; [reflexivity|]. intros Hl.
    rewrite (Hl k v) by auto. rewrite String.eqb_refl. cbn. auto. }
  apply H. intros k v Hin. apply elem_of_map_to_list, list_elem_of_In, Hin.
Qed.

Lemma signal_workers_matches (item : Stage.t) (ws : list worker) :
  forall w ws', signal_workers item ws = Some (w, ws') -> platform_matches w item.
Proof.
  induction ws as [|w0 rest IH]; intros w ws'; cbn [signal_workers]; [discriminate|].
  assert (match signal_workers item rest with
          | Some (w', rest') => Some (w', w0 :: rest')
          | None => None
          end = Some (w, ws') -> platform_matches w item) as Hcont.
  { destruct (signal_workers item rest) as [[w' rest']|]; [|discriminate].
    intros [= <- <-]. eauto. }
  destruct (negb (os w0 =? Stage.OS item)%string) eqn:Hos; [exact Hcont|].
  destruct (negb (arch w0 =? Stage.Arch item)%string) eqn:Harch; [exact Hcont|].
  destruct (negb (Stage.Variant item =? "")%string &&
            negb (Stage.Variant item =? variant w0)%string) eqn:Hvar; [exact Hcont|].
  destruct (negb (Stage.Kernel item =? "")%string &&
            negb (Stage.Kernel item =? kernel w0)%string) eqn:Hker; [exact Hcont|].
  apply negb_false_iff, String.eqb_eq in Hos, Harch.
  apply andb_false_iff in Hvar, Hker.
  rewrite !negb_false_iff, !String.eqb_eq in Hvar, Hker.
  destruct (Nat.ltb 0 (size (Stage.Labels item)) || Nat.ltb 0 (size (labels w0))) eqn:Hlab.
  - destruct (negb (checkLabels (Stage.Labels item) (labels w0))) eqn:Hc; [exact Hcont|].
    apply negb_false_iff, checkLabels_eq in Hc.
    intros [= <- <-]. unfold platform_matches. auto 10.
  - apply orb_false_iff in Hlab. rewrite !Nat.ltb_ge in Hlab. destruct Hlab as [Ha Hb].
    intros [= <- <-]. unfold platform_matches. repeat split; auto.
    intros [Hne|Hne]; exfalso; apply Hne; apply map_size_empty_iff; lia.
Qed.

Section Signal.
Variable range_workers : list worker -> list worker.

Lemma signal_items_matches (items rest : list Stage.t) :
  forall (ws : list worker) (w : worker) (item : Stage.t),
    In (w, item) (fst (signal_items range_workers items rest ws)) ->
    platform_matches w item.
Proof.
  induction rest as [|it rest IH]; intros ws w item; cbn [signal_items]; [intros []|].
  repeat match goal with
         | |- context [if ?c then _ else _] => destruct c; [solve [eauto]|]
         end.
  destruct (signal_workers it (range_workers ws)) as [[w1 ws1]|] eqn:Hoffer; [|eauto].
  specialize (IH ws1 w item).
  destruct (signal_items range_workers items rest ws1) as [sent waiting]. cbn in *.
  intros [[= <- <-]|Hin]; [|auto].
  eapply signal_workers_matches, Hoffer.
Qed.

(** A delivery is of a stage of the list that passed the four filters of
    the pass: a stage that fails [withinBranchLimits] or [withinLimits], is
    running or has a machine is not delivered. *)
Lemma signal_items_eligible (items rest : list Stage.t) :
  forall (ws : list worker) (w : worker) (item : Stage.t),
    In (w, item) (fst (signal_items range_workers items rest ws)) ->
    In item rest /\
    withinBranchLimits item items = true /\
    Stage.Status item <> StatusRunning /\
    Stage.Machine item = "" /\
    withinLimits item items = true.
Proof.
  induction rest as [|it rest IH]; intros ws w item; cbn [signal_items]; [intros []|].
  assert (forall ws', In (w, item) (fst (signal_items range_workers items rest ws')) ->
                      In item (it :: rest) /\
                      withinBranchLimits item items = true /\
                      Stage.Status item <> StatusRunning /\
                      Stage.Machine item = "" /\
                      withinLimits item items = true) as Hrest.
  { intros ws' Hin. destruct (IH ws' w item Hin) as (? & ? & ? & ? & ?).
    repeat split; auto. right; assumption. }
  destruct (withinBranchLimits it items) eqn:Hbranch; cbn; [|apply Hrest].
  destruct (bool_decide (Stage.Status it = StatusRunning)) eqn:Hrun; [apply Hrest|].
  destruct (String.eqb_spec (Stage.Machine it) "") as [Hm|]; cbn; [|apply Hrest].
  destruct (withinLimits it items) eqn:Hlimit; cbn; [|apply Hrest].
  destruct (signal_workers it (range_workers ws)) as [[w1 ws1]|]; [|apply Hrest].
  specialize (Hrest ws1).
  destruct (signal_items range_workers items rest ws1) as [sent waiting]. cbn in *.
  intros [[= <- <-]|Hin]; [|auto].
  apply bool_decide_eq_false in Hrun. repeat split; auto.
Qed.

(** C2. Whatever the order in which the waiting workers are visited,
    every (worker, stage) that a pass of [signal] delivers is a match of
    platforms: same os and arch, the stage's variant and kernel empty or
    the worker's, and, when either side has labels, equal label maps. *)
Theorem signal_delivers_matching {W : Type} (h : handler W) (w0 : W) (q q' : t)
    (sent : list (worker * Stage.t)) (err : option error)
    (w : worker) (item : Stage.t) :
  result (exec h (signal range_workers q) w0) = Some (q', sent, err) ->
  In (w, item) sent ->
  platform_matches w item.
Proof.
  unfold signal.
  destruct (paused q); cbn; [intros [= <- <- <-] []|].
  destruct (Nat.eqb (length (workers q)) 0); cbn; [intros [= <- <- <-] []|].
  destruct (on_list_incomplete h w0) as [[items [e|]] w1]; cbn; [intros [= <- <- <-] []|].
  pose proof (signal_items_matches items items (workers q) w item) as Hm.
  destruct (signal_items range_workers items items (workers q)) as [sent' waiting]. cbn in *.
  intros [= <- <- <-]. exact Hm.
Qed.

End Signal.

(** The same on the scenario "happy path": the pass delivers stage 7 to
    the one waiting worker. *)
Lemma signal_delivers_matching_witness : platform_matches Sim.worker1 Sim.stage7.
Proof.
  apply (signal_delivers_matching (fun ws => ws) Sim.server Sim.w_pending
           Sim.q_waiting Sim.q_served [(Sim.worker1, Sim.stage7)] None
           Sim.worker1 Sim.stage7).
  - vm_compute. reflexivity.
  - left. reflexivity.
Defined.

(** Scenario "platform mismatch": nothing is delivered to an arm64 worker,
    which stays in the queue. *)
Example signal_platform_mismatch :
  let q := {| paused := false; workers := [Sim.worker_arm] |} in
  result (exec Sim.server (signal (fun ws => ws) q) Sim.w_pending) = Some (q, [], None).
Proof. vm_compute. reflexivity. Qed.

Lemma withinLimits_count_spec (stage : Stage.t) (siblings : list Stage.t) : forall count,
  withinLimits_count stage siblings count =
    count + Z.of_nat (length (List.filter (older_sibling stage) siblings)).
Proof.
  induction siblings as [|s rest IH]; intros count; cbn [withinLimits_count List.filter].
  - cbn. lia.
  - unfold older_sibling at 1.
    destruct (Stage.RepoID s =? Stage.RepoID stage); cbn [negb andb]; [|apply IH].
    destruct (Stage.ID s =? Stage.ID stage); cbn [negb andb]; [apply IH|].
    destruct (Stage.Name s =? Stage.Name stage)%string; cbn [negb andb]; [|apply IH].
    destruct (Stage.ID s <? Stage.ID stage); [|apply IH].
    rewrite IH. cbn [length]. lia.
Qed.

(** C5. A stage with limit [L > 0] passes [withinLimits] exactly when fewer
    than [L] entries of the list are other stages of the same repository
    and name with a smaller id; a stage with limit 0 always passes. *)
Theorem withinLimits_oldest (stage : Stage.t) (siblings : list Stage.t) :
  (0 < Stage.Limit stage ->
     (withinLimits stage siblings = true <->
      Z.of_nat (length (List.filter (older_sibling stage) siblings)) < Stage.Limit stage))
  /\
  (Stage.Limit stage = 0 -> withinLimits stage siblings = true).
Proof.
  unfold withinLimits. split.
  - intros Hpos. destruct (Z.eqb_spec (Stage.Limit stage) 0) as [Hz|_]; [lia|].
    rewrite withinLimits_count_spec, Z.ltb_lt. lia.
  - intros ->. reflexivity.
Qed.

(** The same for the third of three stages with limit 2. *)
Lemma withinLimits_oldest_witness :
  let stage := Sim.limited 3 22 in
  (0 < Stage.Limit stage ->
     (withinLimits stage Sim.three_limited = true <->
      Z.of_nat (length (List.filter (older_sibling stage) Sim.three_limited))
        < Stage.Limit stage))
  /\
  (Stage.Limit stage = 0 -> withinLimits stage Sim.three_limited = true).
Proof. apply (withinLimits_oldest (Sim.limited 3 22) Sim.three_limited). Defined.

(** Scenario "concurrency limit": of three stages with limit 2 the two
    oldest pass and the third does not. *)
Example withinLimits_three_limited :
  map (fun s => withinLimits s Sim.three_limited) Sim.three_limited = [true; true; false].
Proof. reflexivity. Qed.

(** C10. A stage whose build is running passes [withinBranchLimits],
    whatever the list holds. *)
Theorem withinBranchLimits_running_build (stage : Stage.t) (siblings : list Stage.t) :
  Build.Status (Stage.Build stage) = StatusRunning ->
  withinBranchLimits stage siblings = true.
Proof.
  intros Hrun. unfold withinBranchLimits.
  rewrite bool_decide_eq_true_2 by assumption. reflexivity.
Qed.

(** The same for the stage of build 11, running, next to the stage of the
    older build 10. *)
Lemma withinBranchLimits_running_build_witness :
  withinBranchLimits Sim.master11_running [Sim.master10; Sim.master11_running] = true.
Proof.
  apply (withinBranchLimits_running_build Sim.master11_running
           [Sim.master10; Sim.master11_running]).
  reflexivity.
Defined.

Lemma withinBranchLimits_range_blocked (older newer : Stage.t) (pre post : list Stage.t) :
  Stage.RepoID older = Stage.RepoID newer ->
  Build.Source (Stage.Build older) = "master" ->
  Build.Source (Stage.Build newer) = "master" ->
  Stage.BuildID older < Stage.BuildID newer ->
  no_newer_master newer pre ->
  withinBranchLimits_range newer (pre ++ older :: post) = false.
Proof.
  intros Hrepo Hso Hsn Hlt. induction pre as [|s pre IH]; intros Hpre; cbn.
  - rewrite Hrepo, Z.eqb_refl, Hso, Hsn. cbn.
    destruct (Z.eqb_spec (Stage.BuildID older) (Stage.BuildID newer)); [lia|]. cbn.
    destruct (Z.ltb_spec (Stage.BuildID newer) (Stage.BuildID older)); [lia|reflexivity].
  - assert (no_newer_master newer pre) as Hpre' by (intros x Hx; apply Hpre; right; exact Hx).
    destruct (Z.eqb_spec (Stage.BuildID s) (Stage.BuildID newer)) as [|Hb]; cbn; [auto|].
    destruct (Z.eqb_spec (Stage.RepoID s) (Stage.RepoID newer)) as [Hr|]; cbn; [|auto].
    rewrite Hsn. cbn. rewrite andb_true_r.
    destruct (String.eqb_spec (Build.Source (Stage.Build s)) "master") as [Hs|]; [|auto].
    specialize (Hpre s (or_introl eq_refl) Hr Hs).
    destruct (Z.ltb_spec (Stage.BuildID newer) (Stage.BuildID s)); [lia|reflexivity].
Qed.

Lemma withinBranchLimits_range_free (stage : Stage.t) (l : list Stage.t) :
  no_other_master stage l -> withinBranchLimits_range stage l = true.
Proof.
  induction l as [|s l IH]; intros Hl; cbn; [reflexivity|].
  assert (no_other_master stage l) as Hl' by (intros x Hx; apply Hl; right; exact Hx).
  destruct (Z.eqb_spec (Stage.BuildID s) (Stage.BuildID stage)) as [|Hb]; cbn; [auto|].
  destruct (Z.eqb_spec (Stage.RepoID s) (Stage.RepoID stage)) as [Hr|]; cbn; [|auto].
  destruct (String.eqb_spec (Build.Source (Stage.Build s)) "master") as [Hs|]; cbn; [|auto].
  exfalso. apply Hb. apply Hl; [left; reflexivity|assumption|assumption].
Qed.

(** C6 as stated fails: master builds 10 and 11 of one repository each
    have an incomplete stage, build 11 is running, and the stage of
    build 11 passes the check. *)
Lemma withinBranchLimits_newer_running_passes :
  let older := Sim.master10 in
  let newer := Sim.master11_running in
  Stage.IsDone older = false /\ Stage.IsDone newer = false /\
  Stage.RepoID older = Stage.RepoID newer /\
  Build.Source (Stage.Build older) = "master" /\
  Build.Source (Stage.Build newer) = "master" /\
  Stage.BuildID older < Stage.BuildID newer /\
  withinBranchLimits newer [older; newer] = true.
Proof. cbn. repeat split; reflexivity. Qed.

(** The check decides at the first stage of another master build it
    meets, so its answer depends on the order of the list: with the stage
    of build 12 listed first, the stage of build 11 passes although
    build 10 is older and incomplete. *)
Example withinBranchLimits_first_sibling_decides :
  withinBranchLimits Sim.master11 [Sim.master12; Sim.master10; Sim.master11] = true.
Proof. reflexivity. Qed.

(** C6, as the code has it. Of two stages of different master builds of
    one repository, the one of the newer build fails [withinBranchLimits]
    when its build is not running and no stage of a still newer master
    build of the repository stands before the older stage in the list; and
    it passes once the list holds no stage of another master build of the
    repository. *)
Theorem withinBranchLimits_master_precedence (older newer : Stage.t)
    (pre post : list Stage.t) :
  Stage.RepoID older = Stage.RepoID newer ->
  Build.Source (Stage.Build older) = "master" ->
  Build.Source (Stage.Build newer) = "master" ->
  Stage.BuildID older < Stage.BuildID newer ->
  Build.Status (Stage.Build newer) <> StatusRunning ->
  no_newer_master newer pre ->
  withinBranchLimits newer (pre ++ older :: post) = false /\
  (no_other_master newer (pre ++ post) -> withinBranchLimits newer (pre ++ post) = true).
Proof.
  intros Hrepo Hso Hsn Hlt Hrun Hpre. unfold withinBranchLimits.
  rewrite bool_decide_eq_false_2 by assumption. split.
  - apply withinBranchLimits_range_blocked; assumption.
  - apply withinBranchLimits_range_free.
Qed.

(** The same on the scenario "branch priority". *)
Lemma withinBranchLimits_master_precedence_witness :
  withinBranchLimits Sim.master11 ([] ++ Sim.master10 :: [Sim.master11]) = false /\
  (no_other_master Sim.master11 ([] ++ [Sim.master11]) ->
   withinBranchLimits Sim.master11 ([] ++ [Sim.master11]) = true).
Proof.
  apply (withinBranchLimits_master_precedence Sim.master10 Sim.master11 [] [Sim.master11]).
  - reflexivity.
  - reflexivity.
  - reflexivity.
  - reflexivity.
  - discriminate.
  - intros s [].
Defined.

Example withinBranchLimits_branch_priority :
  withinBranchLimits Sim.master10 [Sim.master10; Sim.master11] = true /\
  withinBranchLimits Sim.master11 [Sim.master10; Sim.master11] = false /\
  withinBranchLimits Sim.master11 [Sim.master11] = true.
Proof. repeat split; reflexivity. Qed.

End queue_facts.

(** ** Package queue: more facts *)

Module queue_more.
Import queue queue_spec queue_order queue_facts.

(** [checkLabels] decides the equality of the two label maps: it
    returns true exactly when they hold the same keys with the same values. *)
Theorem checkLabels_iff (a b : gmap string string) :
  checkLabels a b = true <-> a = b.
Proof.
  split; [apply checkLabels_eq|]. intros ->. apply checkLabels_refl.
Qed.

(** The platform test of the worker loop accepts a worker that matches. *)
Lemma signal_workers_head (item : Stage.t) (w : worker) (rest : list worker) :
  platform_matches w item -> signal_workers item (w :: rest) = Some (w, rest).
Proof.
  intros (Hos & Harch & Hvar & Hker & Hlab). cbn [signal_workers].
  rewrite Hos, Harch, !String.eqb_refl. cbn [negb].
  replace (negb (Stage.Variant item =? "")%string &&
           negb (Stage.Variant item =? variant w)%string) with false
    by (destruct Hvar as [->| ->]; rewrite ?String.eqb_refl, ?andb_false_r; reflexivity).
  replace (negb (Stage.Kernel item =? "")%string &&
           negb (Stage.Kernel item =? kernel w)%string) with false
    by (destruct Hker as [->| ->]; rewrite ?String.eqb_refl, ?andb_false_r; reflexivity).
  destruct (Nat.ltb 0 (size (Stage.Labels item)) || Nat.ltb 0 (size (labels w))) eqn:Hsz;
    [|reflexivity].
  rewrite Hlab, checkLabels_refl; [reflexivity|].
  apply orb_true_iff in Hsz. rewrite !Nat.ltb_lt in Hsz.
  destruct Hsz as [Hsz|Hsz]; [left|right]; intros Hempty; rewrite Hempty in Hsz;
    rewrite map_size_empty in Hsz; lia.
Qed.

Lemma signal_workers_none (item : Stage.t) (ws : list worker) :
  signal_workers item ws = None -> forall w, In w ws -> ~ platform_matches w item.
Proof.
  induction ws as [|w0 rest IH]; [intros _ w []|].
  intros Hnone w [<-|Hin] Hm.
  - rewrite (signal_workers_head item w0 rest Hm) in Hnone. discriminate.
  - revert Hnone. cbn [signal_workers].
    destruct (signal_workers item rest) as [[w' rest']|] eqn:Hrest.
    + repeat match goal with
             | |- context [if ?c then _ else _] => destruct c; try discriminate
             end.
    + intros _. exact (IH eq_refl w Hin Hm).
Qed.

(** The worker loop takes the worker it serves out of the set and leaves
    the others. *)
Lemma signal_workers_perm (item : Stage.t) (ws : list worker) :
  forall w ws', signal_workers item ws = Some (w, ws') -> Permutation ws (w :: ws').
Proof.
  induction ws as [|w0 rest IH]; intros w ws'; cbn [signal_workers]; [discriminate|].
  assert (match signal_workers item rest with
          | Some (w', rest') => Some (w', w0 :: rest')
          | None => None
          end = Some (w, ws') -> Permutation (w0 :: rest) (w :: ws')) as Hcont.
  { destruct (signal_workers item rest) as [[w' rest']|]; [|discriminate].
    intros [= <- <-]. rewrite (IH w' rest' eq_refl). apply perm_swap. }
  repeat match goal with
         | |- context [if ?c then _ else _] => destruct c; try exact Hcont
         end.
  all: intros [= <- <-]; reflexivity.
Qed.

Section SignalMore.
Variable range_workers : list worker -> list worker.

Lemma signal_items_sublist (items rest : list Stage.t) : forall (ws : list worker),
  sublist (map snd (fst (signal_items range_workers items rest ws))) rest.
Proof.
  induction rest as [|it rest IH]; intros ws; cbn [signal_items]; [constructor|].
  repeat match goal with
         | |- context [if ?c then _ else _] =>
             destruct c; [solve [apply sublist_cons, IH]|]
         end.
  destruct (signal_workers it (range_workers ws)) as [[w1 ws1]|];
    [|apply sublist_cons, IH].
  specialize (IH ws1).
  destruct (signal_items range_workers items rest ws1) as [sent waiting]. cbn in *.
  apply sublist_skip, IH.
Qed.

Section Conserved.
Hypothesis range_perm : forall ws, Permutation (range_workers ws) ws.

Lemma signal_items_perm (items rest : list Stage.t) : forall (ws : list worker),
  Permutation (map fst (fst (signal_items range_workers items rest ws)) ++
               snd (signal_items range_workers items rest ws)) ws.
Proof.
  induction rest as [|it rest IH]; intros ws; cbn [signal_items]; [reflexivity|].
  repeat match goal with
         | |- context [if ?c then _ else _] => destruct c; [solve [apply IH]|]
         end.
  destruct (signal_workers it (range_workers ws)) as [[w1 ws1]|] eqn:Hoffer; [|apply IH].
  specialize (IH ws1).
  destruct (signal_items range_workers items rest ws1) as [sent waiting]. cbn in *.
  rewrite IH. rewrite <- (range_perm ws). symmetry.
  apply (signal_workers_perm it), Hoffer.
Qed.

Lemma signal_items_maximal (items rest : list Stage.t) :
  forall (ws : list worker) (item : Stage.t),
  In item rest ->
  withinBranchLimits item items = true ->
  Stage.Status item <> StatusRunning ->
  Stage.Machine item = "" ->
  withinLimits item items = true ->
  (exists w, In (w, item) (fst (signal_items range_workers items rest ws))) \/
  (forall w, In w (snd (signal_items range_workers items rest ws)) ->
             ~ platform_matches w item).
Proof.
  induction rest as [|it rest IH]; intros ws item; [intros []|].
  intros [<-|Hin] Hbranch Hrun Hmachine Hlimit; cbn [signal_items].
  - rewrite Hbranch, Hlimit, Hmachine, (bool_decide_eq_false_2 _ Hrun). cbn.
    destruct (signal_workers it (range_workers ws)) as [[w1 ws1]|] eqn:Hoffer.
    + destruct (signal_items range_workers items rest ws1) as [sent waiting].
      left. exists w1. left. reflexivity.
    + right. intros w Hw.
      apply (signal_workers_none _ _ Hoffer).
      apply (Permutation_in _ (Permutation_sym (range_perm ws))).
      apply (Permutation_in _ (signal_items_perm items rest ws)).
      apply in_or_app. right. exact Hw.
  - assert (forall ws', (exists w, In (w, item) (fst (signal_items range_workers items rest ws'))) \/
              (forall w, In w (snd (signal_items range_workers items rest ws')) ->
                         ~ platform_matches w item)) as Hrest by (intros; apply IH; assumption).
    repeat match goal with
           | |- context [if ?c then _ else _] => destruct c; [solve [apply Hrest]|]
           end.
    destruct (signal_workers it (range_workers ws)) as [[w1 ws1]|]; [|apply Hrest].
    specialize (Hrest ws1).
    destruct (signal_items range_workers items rest ws1) as [sent waiting]. cbn in *.
    destruct Hrest as [[w Hw]|Hnone]; [left; exists w; right; exact Hw|right; exact Hnone].
Qed.
End Conserved.

Section Pass.
Context {W : Type} (h : handler W) (w0 : W) (q q' : t)
        (sent : list (worker * Stage.t)) (err : option error).

(** X1. A pass of [signal] over a paused queue, over a queue without
    waiting workers, or one whose read of the store fails, delivers nothing
    and leaves the queue as it was; in the first two cases it does not
    read the store at all. *)
Theorem signal_quiet :
  result (exec h (signal range_workers q) w0) = Some (q', sent, err) ->
  paused q = true \/ workers q = [] \/ err <> None ->
  sent = [] /\ q' = q /\
  (paused q = true \/ workers q = [] ->
   exec h (signal range_workers q) w0 = Run (Some (q, [], None)) w0 []).
Proof.
  unfold signal.
  destruct (paused q) eqn:Hp; cbn.
  { intros [= <- <- <-] _. auto. }
  destruct (workers q) as [|wk ws] eqn:Hw; cbn.
  { intros [= <- <- <-] _. auto. }
  destruct (on_list_incomplete h w0) as [[items [e|]] w1]; cbn.
  { intros [= <- <- <-] _. repeat split; auto. intros [?|?]; discriminate. }
  destruct (signal_items range_workers items items (wk :: ws)) as [sent' waiting]. cbn.
  intros [= <- <- <-] [?|[?|?]]; try discriminate. congruence.
Qed.

(** X2. Whatever a pass of [signal] delivers is a stage of the list it
    read from the store, read once and without error, that passes the
    branch check and the limit check against that list, is not running and
    has no machine; and the queue was not paused. *)
Theorem signal_delivers_listed_eligible (w : worker) (item : Stage.t) :
  result (exec h (signal range_workers q) w0) = Some (q', sent, err) ->
  In (w, item) sent ->
  paused q = false /\
  exists items,
    trace (exec h (signal range_workers q) w0) = [EListIncomplete (items, None)] /\
    In item items /\
    withinBranchLimits item items = true /\
    Stage.Status item <> StatusRunning /\
    Stage.Machine item = "" /\
    withinLimits item items = true.
Proof.
  unfold signal.
  destruct (paused q); cbn; [intros [= <- <- <-] []|].
  destruct (Nat.eqb (length (workers q)) 0); cbn; [intros [= <- <- <-] []|].
  destruct (on_list_incomplete h w0) as [[items [e|]] w1]; cbn; [intros [= <- <- <-] []|].
  pose proof (signal_items_eligible range_workers items items (workers q) w item) as He.
  destruct (signal_items range_workers items items (workers q)) as [sent' waiting]. cbn in *.
  intros [= <- <- <-] Hin. split; [reflexivity|]. exists items. split; [reflexivity|].
  apply He, Hin.
Qed.

(** X3. The stages a pass delivers are delivered in the order of the list
    read from the store, each at most once. *)
Theorem signal_delivers_in_order (items : list Stage.t) (w1 : W) :
  on_list_incomplete h w0 = ((items, None), w1) ->
  result (exec h (signal range_workers q) w0) = Some (q', sent, err) ->
  sublist (map snd sent) items.
Proof.
  intros Hlist. unfold signal.
  destruct (paused q); cbn; [intros [= <- <- <-]; apply sublist_nil_l|].
  destruct (Nat.eqb (length (workers q)) 0); cbn; [intros [= <- <- <-]; apply sublist_nil_l|].
  rewrite Hlist. cbn.
  pose proof (signal_items_sublist items items (workers q)) as Hs.
  destruct (signal_items range_workers items items (workers q)) as [sent' waiting]. cbn in *.
  intros [= <- <- <-]. exact Hs.
Qed.

Hypothesis range_perm : forall ws, Permutation (range_workers ws) ws.

(** X4. A pass neither loses nor invents workers: the workers it served
    together with those still waiting are the workers that waited before,
    whatever the order in which the map is ranged over; and it does not
    touch the pause flag. *)
Theorem signal_conserves_workers :
  result (exec h (signal range_workers q) w0) = Some (q', sent, err) ->
  Permutation (map fst sent ++ workers q') (workers q) /\ paused q' = paused q.
Proof.
  unfold signal.
  destruct (paused q) eqn:Hp; cbn; [intros [= <- <- <-]; cbn; auto|].
  destruct (Nat.eqb (length (workers q)) 0); cbn; [intros [= <- <- <-]; cbn; auto|].
  destruct (on_list_incomplete h w0) as [[items [e|]] w1]; cbn;
    [intros [= <- <- <-]; cbn; auto|].
  pose proof (signal_items_perm range_perm items items (workers q)) as Hperm.
  destruct (signal_items range_workers items items (workers q)) as [sent' waiting]. cbn in *.
  intros [= <- <- <-]. cbn. auto.
Qed.

(** X5. A pass serves every stage it can: a listed stage that passes all
    four filters is delivered, unless no worker still waiting after the
    pass matches its platform. *)
Theorem signal_maximal (items : list Stage.t) (w1 : W) (item : Stage.t) :
  paused q = false ->
  on_list_incomplete h w0 = ((items, None), w1) ->
  result (exec h (signal range_workers q) w0) = Some (q', sent, err) ->
  In item items ->
  withinBranchLimits item items = true ->
  Stage.Status item <> StatusRunning ->
  Stage.Machine item = "" ->
  withinLimits item items = true ->
  (exists w, In (w, item) sent) \/
  (forall w, In w (workers q') -> ~ platform_matches w item).
Proof.
  intros Hp Hlist. unfold signal. rewrite Hp. cbn.
  destruct (workers q) as [|wk ws] eqn:Hw; cbn.
  { intros [= <- <- <-] _ _ _ _ _. right. rewrite Hw. intros w []. }
  rewrite Hlist. cbn.
  pose proof (signal_items_maximal range_perm items items (wk :: ws) item) as Hmax.
  destruct (signal_items range_workers items items (wk :: ws)) as [sent' waiting]. cbn in *.
  intros [= <- <- <-]. exact Hmax.
Qed.
End Pass.
End SignalMore.

(** Scenario "paused": the worker of "happy path" waits on a paused queue;
    the pending stage 7 stays where it is and the store is not read. *)
Lemma signal_quiet_witness :
  let q := {| paused := true; workers := [Sim.worker1] |} in
  ([] : list (worker * Stage.t)) = [] /\ q = q /\
  (paused q = true \/ workers q = [] ->
   exec Sim.server (signal (fun ws => ws) q) Sim.w_pending =
     Run (Some (q, [], None)) Sim.w_pending []).
Proof.
  apply (signal_quiet (fun ws => ws) Sim.server Sim.w_pending
           {| paused := true; workers := [Sim.worker1] |}
           {| paused := true; workers := [Sim.worker1] |} [] None).
  - vm_compute. reflexivity.
  - left. reflexivity.
Defined.

(** Scenario "happy path": stage 7, delivered to the one worker, was
    listed and eligible. *)
Lemma signal_delivers_listed_eligible_witness :
  paused Sim.q_waiting = false /\
  exists items,
    trace (exec Sim.server (signal (fun ws => ws) Sim.q_waiting) Sim.w_pending) =
      [EListIncomplete (items, None)] /\
    In Sim.stage7 items /\
    withinBranchLimits Sim.stage7 items = true /\
    Stage.Status Sim.stage7 <> StatusRunning /\
    Stage.Machine Sim.stage7 = "" /\
    withinLimits Sim.stage7 items = true.
Proof.
  apply (signal_delivers_listed_eligible (fun ws => ws) Sim.server Sim.w_pending
           Sim.q_waiting Sim.q_served [(Sim.worker1, Sim.stage7)] None Sim.worker1).
  - vm_compute. reflexivity.
  - left. reflexivity.
Defined.

(** Scenario "concurrency limit" with three waiting workers: stages 1 and
    2 are delivered, in that order, and stage 3 is held back. *)
Lemma signal_delivers_in_order_witness :
  sublist [Sim.limited 1 20; Sim.limited 2 21] Sim.three_limited.
Proof.
  apply (signal_delivers_in_order (fun ws => ws) Sim.server
           {| Sim.clock := 1000; Sim.stages := Sim.three_limited;
              Sim.cancelled := Sim.never_cancelled; Sim.failing := Sim.never_failing |}
           {| paused := false; workers := [Sim.worker1; Sim.worker1; Sim.worker1] |}
           {| paused := false; workers := [Sim.worker1] |}
           [(Sim.worker1, Sim.limited 1 20); (Sim.worker1, Sim.limited 2 21)] None
           Sim.three_limited
           {| Sim.clock := 1000; Sim.stages := Sim.three_limited;
              Sim.cancelled := Sim.never_cancelled; Sim.failing := Sim.never_failing |}).
  - vm_compute. reflexivity.
  - vm_compute. reflexivity.
Defined.

(** Scenario "platform mismatch" beside "happy path": an arm64 worker and
    an amd64 worker wait; the amd64 worker is served and the arm64 worker
    still waits. *)
Lemma signal_conserves_workers_witness :
  Permutation ([Sim.worker1] ++ [Sim.worker_arm]) [Sim.worker_arm; Sim.worker1] /\
  false = false.
Proof.
  apply (signal_conserves_workers (fun ws => ws) Sim.server Sim.w_pending
           {| paused := false; workers := [Sim.worker_arm; Sim.worker1] |}
           {| paused := false; workers := [Sim.worker_arm] |}
           [(Sim.worker1, Sim.stage7)] None (fun ws => Permutation_refl ws)).
  vm_compute. reflexivity.
Defined.

(** Scenario "platform mismatch": stage 7 is eligible and not delivered,
    and the worker still waiting is of another platform. *)
Lemma signal_maximal_witness :
  (exists w : worker, In (w, Sim.stage7) []) \/
  (forall w, In w [Sim.worker_arm] -> ~ platform_matches w Sim.stage7).
Proof.
  apply (signal_maximal (fun ws => ws) Sim.server Sim.w_pending
           {| paused := false; workers := [Sim.worker_arm] |}
           {| paused := false; workers := [Sim.worker_arm] |}
           [] None (fun ws => Permutation_refl ws) [Sim.stage7] Sim.w_pending Sim.stage7).
  all: vm_compute; solve [reflexivity | auto | discriminate].
Defined.

(** The newest of a non-empty group of stages with distinct ids. *)
Lemma newest_first (l : list Stage.t) :
  l <> [] -> List.NoDup (map Stage.ID l) ->
  exists m rest, Permutation l (m :: rest) /\
                 forall x, In x rest -> Stage.ID x < Stage.ID m.
Proof.
  induction l as [|a l IH]; [congruence|]. intros _ Hnd.
  cbn [map] in Hnd. apply List.NoDup_cons_iff in Hnd as [Ha Hnd].
  destruct (decide (l = [])) as [->|Hl].
  { exists a, []. split; [reflexivity|]. intros x []. }
  destruct (IH Hl Hnd) as (m & rest & Hperm & Hlt).
  assert (Stage.ID a <> Stage.ID m) as Hne.
  { intros Heq. apply Ha. rewrite Heq. apply in_map.
    apply (Permutation_in _ (Permutation_sym Hperm)). left. reflexivity. }
  destruct (Z.lt_ge_cases (Stage.ID a) (Stage.ID m)) as [Ham|Ham].
  - exists m, (a :: rest). split.
    + rewrite Hperm. apply perm_swap.
    + intros x [<-|Hx]; auto.
  - exists a, (m :: rest). split.
    + rewrite Hperm. reflexivity.
    + intros x [<-|Hx]; [lia|]. specialize (Hlt x Hx). lia.
Qed.

(** X6. The limit is a ceiling: of the listed stages of one repository and
    one name that declare the limit [L], at most [L] pass [withinLimits]
    against the list. *)
Theorem withinLimits_ceiling (items group : list Stage.t) (L : Z) :
  0 < L ->
  List.NoDup (map Stage.ID group) ->
  (forall s, In s group ->
     In s items /\ Stage.Limit s = L /\ withinLimits s items = true) ->
  (forall s s', In s group -> In s' group ->
     Stage.RepoID s = Stage.RepoID s' /\ Stage.Name s = Stage.Name s') ->
  Z.of_nat (length group) <= L.
Proof.
  intros HL Hnd Hgroup Hsame.
  destruct group as [|g0 group0] eqn:Hg; [cbn; lia|]. rewrite <- Hg in *.
  destruct (newest_first group ltac:(subst; discriminate) Hnd) as (m & rest & Hperm & Hlt).
  assert (In m group) as Hm
    by (apply (Permutation_in _ (Permutation_sym Hperm)); left; reflexivity).
  assert (forall x, In x rest -> In x group) as Hrest
    by (intros x Hx; apply (Permutation_in _ (Permutation_sym Hperm)); right; exact Hx).
  destruct (Hgroup m Hm) as (_ & Hlim & Hpass).
  unfold withinLimits in Hpass. rewrite Hlim in Hpass.
  destruct (Z.eqb_spec L 0) as [|_]; [lia|].
  rewrite withinLimits_count_spec in Hpass. apply Z.ltb_lt in Hpass.
  assert (length rest <= length (List.filter (older_sibling m) items))%nat as Hlen.
  { apply NoDup_incl_length.
    - apply NoDup_map_inv in Hnd. apply (Permutation_NoDup Hperm) in Hnd.
      apply List.NoDup_cons_iff in Hnd as [_ Hnd]. exact Hnd.
    - intros x Hx. apply filter_In. split; [apply Hgroup, Hrest, Hx|].
      destruct (Hsame x m (Hrest x Hx) Hm) as [Hrepo Hname].
      specialize (Hlt x Hx). unfold older_sibling.
      rewrite Hrepo, Hname, Z.eqb_refl, String.eqb_refl.
      destruct (Z.eqb_spec (Stage.ID x) (Stage.ID m)); [lia|].
      destruct (Z.ltb_spec (Stage.ID x) (Stage.ID m)); [reflexivity|lia]. }
  rewrite (Permutation_length Hperm). cbn [length]. lia.
Qed.

(** Scenario "concurrency limit": of the three stages with limit 2, the
    two that pass are stages 1 and 2. *)
Lemma withinLimits_ceiling_witness :
  Z.of_nat (length [Sim.limited 1 20; Sim.limited 2 21]) <= 2.
Proof.
  apply (withinLimits_ceiling Sim.three_limited [Sim.limited 1 20; Sim.limited 2 21] 2).
  - lia.
  - repeat constructor; vm_compute; intuition discriminate.
  - intros s [<-|[<-|[]]]; vm_compute; auto.
  - intros s s' [<-|[<-|[]]] [<-|[<-|[]]]; vm_compute; auto.
Defined.

Lemma older_siblings_perm (stage : Stage.t) (l l' : list Stage.t) :
  Permutation l l' ->
  length (List.filter (older_sibling stage) l) = length (List.filter (older_sibling stage) l').
Proof.
  induction 1 as [|x l l' _ IH|x y l|l l' l'' _ IH1 _ IH2]; cbn.
  - reflexivity.
  - destruct (older_sibling stage x); cbn; congruence.
  - destruct (older_sibling stage x), (older_sibling stage y); reflexivity.
  - congruence.
Qed.

(** X7. [withinLimits] does not depend on the order in which the store
    lists the stages. *)
Theorem withinLimits_any_order (stage : Stage.t) (l l' : list Stage.t) :
  Permutation l l' -> withinLimits stage l = withinLimits stage l'.
Proof.
  intros Hperm. unfold withinLimits.
  rewrite !withinLimits_count_spec, (older_siblings_perm stage l l' Hperm). reflexivity.
Qed.

(** Scenario "concurrency limit", the list read backwards. *)
Lemma withinLimits_any_order_witness :
  withinLimits (Sim.limited 3 22) Sim.three_limited =
    withinLimits (Sim.limited 3 22) (rev Sim.three_limited).
Proof.
  apply (withinLimits_any_order (Sim.limited 3 22)). apply Permutation_rev.
Defined.

(** The branch check holds back stages of master builds only: a stage
    whose build is of another branch always passes. *)
Theorem withinBranchLimits_other_branch (stage : Stage.t) (l : list Stage.t) :
  Build.Source (Stage.Build stage) <> "master" ->
  withinBranchLimits stage l = true.
Proof.
  intros Hsrc. unfold withinBranchLimits.
  destruct (bool_decide _); [reflexivity|].
  induction l as [|s l IH]; cbn; [reflexivity|].
  destruct (String.eqb_spec (Build.Source (Stage.Build stage)) "master"); [contradiction|].
  rewrite andb_false_r. destruct (_ || _); exact IH.
Qed.

(** A stage of a feature branch among the master builds of "branch
    priority". *)
Lemma withinBranchLimits_other_branch_witness :
  withinBranchLimits (Sim.limited 9 30) [Sim.master10; Sim.master11; Sim.master12] = true.
Proof.
  apply (withinBranchLimits_other_branch (Sim.limited 9 30)). vm_compute. discriminate.
Defined.

(** X8. When the store lists the stages in ascending order of build id, a
    stage of a master build that is not running passes the branch check
    exactly when no listed stage of the same repository belongs to an older
    master build. *)
Theorem withinBranchLimits_in_build_order (stage : Stage.t) (l : list Stage.t) :
  in_build_order l ->
  Build.Status (Stage.Build stage) <> StatusRunning ->
  Build.Source (Stage.Build stage) = "master" ->
  (withinBranchLimits stage l = true <->
   forall s, In s l ->
     Stage.RepoID s = Stage.RepoID stage ->
     Build.Source (Stage.Build s) = "master" ->
     Stage.BuildID stage <= Stage.BuildID s).
Proof.
  intros Hsorted Hrun Hsrc. unfold withinBranchLimits.
  rewrite (bool_decide_eq_false_2 _ Hrun).
  induction l as [|s l IH]; cbn.
  - split; [intros _ s []|reflexivity].
  - destruct Hsorted as [Hall Hsorted]. specialize (IH Hsorted).
    rewrite Hsrc. cbn. rewrite andb_true_r.
    destruct (Z.eqb_spec (Stage.BuildID s) (Stage.BuildID stage)) as [Hb|Hb]; cbn.
    { rewrite IH. split.
      - intros H x [<-|Hx]; [lia|auto].
      - intros H x Hx. apply H. right. exact Hx. }
    destruct (Z.eqb_spec (Stage.RepoID s) (Stage.RepoID stage)) as [Hr|Hr]; cbn.
    2: { rewrite IH. split.
      - intros H x [<-|Hx]; [contradiction|auto].
      - intros H x Hx. apply H. right. exact Hx. }
    destruct (String.eqb_spec (Build.Source (Stage.Build s)) "master") as [Hs|Hs].
    2: { rewrite IH. split.
      - intros H x [<-|Hx]; [contradiction|auto].
      - intros H x Hx. apply H. right. exact Hx. }
    destruct (Z.ltb_spec (Stage.BuildID stage) (Stage.BuildID s)) as [Hlt|Hge].
    + split; [|reflexivity]. intros _ x [<-|Hx] _ _; [lia|].
      specialize (Hall x Hx). cbn in Hall. lia.
    + split; [discriminate|]. intros H.
      specialize (H s (or_introl eq_refl) Hr Hs). lia.
Qed.

(** Scenario "branch priority", builds 10, 11 and 12 listed in order: the
    stage of build 11. *)
Lemma withinBranchLimits_in_build_order_witness :
  withinBranchLimits Sim.master11 [Sim.master10; Sim.master11; Sim.master12] = true <->
  forall s, In s [Sim.master10; Sim.master11; Sim.master12] ->
    Stage.RepoID s = Stage.RepoID Sim.master11 ->
    Build.Source (Stage.Build s) = "master" ->
    Stage.BuildID Sim.master11 <= Stage.BuildID s.
Proof.
  apply (withinBranchLimits_in_build_order Sim.master11
           [Sim.master10; Sim.master11; Sim.master12]).
  - cbn. repeat split; intros x Hx; repeat destruct Hx as [<-|Hx]; try destruct Hx;
      vm_compute; discriminate.
  - vm_compute. discriminate.
  - reflexivity.
Defined.

End queue_more.

(** ** Package manager: more facts on Accept and Cancel *)

Module manager_more.
Import manager manager_facts after_cancel cancel_trace.

Ltac in_trace H :=
  repeat right;
  first [ exact H
        | apply in_app_l; exact H
        | apply in_app_r; exact H
        | left; reflexivity ].

(** The failed call of the run in the goal, with the error made of it. *)
Ltac failed_call :=
  match goal with
  | |- context [ECall ?c (Some ?x)] => exists (ECall c (Some x))
  | |- context [EListSteps ?i (?l, Some ?x)] => exists (EListSteps i (l, Some x))
  end;
  split; [cbn; repeat first [left; reflexivity | right] | reflexivity].

Lemma stages_event_no_webhook (l : list Stage.t) (tr : list event) :
  Forall (stages_event l) tr -> List.filter is_webhook tr = [].
Proof.
  induction 1 as [|ev tr Hev _ IH]; [reflexivity|]. cbn.
  destruct ev as [[]| | | | | |]; cbn in *; tauto.
Qed.

Lemma stages_event_no_status (l : list Stage.t) (tr : list event) :
  Forall (stages_event l) tr -> List.filter is_status tr = [].
Proof.
  induction 1 as [|ev tr Hev _ IH]; [reflexivity|]. cbn.
  destruct ev as [[]| | | | | |]; cbn in *; tauto.
Qed.

Section More.
Context {W : Type} (h : handler W).

(** When the lookup of the stage fails, [Accept] returns the error of
    the store as it is and does nothing else: it reads no clock and writes
    nothing; the run is the lookup between two log lines. *)
Theorem Accept_lookup_error (w : W) (id : Z) (machine : string)
    (found : option Stage.t) (e : error) :
  let r := exec h (Accept id machine) w in
  In (EFind id (found, Some e)) (trace r) ->
  result r = Some (Some e) /\
  trace r = [ELog Debug "manager: accept stage" None;
             EFind id (found, Some e);
             ELog Warn "manager: cannot find stage" (Some e)].
Proof.
  unfold Accept. cbn.
  destruct (on_find h id w) as [[found' err] w1]. cbn.
  destruct err as [e'|]; cbn.
  { intros [?|[[= -> ->]|[?|[]]]]; try discriminate. split; reflexivity. }
  destruct found' as [stage0|]; cbn.
  2: { intros [?|[?|[]]]; discriminate. }
  destruct (negb _); cbn.
  { intros [?|[?|[?|[]]]]; discriminate. }
  run_calls h; intros Hin; split_in.
  all: destruct e0; cbn in Hin; split_in.
Qed.

(** X9. [Accept] returns nil only after the write went through: the
    stage it found had no machine, and the store accepted the update of
    that stage with the machine of the caller, status pending and the time
    read from the clock. *)
Theorem Accept_nil_means_written (w : W) (id : Z) (machine : string) :
  let r := exec h (Accept id machine) w in
  result r = Some None ->
  exists stage t,
    In (EFind id (Some stage, None)) (trace r) /\
    Stage.Machine stage = "" /\
    In (ENow t) (trace r) /\
    In (ECall (Stages_Update
                 (Stage.with_Updated t
                    (Stage.with_Status StatusPending
                       (Stage.with_Machine machine stage)))) None) (trace r).
Proof.
  unfold Accept. cbn.
  destruct (on_find h id w) as [[found' err] w1]. cbn.
  destruct err as [e'|]; cbn; [discriminate|].
  destruct found' as [stage0|]; cbn; [|discriminate].
  destruct (String.eqb_spec (Stage.Machine stage0) "") as [Hm|Hm]; cbn; [|discriminate].
  destruct (on_now h w1) as [t w2]. cbn.
  destruct (on_call h _ w2) as [[e|] w3]; cbn.
  { destruct e; cbn; discriminate. }
  intros _. exists stage0, t. auto 10.
Qed.

Lemma Cancel_steps_failure (steps : list Step.t) : forall (w : W) (e : error),
  result (exec h (Cancel_steps steps) w) = Some (inr e) ->
  exists ev, In ev (trace (exec h (Cancel_steps steps) w)) /\ wraps ev e.
Proof.
  induction steps as [|s rest IH]; intros w e; cbn [Cancel_steps].
  - cbn. discriminate.
  - destruct (Step.IsDone s); [|destruct (Step.Started s =? 0)]; cbn; run_calls h;
      try (intros [= <-]; failed_call);
      exec_seq;
      match goal with
      | |- context [exec h (Cancel_steps rest) ?w] =>
          specialize (IH w); destruct (exec h (Cancel_steps rest) w) as [[[?|?]|] ? ?];
          cbn in *; try discriminate
      end;
      intros [= <-]; destruct (IH _ eq_refl) as (ev & Hin & Hw);
      exists ev; (split; [|exact Hw]); rewrite ?app_nil_r; in_trace Hin.
Qed.

Lemma Cancel_stages_failure (stages : list Stage.t) : forall (w : W) (e : error),
  result (exec h (Cancel_stages stages) w) = Some (inr e) ->
  exists ev, In ev (trace (exec h (Cancel_stages stages) w)) /\ wraps ev e.
Proof.
  induction stages as [|s rest IH]; intros w e; cbn [Cancel_stages].
  - cbn. discriminate.
  - destruct (Stage.IsDone s); [|destruct (Stage.Started s =? 0)]; cbn; run_calls h;
      try (intros [= <-]; failed_call);
      exec_seq.
    + specialize (IH w).
      destruct (exec h (Cancel_stages rest) w) as [[[?|?]|] ? ?]; cbn in *; try discriminate.
      intros [= <-]. destruct (IH _ eq_refl) as (ev & Hin & Hw).
      exists ev. split; [|exact Hw]. rewrite ?app_nil_r. in_trace Hin.
    + match goal with
      | |- context [exec h (Cancel_steps ?l) ?w] =>
          pose proof (Cancel_steps_failure l w) as Hs;
          destruct (exec h (Cancel_steps l) w) as [[[?|?]|] ? ?]; cbn in *; try discriminate
      end.
      * exec_seq.
        match goal with
        | |- context [exec h (Cancel_stages rest) ?w] =>
            specialize (IH w); destruct (exec h (Cancel_stages rest) w) as [[[?|?]|] ? ?];
            cbn in *; try discriminate
        end.
        intros [= <-]. destruct (IH _ eq_refl) as (ev & Hin & Hw).
        exists ev. split; [|exact Hw]. rewrite ?app_nil_r.
        repeat right. apply in_app_r. in_trace Hin.
      * intros [= <-]. destruct (Hs _ eq_refl) as (ev & Hin & Hw).
        exists ev. split; [|exact Hw]. rewrite ?app_nil_r. in_trace Hin.
    + match goal with
      | |- context [exec h (Cancel_steps ?l) ?w] =>
          pose proof (Cancel_steps_failure l w) as Hs;
          destruct (exec h (Cancel_steps l) w) as [[[?|?]|] ? ?]; cbn in *; try discriminate
      end.
      * exec_seq.
        match goal with
        | |- context [exec h (Cancel_stages rest) ?w] =>
            specialize (IH w); destruct (exec h (Cancel_stages rest) w) as [[[?|?]|] ? ?];
            cbn in *; try discriminate
        end.
        intros [= <-]. destruct (IH _ eq_refl) as (ev & Hin & Hw).
        exists ev. split; [|exact Hw]. rewrite ?app_nil_r.
        repeat right. apply in_app_r. in_trace Hin.
      * intros [= <-]. destruct (Hs _ eq_refl) as (ev & Hin & Hw).
        exists ev. split; [|exact Hw]. rewrite ?app_nil_r. in_trace Hin.
Qed.

(** X10. Every error [Cancel] returns for a pending or running build
    comes from a call that failed during the run (the update of the build,
    of a stage or of a step, the signal to the scheduler, the status, the
    listing of the stages) and wraps the error of that call in the message
    of its kind; no webhook is sent on such a run, and the stage list of
    the caller's build is left as it was. *)
Theorem Cancel_error_wraps_failure (w : W) (build : Build) (repo : Repository)
    (user : option User) (build' : Build) (e : error) :
  Build.Status build = StatusPending \/ Build.Status build = StatusRunning ->
  let r := exec h (Cancel build repo user) w in
  result r = Some (build', Some e) ->
  (exists ev, In ev (trace r) /\ wraps ev e) /\
  List.filter is_webhook (trace r) = [] /\
  Build.Stages build' = Build.Stages build.
Proof.
  intros Hst. unfold Cancel. rewrite (Cancel_not_completed build Hst). cbn.
  destruct (Build.Started build =? 0); destruct user as [u|]; cbn; run_calls h.
  all: try (exec_seq;
       match goal with
       | |- context [exec h (Cancel_stages ?l) ?w] =>
           pose proof (Cancel_stages_failure l w) as Hf;
           pose proof (stages_event_no_webhook l _ (Cancel_stages_events h l w)) as Hev;
           destruct (exec h (Cancel_stages l) w) as [[[stages'|e']|] w' tr'];
           cbn in *; run_calls h
       end).
  all: try discriminate.
  all: intros [= <- <-]; cbn; split; [|split; [|reflexivity]].
  all: try (rewrite ?app_nil_r; first [reflexivity | exact Hev]).
  all: try failed_call.
  all: destruct (Hf _ eq_refl) as (ev & Hin & Hw); exists ev; (split; [|exact Hw]);
    rewrite ?app_nil_r; in_trace Hin.
Qed.

(** X11. Without a user [Cancel] never calls the status service,
    whatever the build and whatever the collaborators answer. *)
Theorem Cancel_without_user_sends_no_status (w : W) (build : Build) (repo : Repository) :
  List.filter is_status (trace (exec h (Cancel build repo None) w)) = [].
Proof.
  unfold Cancel.
  destruct (bool_decide _ && bool_decide _); cbn; [reflexivity|].
  destruct (Build.Started build =? 0); cbn; run_calls h.
  all: try (exec_seq;
       match goal with
       | |- context [exec h (Cancel_stages ?l) ?w] =>
           pose proof (stages_event_no_status l _ (Cancel_stages_events h l w)) as Hev;
           destruct (exec h (Cancel_stages l) w) as [[[stages'|e']|] w' tr'];
           cbn in *; run_calls h
       end).
  all: rewrite ?List.filter_app, ?Hev; reflexivity.
Qed.

(** X12. A successful [Cancel] sends exactly one webhook, and its
    payload is the build event "updated" for the repository of the caller
    carrying the build as [Cancel] returns it, stages included. *)
Theorem Cancel_success_one_webhook (w : W) (build : Build) (repo : Repository)
    (user : option User) (build' : Build) :
  let r := exec h (Cancel build repo user) w in
  result r = Some (build', None) ->
  exists r0,
    List.filter is_webhook (trace r) =
      [ECall (Webhook_Send {| Webhook_Event := "build";
                              Webhook_Action := "updated";
                              Webhook_Repo := repo;
                              Webhook_Build := build' |}) r0].
Proof.
  unfold Cancel.
  destruct (bool_decide _ && bool_decide _); cbn; [discriminate|].
  destruct (Build.Started build =? 0); destruct user as [u|]; cbn; run_calls h;
    try discriminate.
  all: exec_seq;
       match goal with
       | |- context [exec h (Cancel_stages ?l) ?w] =>
           pose proof (stages_event_no_webhook l _ (Cancel_stages_events h l w)) as Hev;
           destruct (exec h (Cancel_stages l) w) as [[[stages'|e']|] w' tr'];
           cbn in *; run_calls h
       end; try discriminate.
  all: intros [= <-]; eexists; rewrite List.filter_app, Hev; cbn; reflexivity.
Qed.

(** X13. Whatever happens after its first write, [Cancel] of a pending
    or running build leaves the caller's build killed, finished at a time
    read from the clock, started at such a time if it had not started and
    at its old start otherwise; and that is the build it asked the store
    to save. *)
Theorem Cancel_leaves_build_killed (w : W) (build : Build) (repo : Repository)
    (user : option User) (build' : Build) (err : option error) :
  Build.Status build = StatusPending \/ Build.Status build = StatusRunning ->
  let r := exec h (Cancel build repo user) w in
  result r = Some (build', err) ->
  Build.Status build' = StatusKilled /\
  Build.ID build' = Build.ID build /\
  In (ENow (Build.Finished build')) (trace r) /\
  (if Build.Started build =? 0 then In (ENow (Build.Started build')) (trace r)
   else Build.Started build' = Build.Started build) /\
  exists r0,
    In (ECall (Builds_Update (Build.with_Stages (Build.Stages build) build')) r0) (trace r).
Proof.
  intros Hst. unfold Cancel. rewrite (Cancel_not_completed build Hst). cbn.
  destruct (Build.Started build =? 0) eqn:Hstarted; destruct user as [u|]; cbn; run_calls h.
  all: try (exec_seq;
       match goal with
       | |- context [exec h (Cancel_stages ?l) ?w] =>
           destruct (exec h (Cancel_stages l) w) as [[[stages'|e']|] w' tr'];
           cbn in *; run_calls h
       end).
  all: try discriminate.
  all: intros [= <- <-]; cbn; repeat split; auto 10; eexists; auto 10.
Qed.
End More.

(** Scenario "happy path", a stage that is not in the store. *)
Lemma Accept_lookup_error_witness :
  let r := exec Sim.server (Accept 99 "m1") Sim.w_pending in
  result r = Some (Some (ErrorNew "sql: no rows in result set")) /\
  trace r = [ELog Debug "manager: accept stage" None;
             EFind 99 (None, Some (ErrorNew "sql: no rows in result set"));
             ELog Warn "manager: cannot find stage"
               (Some (ErrorNew "sql: no rows in result set"))].
Proof.
  apply (Accept_lookup_error Sim.server Sim.w_pending 99 "m1" None
           (ErrorNew "sql: no rows in result set")).
  vm_compute. auto.
Defined.

(** Scenario "happy path": stage 7 is accepted. *)
Lemma Accept_nil_means_written_witness :
  let r := exec Sim.server (Accept 7 "m1") Sim.w_pending in
  exists stage t,
    In (EFind 7 (Some stage, None)) (trace r) /\
    Stage.Machine stage = "" /\
    In (ENow t) (trace r) /\
    In (ECall (Stages_Update
                 (Stage.with_Updated t
                    (Stage.with_Status StatusPending
                       (Stage.with_Machine "m1" stage)))) None) (trace r).
Proof.
  apply (Accept_nil_means_written Sim.server Sim.w_pending 7 "m1").
  vm_compute. reflexivity.
Defined.

(** Scenario "cancel mid-flight" with the status service down: the error
    returned wraps the error of the status call. *)
Lemma Cancel_error_wraps_failure_witness :
  let r := exec Sim.server (Cancel Sim.build10 Sim.repo (Some Sim.user))
             (Sim.w_failing Sim.status_down) in
  (exists ev, In ev (trace r) /\
     wraps ev (Errorf "cannot set status: %v" (ErrorNew "scm: 502 bad gateway"))) /\
  List.filter is_webhook (trace r) = [] /\
  Build.Stages (Build.with_Finished 1000 (Build.with_Status StatusKilled Sim.build10)) =
    Build.Stages Sim.build10.
Proof.
  apply (Cancel_error_wraps_failure Sim.server (Sim.w_failing Sim.status_down)
           Sim.build10 Sim.repo (Some Sim.user)
           (Build.with_Finished 1000 (Build.with_Status StatusKilled Sim.build10))
           (Errorf "cannot set status: %v" (ErrorNew "scm: 502 bad gateway"))).
  - right. reflexivity.
  - vm_compute. reflexivity.
Defined.

(** Scenario "cancel mid-flight": the one webhook carries the build with
    its three stages as cancellation left them. *)
Lemma Cancel_success_one_webhook_witness :
  let r := exec Sim.server (Cancel Sim.build10 Sim.repo (Some Sim.user)) Sim.w_running in
  exists r0,
    List.filter is_webhook (trace r) =
      [ECall (Webhook_Send {| Webhook_Event := "build";
                              Webhook_Action := "updated";
                              Webhook_Repo := Sim.repo;
                              Webhook_Build := Sim.build10_killed |}) r0].
Proof.
  apply (Cancel_success_one_webhook Sim.server Sim.w_running Sim.build10 Sim.repo
           (Some Sim.user) Sim.build10_killed).
  vm_compute. reflexivity.
Defined.

(** Scenario "cancel mid-flight" with the status service down: the build
    is left killed although [Cancel] failed. *)
Lemma Cancel_leaves_build_killed_witness :
  let r := exec Sim.server (Cancel Sim.build10 Sim.repo (Some Sim.user))
             (Sim.w_failing Sim.status_down) in
  let build' := Build.with_Finished 1000 (Build.with_Status StatusKilled Sim.build10) in
  Build.Status build' = StatusKilled /\
  Build.ID build' = Build.ID Sim.build10 /\
  In (ENow (Build.Finished build')) (trace r) /\
  (if Build.Started Sim.build10 =? 0 then In (ENow (Build.Started build')) (trace r)
   else Build.Started build' = Build.Started Sim.build10) /\
  exists r0,
    In (ECall (Builds_Update (Build.with_Stages (Build.Stages Sim.build10) build')) r0)
       (trace r).
Proof.
  apply (Cancel_leaves_build_killed Sim.server (Sim.w_failing Sim.status_down)
           Sim.build10 Sim.repo (Some Sim.user)
           (Build.with_Finished 1000 (Build.with_Status StatusKilled Sim.build10))
           (Some (Errorf "cannot set status: %v" (ErrorNew "scm: 502 bad gateway")))).
  - right. reflexivity.
  - vm_compute. reflexivity.
Defined.

End manager_more.

(** ** Programs over any interface: tactics *)

(** Name what each call in the goal returned, and take the cases of the
    pointers and errors the program tests. *)
Ltac tree_calls h :=
  repeat first
    [ match goal with
      | |- context [h ?o ?w] =>
          let r := fresh "r" in
          destruct (h o w) as [r ?]; cbn in r;
          repeat match type of r with
                 | (_ * _)%type => destruct r as [? r]
                 end; cbn
      end
    | match goal with
      | |- context [match ?x with Some _ => _ | None => _ end] => is_var x; destruct x; cbn
      end ].

(** The same, keeping for each call what [Hall] says of its answer. *)
Ltac tree_calls_with h Hall :=
  repeat first
    [ match goal with
      | |- context [h ?o ?w] =>
          let r := fresh "r" in
          let H := fresh "H" in
          pose proof (Hall o w) as H;
          destruct (h o w) as [r ?]; cbn in r;
          repeat match type of r with
                 | (_ * _)%type => destruct r as [? r]
                 end; cbn in H |- *
      end
    | match goal with
      | |- context [match ?x with Some _ => _ | None => _ end] => is_var x; destruct x; cbn
      end ].

(** An entry of a concrete trace. *)
Ltac in_entries := cbn; repeat first [left; reflexivity | right].

(** ** Package manager: Request, Details, Before, Netrc *)

Module manager_io_facts.
Import manager_io.

(** The loop of [Details] over the secrets is a filter. *)
Lemma Details_secrets_filter (build : Build.t Stage.t) (tmp : list Secret.t) :
  Details_secrets build tmp =
    List.filter (fun s => Secret.PullRequest s ||
                          negb (String.eqb (Build.Event build) "pull_request")) tmp.
Proof.
  induction tmp as [|s tmp IH]; cbn; [reflexivity|].
  rewrite IH. unfold EventPullRequest.
  destruct (Secret.PullRequest s), (String.eqb (Build.Event build) "pull_request"); reflexivity.
Qed.

Lemma filter_all {A} (l : list A) : List.filter (fun _ => true) l = l.
Proof. induction l as [|a l IH]; cbn; congruence. Qed.

Section Facts.
Context {W : Type} (h : tree.handler res W) (w : W).

(** X14. The context [Details] returns hangs together: its stage is the
    one found under the id asked for, its build the one found under the
    build id of that stage, its repository the one found under the
    repository id of that build, its configuration the one found for that
    repository, that build and the owner found under the user id of the
    repository; each of these lookups succeeded; and its system is the one
    of the manager. *)
Theorem Details_context_consistent (system : option System.t) (id : Z) (ctx : Context) :
  let r := tree.exec h (Details system id) w in
  tree.result r = Some (Some ctx, None) ->
  In (tree.Called (Stages_Find id) (Some (Stage ctx), None)) (tree.trace r) /\
  In (tree.Called (Builds_Find (Stage.BuildID (Stage ctx))) (Some (Build ctx), None))
     (tree.trace r) /\
  In (tree.Called (Repos_Find (Build.RepoID (Build ctx))) (Some (Repo ctx), None))
     (tree.trace r) /\
  (exists user,
     In (tree.Called (Users_Find (Repo.UserID (Repo ctx))) (user, None)) (tree.trace r) /\
     In (tree.Called (Config_Find user (Repo ctx) (Build ctx)) (Some (Config ctx), None))
        (tree.trace r)) /\
  System ctx = system.
Proof.
  unfold Details. cbn. tree_calls h; try discriminate.
  intros [= <-]. cbn. repeat split; try in_entries.
  eexists. split; in_entries.
Qed.

(** X15. The secrets of the context are those the secret store lists
    for the repository of the context: all of them, in the order of the
    store, unless the build is a pull request, and then only those marked
    for pull requests. *)
Theorem Details_pull_request_secrets (system : option System.t) (id : Z) (ctx : Context) :
  let r := tree.exec h (Details system id) w in
  tree.result r = Some (Some ctx, None) ->
  exists tmpSecrets,
    In (tree.Called (Secrets_List (Repo.ID (Repo ctx))) (tmpSecrets, None)) (tree.trace r) /\
    (Build.Event (Build ctx) = EventPullRequest ->
     Secrets ctx = List.filter Secret.PullRequest tmpSecrets) /\
    (Build.Event (Build ctx) <> EventPullRequest -> Secrets ctx = tmpSecrets).
Proof.
  unfold Details. cbn. tree_calls h; try discriminate.
  intros [= <-]. cbn. eexists. split; [in_entries|].
  rewrite Details_secrets_filter. split.
  - intros ->. cbn. apply filter_ext. intros x. apply orb_false_r.
  - intros Hne. apply String.eqb_neq in Hne. unfold EventPullRequest in Hne. rewrite Hne.
    rewrite <- (filter_all l) at 2. apply filter_ext. intros x. apply orb_true_r.
Qed.

(** X16. [Details] stops at the first lookup that fails: when it returns
    an error it returns no context, the error is the one of the last call
    it made, and the last thing it did after that call was to log that
    error as a warning. *)
Theorem Details_fails_fast (system : option System.t) (id : Z)
    (octx : option Context) (e : error) :
  let r := tree.exec h (Details system id) w in
  tree.result r = Some (octx, Some e) ->
  octx = None /\
  exists o res msg before,
    rev (tree.trace r) = tree.Said (Warn, msg, Some e) :: tree.Called o res :: before /\
    error_of o res = Some e.
Proof.
  unfold Details. cbn. tree_calls h; try discriminate.
  all: intros [= <- <-]; split; [reflexivity|]; cbn.
  all: match goal with
       | |- context [tree.Called ?o0 ?r0 :: _] =>
           exists o0, r0; do 2 eexists; split; reflexivity
       end.
Qed.

(** X17. [Details] returns (it does not panic on a nil pointer) when the
    stores answer every lookup with an error or with what was asked for;
    and then it returns a context or an error, never both and never
    neither. *)
Theorem Details_returns (system : option System.t) (id : Z) :
  (forall o w', found o (fst (h o w'))) ->
  exists ctx err,
    tree.result (tree.exec h (Details system id) w) = Some (ctx, err) /\
    (ctx = None <-> err <> None).
Proof.
  intros Hfound. unfold Details. cbn.
  tree_calls_with h Hfound.
  all: try (do 2 eexists; split; [reflexivity|]; split; [discriminate|];
            intros Hc; now destruct Hc).
  all: try (do 2 eexists; split; [reflexivity|]; split; [intros _; discriminate|reflexivity]).
  all: exfalso;
    match goal with H : None = None -> None <> None |- _ => exact (H eq_refl eq_refl) end.
Qed.

(** X18. [Before] creates the log stream of the step before anything
    else. When that fails it returns the error and the step is not
    updated; otherwise it returns what the updater returns for the step. *)
Theorem Before_stream_first (step : Step.t) :
  let r := tree.exec h (Before step) w in
  exists err,
    tree.result r = Some err /\
    ((In (tree.Called (Logz_Create (Step.ID step)) None) (tree.trace r) /\
      In (tree.Called (updater_do step) err) (tree.trace r)) \/
     (err <> None /\
      In (tree.Called (Logz_Create (Step.ID step)) err) (tree.trace r) /\
      tree.calls (tree.trace r) = [Logz_Create (Step.ID step)])).
Proof.
  unfold Before. cbn. tree_calls h.
  - eexists. split; [reflexivity|]. right. split; [discriminate|]. split; [in_entries|reflexivity].
  - eexists. split; [reflexivity|]. left. split; in_entries.
Qed.

(** X19. [Request] asks the scheduler once, with a filter that carries
    the seven fields of the request. It returns the stage of the scheduler
    when the scheduler returns no error; otherwise it drops whatever stage
    came with the error, asks the context whether it was cancelled, and
    returns the error of the scheduler in either case. *)
Theorem Request_stage_or_error (args : Request_args) :
  let r := tree.exec h (Request args) w in
  let filter := {| Filter_Kind := Kind args; Filter_Type := Type_ args;
                   Filter_OS := OS args; Filter_Arch := Arch args;
                   Filter_Kernel := Kernel args; Filter_Variant := Variant args;
                   Filter_Labels := Labels args |} in
  exists stage err stage0,
    tree.result r = Some (stage, err) /\
    In (tree.Called (Scheduler_Request filter) (stage0, err)) (tree.trace r) /\
    (err = None -> stage = stage0 /\ tree.calls (tree.trace r) = [Scheduler_Request filter]) /\
    (err <> None ->
     stage = None /\ tree.calls (tree.trace r) = [Scheduler_Request filter; Ctx_Err]).
Proof.
  unfold Request. cbn.
  destruct (h (Scheduler_Request _) w) as [[stage0 [e|]] w1]; cbn.
  - destruct (h Ctx_Err w1) as [[ce|] w2]; cbn.
    all: exists None, (Some e), stage0; split; [reflexivity|]; split; [in_entries|].
    all: split; [discriminate|]; intros _; split; reflexivity.
  - exists stage0, None, stage0. split; [reflexivity|]. split; [in_entries|].
    split; [intros _; split; reflexivity|]. intros []. reflexivity.
Qed.

(** X20. Whatever [Netrc] returns without an error, and any netrc it
    returns at all, is what the netrc service created for the repository
    found under the id asked for and for the owner found under the user id
    of that repository; unlike the lookups, a failure of the service is
    returned together with the netrc that came with it. *)
Theorem Netrc_for_owner (id : Z) (netrc : option Netrc.t) (err : option error) :
  let r := tree.exec h (Netrc id) w in
  tree.result r = Some (netrc, err) ->
  netrc <> None \/ err = None ->
  exists repo user,
    In (tree.Called (Repos_Find id) (Some repo, None)) (tree.trace r) /\
    In (tree.Called (Users_Find (Repo.UserID repo)) (user, None)) (tree.trace r) /\
    In (tree.Called (Netrcs_Create user repo) (netrc, err)) (tree.trace r).
Proof.
  unfold Netrc. cbn. tree_calls h; try discriminate.
  all: intros [= <- <-] Hor; try (destruct Hor as [Hn|Hn]; [now destruct Hn|discriminate]).
  all: do 2 eexists; repeat split; in_entries.
Qed.
End Facts.

(** The simulated stores answer every lookup with an error or a row. *)
Lemma Sim_io_server_found (o : op) (w : Sim_io.world) : found o (fst (Sim_io.server o w)).
Proof.
  unfold Sim_io.server. destruct (Sim_io.down w o) as [e|]; cbn.
  - destruct o; cbn; try exact I; discriminate.
  - destruct o; cbn; try exact I; unfold Sim_io.row;
      try (destruct (List.find _ _); cbn; discriminate).
    discriminate.
Qed.

(** The context of stage 7, of build 10, a push. *)
Lemma Details_context_consistent_witness :
  let ctx := {| Repo := Sim_io.repo; Build := Sim_io.build10; Stage := Sim.stage7;
                Config := "kind: pipeline"; Secrets := [Sim_io.token; Sim_io.preview];
                System := Some (System.mk "drone.example.com") |} in
  let r := tree.exec Sim_io.server (Details (Some (System.mk "drone.example.com")) 7)
             (Sim_io.w_ready Sim_io.never_down) in
  In (tree.Called (Stages_Find 7) (Some (Stage ctx), None)) (tree.trace r) /\
  In (tree.Called (Builds_Find (Stage.BuildID (Stage ctx))) (Some (Build ctx), None))
     (tree.trace r) /\
  In (tree.Called (Repos_Find (Build.RepoID (Build ctx))) (Some (Repo ctx), None))
     (tree.trace r) /\
  (exists user,
     In (tree.Called (Users_Find (Repo.UserID (Repo ctx))) (user, None)) (tree.trace r) /\
     In (tree.Called (Config_Find user (Repo ctx) (Build ctx)) (Some (Config ctx), None))
        (tree.trace r)) /\
  System ctx = Some (System.mk "drone.example.com").
Proof.
  apply (Details_context_consistent Sim_io.server (Sim_io.w_ready Sim_io.never_down)
           (Some (System.mk "drone.example.com")) 7
           {| Repo := Sim_io.repo; Build := Sim_io.build10; Stage := Sim.stage7;
              Config := "kind: pipeline"; Secrets := [Sim_io.token; Sim_io.preview];
              System := Some (System.mk "drone.example.com") |}).
  vm_compute. reflexivity.
Defined.

(** The context of stage 8, of build 11, a pull request: of the two
    secrets of the repository only the one marked for pull requests is
    handed out. *)
Lemma Details_pull_request_secrets_witness :
  let ctx := {| Repo := Sim_io.repo; Build := Sim_io.build11; Stage := Sim_io.stage8;
                Config := "kind: pipeline"; Secrets := [Sim_io.preview];
                System := None |} in
  let r := tree.exec Sim_io.server (Details None 8) (Sim_io.w_ready Sim_io.never_down) in
  exists tmpSecrets,
    In (tree.Called (Secrets_List (Repo.ID (Repo ctx))) (tmpSecrets, None)) (tree.trace r) /\
    (Build.Event (Build ctx) = EventPullRequest ->
     Secrets ctx = List.filter Secret.PullRequest tmpSecrets) /\
    (Build.Event (Build ctx) <> EventPullRequest -> Secrets ctx = tmpSecrets).
Proof.
  apply (Details_pull_request_secrets Sim_io.server (Sim_io.w_ready Sim_io.never_down)
           None 8
           {| Repo := Sim_io.repo; Build := Sim_io.build11; Stage := Sim_io.stage8;
              Config := "kind: pipeline"; Secrets := [Sim_io.preview];
              System := None |}).
  vm_compute. reflexivity.
Defined.

(** The repository store is down: [Details] stops at its third lookup. *)
Lemma Details_fails_fast_witness :
  let r := tree.exec Sim_io.server (Details None 7) (Sim_io.w_ready Sim_io.repos_down) in
  (None : option Context) = None /\
  exists o res msg before,
    rev (tree.trace r) =
      tree.Said (Warn, msg, Some (ErrorNew "sql: database is closed")) ::
      tree.Called o res :: before /\
    error_of o res = Some (ErrorNew "sql: database is closed").
Proof.
  apply (Details_fails_fast Sim_io.server (Sim_io.w_ready Sim_io.repos_down) None 7
           None (ErrorNew "sql: database is closed")).
  vm_compute. reflexivity.
Defined.

(** The simulated stores, whatever they hold. *)
Lemma Details_returns_witness :
  exists ctx err,
    tree.result (tree.exec Sim_io.server (Details None 99)
                   (Sim_io.w_ready Sim_io.never_down)) = Some (ctx, err) /\
    (ctx = None <-> err <> None).
Proof.
  apply (Details_returns Sim_io.server (Sim_io.w_ready Sim_io.never_down) None 99).
  exact Sim_io_server_found.
Defined.

(** The netrc of repository 1 is created for its owner, octocat. *)
Lemma Netrc_for_owner_witness :
  let r := tree.exec Sim_io.server (Netrc 1) (Sim_io.w_ready Sim_io.never_down) in
  exists repo user,
    In (tree.Called (Repos_Find 1) (Some repo, None)) (tree.trace r) /\
    In (tree.Called (Users_Find (Repo.UserID repo)) (user, None)) (tree.trace r) /\
    In (tree.Called (Netrcs_Create user repo)
          (Some (Netrc.mk "github.com" "octocat" "t0ken"), None)) (tree.trace r).
Proof.
  apply (Netrc_for_owner Sim_io.server (Sim_io.w_ready Sim_io.never_down) 1
           (Some (Netrc.mk "github.com" "octocat" "t0ken")) None).
  - vm_compute. reflexivity.
  - right. reflexivity.
Defined.

(** An amd64 agent is given stage 7; an arm64 agent whose request is
    cancelled gets the error and no stage; and a step whose log stream
    cannot be created is not updated. *)
Example Request_Before_runs :
  tree.result (tree.exec Sim_io.server (Request Sim_io.agent)
                 (Sim_io.w_ready Sim_io.never_down)) = Some (Some Sim.stage7, None) /\
  tree.result (tree.exec Sim_io.server (Request Sim_io.agent_arm)
                 (Sim_io.w_ready Sim_io.never_down)) =
    Some (None, Some (ErrorNew "context canceled")) /\
  tree.calls (tree.trace (tree.exec Sim_io.server (Before (Step.mk 70 7 "test" StatusRunning 0 0 0))
                            (Sim_io.w_ready Sim_io.logz_down))) = [Logz_Create 70].
Proof. vm_compute. auto. Qed.

End manager_io_facts.

(** ** Package builds: the cancel handler *)

Module builds_facts.
Import builds.

Section Facts.
Variable ParseInt : string -> Z * option error.
Context {W : Type} (h : tree.handler res W) (w : W) (owner name number : string).

(** A build number that does not parse is answered with a bad
    request carrying the error of the parser, before any store or the
    manager is called. *)
Theorem HandleCancel_bad_number (n : Z) (e : error) :
  ParseInt number = (n, Some e) ->
  tree.exec h (HandleCancel ParseInt owner name number) w =
    tree.Run (Some (BadRequest e)) w [].
Proof. intros Hp. unfold HandleCancel. rewrite Hp. reflexivity. Qed.

(** X21. The handler answers with a JSON body only with status 200 and
    only after the manager cancelled, without error, the build found under
    the number of the request in the repository found under the owner and
    name of the request; the body is the build as [Cancel] left it. The
    lookup of the owner of the repository may have failed: the user it
    returned is passed to [Cancel] all the same. *)
Theorem HandleCancel_ok_means_cancelled (v : Build) (code : Z) :
  let r := tree.exec h (HandleCancel ParseInt owner name number) w in
  tree.result r = Some (JSON v code) ->
  code = 200 /\
  exists n repo user uerr build,
    ParseInt number = (n, None) /\
    In (tree.Called (Repos_FindName owner name) (Some repo, None)) (tree.trace r) /\
    In (tree.Called (Users_Find (Repo.UserID repo)) (user, uerr)) (tree.trace r) /\
    In (tree.Called (Builds_FindNumber (Repo.ID repo) n) (Some build, None)) (tree.trace r) /\
    In (tree.Called (Manager_Cancel build repo user) (v, None)) (tree.trace r).
Proof.
  unfold HandleCancel. destruct (ParseInt number) as [n [e|]]; cbn; [discriminate|].
  tree_calls h; try discriminate.
  all: intros [= <- <-]; split; [reflexivity|].
  all: do 5 eexists; split; [reflexivity|]; repeat split; in_entries.
Qed.

(** X22. A not-found answer carries the error of the repository lookup
    or of the build lookup, and the manager was not called. *)
Theorem HandleCancel_not_found (e : error) :
  let r := tree.exec h (HandleCancel ParseInt owner name number) w in
  tree.result r = Some (NotFound e) ->
  forallb (fun o => negb (is_cancel o)) (tree.calls (tree.trace r)) = true /\
  ((exists repo, In (tree.Called (Repos_FindName owner name) (repo, Some e)) (tree.trace r)) \/
   (exists repo n build,
      In (tree.Called (Repos_FindName owner name) (Some repo, None)) (tree.trace r) /\
      ParseInt number = (n, None) /\
      In (tree.Called (Builds_FindNumber (Repo.ID repo) n) (build, Some e)) (tree.trace r))).
Proof.
  unfold HandleCancel. destruct (ParseInt number) as [n [e0|]]; cbn; [discriminate|].
  tree_calls h; try discriminate.
  all: intros [= <-]; split; [reflexivity|].
  all: first [ left; eexists; in_entries; fail
             | right; do 3 eexists; split; [in_entries|]; split; [reflexivity|in_entries] ].
Qed.


(** X24. The handler answers every request (it does not panic on a nil
    pointer) when the repository store returns a repository whenever it
    returns no error, and the build store returns a build in every case,
    with or without an error. *)
Theorem HandleCancel_responds :
  (forall o w', usable o (fst (h o w'))) ->
  exists answer,
    tree.result (tree.exec h (HandleCancel ParseInt owner name number) w) = Some answer.
Proof.
  intros Hfound. unfold HandleCancel.
  destruct (ParseInt number) as [n [e0|]]; cbn; [eexists; reflexivity|].
  tree_calls_with h Hfound.
  all: try (eexists; reflexivity).
  all: exfalso;
    match goal with
    | H : None = None -> None <> None |- _ => exact (H eq_refl eq_refl)
    | H : None <> None |- _ => exact (H eq_refl)
    end.
Qed.

(** X25. When the build store returns a nil build, with or without an
    error, for a repository that was found, the handler panics and writes
    no answer: it reads the number of the build for its log line. *)
Theorem HandleCancel_nil_build_panics (n : Z) (repo : Repo.t)
    (owner_found : option User * option error) (err : option error) (w1 w2 w3 : W) :
  ParseInt number = (n, None) ->
  h (Repos_FindName owner name) w = ((Some repo, None), w1) ->
  h (Users_Find (Repo.UserID repo)) w1 = (owner_found, w2) ->
  h (Builds_FindNumber (Repo.ID repo) n) w2 = ((None, err), w3) ->
  tree.result (tree.exec h (HandleCancel ParseInt owner name number) w) = None.
Proof.
  intros Hp H1 H2 H3. unfold HandleCancel. rewrite Hp. cbn.
  rewrite H1. cbn. rewrite H2. destruct owner_found as [user [e|]]; cbn.
  all: rewrite H3; destruct err; cbn; [reflexivity|].
  all: destruct (h (Manager_Cancel_nil repo user) w3); reflexivity.
Qed.
End Facts.

(** A build store that returns the zero build beside its error. *)
Lemma Sim_api_server_usable (o : op) (w : Sim_api.state) :
  usable o (fst (Sim_api.server (Some Sim_api.zero_build) o w)).
Proof.
  destruct o; cbn; try exact I.
  - destruct (List.find _ _); cbn; discriminate.
  - destruct (List.find _ _); cbn; discriminate.
Qed.

(** GET-style garbage in place of the number. *)
Lemma HandleCancel_bad_number_witness :
  tree.exec (Sim_api.server None) (HandleCancel Sim_api.ParseInt "octocat" "hello-world" "ten")
    (Sim_api.w_api [Sim.user]) =
  tree.Run (Some (BadRequest (ErrorNew "strconv.ParseInt: invalid syntax")))
    (Sim_api.w_api [Sim.user]) [].
Proof.
  apply (HandleCancel_bad_number Sim_api.ParseInt (Sim_api.server None)
           (Sim_api.w_api [Sim.user]) "octocat" "hello-world" "ten" 0
           (ErrorNew "strconv.ParseInt: invalid syntax")).
  vm_compute. reflexivity.
Defined.

(** Scenario "cancel mid-flight" through the handler, the owner of the
    repository missing from the user store: build 10 is cancelled by the
    manager of package manager and returned as it left it. *)
Lemma HandleCancel_ok_means_cancelled_witness :
  let r := tree.exec (Sim_api.server None)
             (HandleCancel Sim_api.ParseInt "octocat" "hello-world" "10")
             (Sim_api.w_api []) in
  200 = 200 /\
  exists n repo user uerr build,
    Sim_api.ParseInt "10" = (n, None) /\
    In (tree.Called (Repos_FindName "octocat" "hello-world") (Some repo, None))
       (tree.trace r) /\
    In (tree.Called (Users_Find (Repo.UserID repo)) (user, uerr)) (tree.trace r) /\
    In (tree.Called (Builds_FindNumber (Repo.ID repo) n) (Some build, None))
       (tree.trace r) /\
    In (tree.Called (Manager_Cancel build repo user) (Sim.build10_killed, None))
       (tree.trace r).
Proof.
  apply (HandleCancel_ok_means_cancelled Sim_api.ParseInt (Sim_api.server None)
           (Sim_api.w_api []) "octocat" "hello-world" "10" Sim.build10_killed 200).
  vm_compute. reflexivity.
Defined.

(** There is no build 77. *)
Lemma HandleCancel_not_found_witness :
  let r := tree.exec (Sim_api.server (Some Sim_api.zero_build))
             (HandleCancel Sim_api.ParseInt "octocat" "hello-world" "77")
             (Sim_api.w_api [Sim.user]) in
  forallb (fun o => negb (is_cancel o)) (tree.calls (tree.trace r)) = true /\
  ((exists repo,
      In (tree.Called (Repos_FindName "octocat" "hello-world") (repo, Some Sim_io.no_rows))
         (tree.trace r)) \/
   (exists repo n build,
      In (tree.Called (Repos_FindName "octocat" "hello-world") (Some repo, None))
         (tree.trace r) /\
      Sim_api.ParseInt "77" = (n, None) /\
      In (tree.Called (Builds_FindNumber (Repo.ID repo) n) (build, Some Sim_io.no_rows))
         (tree.trace r))).
Proof.
  apply (HandleCancel_not_found Sim_api.ParseInt (Sim_api.server (Some Sim_api.zero_build))
           (Sim_api.w_api [Sim.user]) "octocat" "hello-world" "77" Sim_io.no_rows).
  vm_compute. reflexivity.
Defined.


(** The simulated stores with a build store that never returns nil. *)
Lemma HandleCancel_responds_witness :
  exists answer,
    tree.result (tree.exec (Sim_api.server (Some Sim_api.zero_build))
                   (HandleCancel Sim_api.ParseInt "octocat" "hello-world" "77")
                   (Sim_api.w_api [Sim.user])) = Some answer.
Proof.
  apply (HandleCancel_responds Sim_api.ParseInt (Sim_api.server (Some Sim_api.zero_build))
           (Sim_api.w_api [Sim.user]) "octocat" "hello-world" "77").
  exact Sim_api_server_usable.
Defined.

(** There is no build 77, and the build store returns nil beside its
    error. *)
Lemma HandleCancel_nil_build_panics_witness :
  tree.result (tree.exec (Sim_api.server None)
                 (HandleCancel Sim_api.ParseInt "octocat" "hello-world" "77")
                 (Sim_api.w_api [Sim.user])) = None.
Proof.
  apply (HandleCancel_nil_build_panics Sim_api.ParseInt (Sim_api.server None)
           (Sim_api.w_api [Sim.user]) "octocat" "hello-world" "77" 77 Sim_io.repo
           (Some Sim.user, None) (Some Sim_io.no_rows)
           (Sim_api.w_api [Sim.user]) (Sim_api.w_api [Sim.user]) (Sim_api.w_api [Sim.user])).
  all: vm_compute; reflexivity.
Defined.

End builds_facts.

(** ** Package yaml: the manifest *)

Module yaml_facts.
Import yaml.

Section Manifest.
Context {Cron Secret Signature Registry Pipeline : Type}.
Variable Unmarshal_messages : string -> list string + error.
Variable Unmarshal_resource : string -> resource + error.
Variable Unmarshal_Cron : string -> Cron + error.
Variable Unmarshal_Secret : string -> Secret + error.
Variable Unmarshal_Signature : string -> Signature + error.
Variable Unmarshal_Registry : string -> Registry + error.
Variable Unmarshal_Pipeline : string -> Pipeline + error.

#[local] Abbreviation Resource := (Resource Cron Secret Signature Registry Pipeline).
#[local] Abbreviation Manifest := (Manifest Cron Secret Signature Registry Pipeline).
#[local] Abbreviation UnmarshalJSON_range :=
  (UnmarshalJSON_range Cron Secret Signature Registry Pipeline Unmarshal_resource
     Unmarshal_Cron Unmarshal_Secret Unmarshal_Signature Unmarshal_Registry
     Unmarshal_Pipeline).
#[local] Abbreviation UnmarshalJSON :=
  (UnmarshalJSON Cron Secret Signature Registry Pipeline Unmarshal_messages
     Unmarshal_resource Unmarshal_Cron Unmarshal_Secret Unmarshal_Signature
     Unmarshal_Registry Unmarshal_Pipeline).
#[local] Abbreviation Unmarshal_obj :=
  (Unmarshal_obj Cron Secret Signature Registry Pipeline
     Unmarshal_Cron Unmarshal_Secret Unmarshal_Signature Unmarshal_Registry
     Unmarshal_Pipeline).
#[local] Abbreviation decodes :=
  (decodes Cron Secret Signature Registry Pipeline Unmarshal_resource
     Unmarshal_Cron Unmarshal_Secret Unmarshal_Signature Unmarshal_Registry
     Unmarshal_Pipeline).
#[local] Abbreviation fails :=
  (fails Cron Secret Signature Registry Pipeline Unmarshal_resource
     Unmarshal_Cron Unmarshal_Secret Unmarshal_Signature Unmarshal_Registry
     Unmarshal_Pipeline).

Lemma UnmarshalJSON_range_spec (messages : list string) :
  forall (m m' : Manifest) (err : option error),
  UnmarshalJSON_range messages m = (m', err) ->
  exists objs,
    Resources m' = (Resources m ++ objs)%list /\
    Forall2 decodes (take (length objs) messages) objs /\
    match err with
    | None => length objs = length messages
    | Some e => exists message, messages !! length objs = Some message /\ fails message e
    end.
Proof.
  induction messages as [|message rest IH]; intros m m' err; cbn [yaml.UnmarshalJSON_range].
  - intros [= <- <-]. exists []. rewrite app_nil_r. repeat split. constructor.
  - destruct (Unmarshal_resource message) as [res|e] eqn:Hres.
    2: { intros [= <- <-]. exists []. rewrite app_nil_r. split; [reflexivity|].
         split; [constructor|]. exists message. split; [reflexivity|]. left. exact Hres. }
    destruct (Unmarshal_obj (switch_Kind (Kind res)) message) as [obj|e] eqn:Hobj.
    2: { intros [= <- <-]. exists []. rewrite app_nil_r. split; [reflexivity|].
         split; [constructor|]. exists message. split; [reflexivity|].
         right. exists res. split; assumption. }
    intros Hrest. destruct (IH _ _ _ Hrest) as (objs & Hres' & Hdec & Herr).
    exists (obj :: objs). cbn in Hres'. rewrite <- app_assoc in Hres'. split; [exact Hres'|].
    split.
    + cbn. constructor; [|exact Hdec]. exists res. split; assumption.
    + destruct err as [e|]; cbn; [exact Herr|congruence].
Qed.

(** X26. [UnmarshalJSON] appends to the resources of the manifest, in
    the order of the messages, what the messages decode to, up to the first
    message that fails to decode. When it returns nil every message was
    decoded; when it returns an error, the error is that of the first
    failing message, and the resources decoded before it stay in the
    manifest. *)
Theorem UnmarshalJSON_appends_decoded (m m' : Manifest) (b : string)
    (messages : list string) (err : option error) :
  Unmarshal_messages b = inl messages ->
  UnmarshalJSON m b = (m', err) ->
  exists objs,
    Resources m' = (Resources m ++ objs)%list /\
    Forall2 decodes (take (length objs) messages) objs /\
    match err with
    | None => length objs = length messages
    | Some e => exists message, messages !! length objs = Some message /\ fails message e
    end.
Proof.
  intros Hm. unfold yaml.UnmarshalJSON. rewrite Hm. apply UnmarshalJSON_range_spec.
Qed.

(** A resource decoded from a message is a cron job, a secret, a
    signature or a registry when the kind of the message says so, and a
    pipeline for every other kind, the empty kind included. *)
Theorem decodes_selected_kind (message : string) (obj : Resource) (res : resource) :
  Unmarshal_resource message = inl res ->
  decodes message obj ->
  (allocated_of obj = new_Cron <-> Kind res = "cron") /\
  (allocated_of obj = new_Secret <-> Kind res = "secret") /\
  (allocated_of obj = new_Signature <-> Kind res = "signature") /\
  (allocated_of obj = new_Registry <-> Kind res = "registry") /\
  (allocated_of obj = new_Pipeline <->
   Kind res <> "cron" /\ Kind res <> "secret" /\ Kind res <> "signature" /\
   Kind res <> "registry").
Proof.
  intros Hres (res' & Hres' & Hobj). rewrite Hres in Hres'. injection Hres' as <-.
  assert (allocated_of obj = switch_Kind (Kind res)) as ->.
  { revert Hobj. destruct (switch_Kind (Kind res)); cbn; unfold into;
      match goal with |- context [match ?x with inl _ => _ | inr _ => _ end] => destruct x end;
      intros [= <-]; reflexivity. }
  unfold switch_Kind.
  destruct (String.eqb_spec (Kind res) "cron") as [H1|H1];
    [|destruct (String.eqb_spec (Kind res) "secret") as [H2|H2];
      [|destruct (String.eqb_spec (Kind res) "signature") as [H3|H3];
        [|destruct (String.eqb_spec (Kind res) "registry") as [H4|H4]]]].
  all: repeat split; intros; try discriminate; try reflexivity; try assumption;
    try contradiction.
  all: try (rewrite H1 in *; try discriminate);
       try (rewrite H2 in *; try discriminate);
       try (rewrite H3 in *; try discriminate);
       try (rewrite H4 in *; try discriminate).
  all: repeat match goal with H : _ /\ _ |- _ => destruct H end; congruence.
Qed.
End Manifest.

(** Three resources, the third cut short: the first two are in the
    manifest although an error is returned. *)
Lemma UnmarshalJSON_appends_decoded_witness :
  exists objs,
    [of_Cron "nightly"; of_Pipeline "default"] = ([] ++ objs)%list /\
    Forall2 (decodes string string string string string Sim_yaml.head_of
               Sim_yaml.body_of Sim_yaml.body_of Sim_yaml.body_of Sim_yaml.body_of
               Sim_yaml.body_of)
            (take (length objs) ["cron:nightly"; "build:default"; "secret:"]) objs /\
    exists message,
      ["cron:nightly"; "build:default"; "secret:"] !! length objs = Some message /\
      fails string string string string string Sim_yaml.head_of
        Sim_yaml.body_of Sim_yaml.body_of Sim_yaml.body_of Sim_yaml.body_of
        Sim_yaml.body_of message (ErrorNew "unexpected end of JSON input").
Proof.
  apply (UnmarshalJSON_appends_decoded Sim_yaml.messages_of Sim_yaml.head_of
           Sim_yaml.body_of Sim_yaml.body_of Sim_yaml.body_of Sim_yaml.body_of
           Sim_yaml.body_of Sim_yaml.empty
           (Build_Manifest [of_Cron "nightly"; of_Pipeline "default"])
           (String.append "cron:nightly"
              (String newline (String.append "build:default" (String newline "secret:"))))
           ["cron:nightly"; "build:default"; "secret:"]
           (Some (ErrorNew "unexpected end of JSON input"))).
  - vm_compute. reflexivity.
  - vm_compute. reflexivity.
Defined.

(** A resource of kind "build", which is none of the four: a pipeline. *)
Lemma decodes_selected_kind_witness :
  let obj : Resource string string string string string := of_Pipeline "default" in
  (allocated_of obj = new_Cron <-> "build" = "cron") /\
  (allocated_of obj = new_Secret <-> "build" = "secret") /\
  (allocated_of obj = new_Signature <-> "build" = "signature") /\
  (allocated_of obj = new_Registry <-> "build" = "registry") /\
  (allocated_of obj = new_Pipeline <->
   "build" <> "cron" /\ "build" <> "secret" /\ "build" <> "signature" /\
   "build" <> "registry").
Proof.
  apply (decodes_selected_kind Sim_yaml.head_of
           Sim_yaml.body_of Sim_yaml.body_of Sim_yaml.body_of Sim_yaml.body_of
           Sim_yaml.body_of "build:default" (of_Pipeline "default")
           {| Version := ""; Kind := "build"; Type_ := "" |}).
  - vm_compute. reflexivity.
  - exists {| Version := ""; Kind := "build"; Type_ := "" |}. vm_compute. auto.
Defined.

End yaml_facts.

(** ** Package compiler: privileged plugins *)

Module compiler_facts.
Import yaml compiler.

Section Dind.
Variable image_Match : string -> string -> bool.

(** X27. [DindFunc] grants a container the privileged mode exactly when
    it defines no commands, no command and no entrypoint, and its image
    matches an image of the whitelist. *)
Theorem DindFunc_privileged_iff (images : list string) (container : Container.t) :
  DindFunc image_Match images container = true <->
  Container.Commands container = [] /\
  Container.Command container = [] /\
  Container.Entrypoint container = [] /\
  exists img, In img images /\ image_Match img (Container.Image container) = true.
Proof.
  unfold DindFunc.
  assert (DindFunc_range image_Match images container = true <->
          exists img, In img images /\ image_Match img (Container.Image container) = true)
    as Hrange.
  { induction images as [|a rest IH]; cbn.
    - split; [discriminate|]. intros (img & [] & _).
    - destruct (image_Match a (Container.Image container)) eqn:Ha.
      + split; [|reflexivity]. intros _. exists a. auto.
      + rewrite IH. split.
        * intros (img & Hin & Hm). exists img. auto.
        * intros (img & [<-|Hin] & Hm); [congruence|]. exists img. auto. }
  destruct (Container.Commands container) as [|c cs]; cbn.
  2: { split; [discriminate|]. intros (H & _). discriminate. }
  destruct (Container.Command container) as [|c cs]; cbn.
  2: { split; [discriminate|]. intros (_ & H & _). discriminate. }
  destruct (Container.Entrypoint container) as [|c cs]; cbn.
  2: { split; [discriminate|]. intros (_ & _ & H & _). discriminate. }
  rewrite Hrange. tauto.
Qed.
End Dind.

(** The docker plugin is whitelisted; the same image with commands of its
    own is an ordinary step. *)
Example DindFunc_plugins :
  DindFunc String.eqb ["plugins/docker"; "plugins/gcr"]
    (Container.mk "plugins/docker" [] [] []) = true /\
  DindFunc String.eqb ["plugins/docker"; "plugins/gcr"]
    (Container.mk "plugins/docker" ["docker build ."] [] []) = false /\
  DindFunc String.eqb ["plugins/docker"; "plugins/gcr"]
    (Container.mk "golang" [] [] []) = false.
Proof. vm_compute. auto. Qed.

End compiler_facts.

(** ** Package transform: volumes *)

Module transform_facts.
Import engine transform.

Lemma strings_Split_cons (s : string) (sep : Ascii.ascii) : strings_Split s sep <> [].
Proof.
  destruct s as [|c rest]; cbn; [discriminate|].
  destruct (Ascii.eqb c sep); [discriminate|].
  destruct (strings_Split rest sep); discriminate.
Qed.

Lemma strings_Split_one (s : string) (sep : Ascii.ascii) : forall a,
  strings_Split s sep = [a] -> s = a /\ without sep a.
Proof.
  induction s as [|c rest IH]; intros a; cbn.
  - intros [= <-]. split; [reflexivity|exact I].
  - destruct (Ascii.eqb_spec c sep) as [->|Hc].
    + intros [= <- H]. destruct (strings_Split_cons _ _ H).
    + destruct (strings_Split rest sep) as [|p ps] eqn:Hrest; [intros [= <-]|].
      * destruct (strings_Split_cons _ _ Hrest).
      * intros [= <- ->]. destruct (IH p eq_refl) as [-> Hp]. split; [reflexivity|].
        split; assumption.
Qed.

Lemma strings_Split_two (s : string) (sep : Ascii.ascii) : forall a b,
  strings_Split s sep = [a; b] ->
  s = String.append a (String sep b) /\ without sep a /\ without sep b.
Proof.
  induction s as [|c rest IH]; intros a b; cbn.
  - discriminate.
  - destruct (Ascii.eqb_spec c sep) as [->|Hc].
    + intros [= <- H]. destruct (strings_Split_one _ _ _ H) as [-> Hb].
      split; [reflexivity|]. split; [exact I|exact Hb].
    + destruct (strings_Split rest sep) as [|p ps] eqn:Hrest; [discriminate|].
      intros [= <- ->]. destruct (IH p b eq_refl) as (-> & Hp & Hb).
      split; [reflexivity|]. split; [split; assumption|exact Hb].
Qed.

Lemma strings_Split_without (s : string) (sep : Ascii.ascii) :
  without sep s -> strings_Split s sep = [s].
Proof.
  induction s as [|c rest IH]; cbn; [reflexivity|].
  intros [Hc Hrest]. destruct (Ascii.eqb_spec c sep) as [->|_]; [contradiction|].
  rewrite (IH Hrest). reflexivity.
Qed.

Lemma strings_Split_pair (a b : string) (sep : Ascii.ascii) :
  without sep a -> without sep b ->
  strings_Split (String.append a (String sep b)) sep = [a; b].
Proof.
  intros Ha Hb. induction a as [|c rest IH].
  - change (strings_Split (String sep b) sep = [EmptyString; b]). cbn [strings_Split].
    rewrite Ascii.eqb_refl, (strings_Split_without _ _ Hb). reflexivity.
  - change (strings_Split (String c (String.append rest (String sep b))) sep =
            [String c rest; b]).
    cbn [strings_Split].
    destruct Ha as [Hc Hrest]. destruct (Ascii.eqb_spec c sep) as [->|_]; [contradiction|].
    rewrite (IH Hrest). reflexivity.
Qed.

(** One turn of the loop of [WithVolumeSlice]. *)
Lemma WithVolumeSlice_range_cons (s : string) (rest : list string) (to : gmap string string) :
  WithVolumeSlice_range (s :: rest) to =
    match strings_Split s colon with
    | [key; val] => WithVolumeSlice_range rest (<[key := val]> to)
    | _ => WithVolumeSlice_range rest to
    end.
Proof.
  cbn [WithVolumeSlice_range].
  destruct (strings_Split s colon) as [|a [|b [|c l]]]; reflexivity.
Qed.

Lemma WithVolumeSlice_range_app (l1 l2 : list string) : forall to,
  WithVolumeSlice_range (l1 ++ l2) to = WithVolumeSlice_range l2 (WithVolumeSlice_range l1 to).
Proof.
  induction l1 as [|s l1 IH]; intros to; [reflexivity|].
  rewrite <- app_comm_cons, !WithVolumeSlice_range_cons.
  destruct (strings_Split s colon) as [|a [|b [|c l]]]; apply IH.
Qed.

Lemma WithVolumeSlice_range_sound (volumes : list string) :
  forall (to : gmap string string) (host path : string),
  WithVolumeSlice_range volumes to !! host = Some path ->
  to !! host = Some path \/
  (In (String.append host (String colon path)) volumes /\
   without colon host /\ without colon path).
Proof.
  induction volumes as [|s rest IH]; intros to host path; [left; assumption|].
  rewrite WithVolumeSlice_range_cons.
  destruct (strings_Split s colon) as [|a [|b [|c l]]] eqn:Hs.
  1, 2, 4: intros H; destruct (IH _ _ _ H) as [?|(? & ? & ?)]; [left; assumption|right];
    (split; [right; assumption|split; assumption]).
  intros H. destruct (IH _ _ _ H) as [Hto|(? & ? & ?)].
  - destruct (decide (a = host)) as [->|Hne].
    + rewrite lookup_insert_eq in Hto. injection Hto as ->.
      destruct (strings_Split_two _ _ _ _ Hs) as (-> & Hh & Hp).
      right. split; [left; reflexivity|split; assumption].
    + rewrite lookup_insert_ne in Hto by exact Hne. left. exact Hto.
  - right. split; [right; assumption|split; assumption].
Qed.

Lemma WithVolumeSlice_range_keeps (volumes : list string) :
  forall (to : gmap string string) (host : string),
  (forall p, without colon p -> ~ In (String.append host (String colon p)) volumes) ->
  WithVolumeSlice_range volumes to !! host = to !! host.
Proof.
  induction volumes as [|s rest IH]; intros to host Hnone; [reflexivity|].
  assert (forall p, without colon p -> ~ In (String.append host (String colon p)) rest) as Hrest
    by (intros p Hp Hin; apply (Hnone p Hp); right; exact Hin).
  rewrite WithVolumeSlice_range_cons.
  destruct (strings_Split s colon) as [|a [|b [|c l]]] eqn:Hs; try (apply IH; exact Hrest).
  rewrite (IH _ _ Hrest).
  destruct (strings_Split_two _ _ _ _ Hs) as (-> & Ha & Hb).
  apply lookup_insert_ne. intros ->. apply (Hnone b Hb). left. reflexivity.
Qed.

(** X28. Every host path the loop of [WithVolumeSlice] puts in the map,
    with the container path it maps to, was given as an entry
    [host:container] with a single colon. *)
Theorem WithVolumeSlice_sound (volumes : list string) (host path : string) :
  WithVolumeSlice_range volumes ∅ !! host = Some path ->
  In (String.append host (String colon path)) volumes /\
  without colon host /\ without colon path.
Proof.
  intros H. destruct (WithVolumeSlice_range_sound _ _ _ _ H) as [Hempty|Hin]; [|exact Hin].
  rewrite lookup_empty in Hempty. discriminate.
Qed.

(** X29. An entry [host:container] with a single colon is in the map
    unless a later entry names the same host path: of two entries for one
    host path the later wins. Entries before it do not matter. *)
Theorem WithVolumeSlice_last_wins (before after : list string) (host path : string) :
  without colon host ->
  without colon path ->
  (forall p, without colon p -> ~ In (String.append host (String colon p)) after) ->
  WithVolumeSlice_range (before ++ String.append host (String colon path) :: after) ∅ !! host =
    Some path.
Proof.
  intros Hh Hp Hlast.
  rewrite WithVolumeSlice_range_app, WithVolumeSlice_range_cons.
  rewrite (strings_Split_pair host path colon Hh Hp).
  rewrite (WithVolumeSlice_range_keeps after _ host Hlast).
  apply lookup_insert_eq.
Qed.

Section Volumes.
Context {W : Type} (h : tree.handler res W).

Lemma with_mounts_mounted (mount : VolumeMount) (mounts : list VolumeMount) (steps : list Step) :
  map (with_mounts mounts) (map (mounted mount) steps) =
    map (with_mounts (mount :: mounts)) steps.
Proof.
  rewrite map_map. apply map_ext. intros step. unfold with_mounts, mounted. cbn.
  rewrite <- app_assoc. reflexivity.
Qed.

Lemma WithVolumes_range_adds (entries : list (string * string)) :
  forall (spec : Spec) (docker : DockerConfig) (w : W),
  Spec_Docker spec = Some docker ->
  exists drawn,
    length drawn = length entries /\
    tree.trace (tree.exec h (WithVolumes_range entries spec) w) = draws drawn /\
    tree.result (tree.exec h (WithVolumes_range entries spec) w) =
      Some {| Spec_Metadata := Spec_Metadata spec;
              Spec_Docker :=
                Some {| Docker_Volumes :=
                          Docker_Volumes docker ++
                          volumes_for (Metadata_Name (Spec_Metadata spec)) entries drawn |};
              Spec_Steps := map (with_mounts (mounts_for entries drawn)) (Spec_Steps spec) |}.
Proof.
  induction entries as [|[key value] rest IH]; intros spec docker w Hdocker.
  - exists []. cbn. split; [reflexivity|]. split; [reflexivity|].
    destruct spec as [md dk steps]. cbn in *. subst dk. destruct docker as [vols].
    cbn. rewrite app_nil_r. f_equal. f_equal.
    rewrite <- (map_id steps) at 1. apply map_ext. intros [m v]. unfold with_mounts. cbn.
    rewrite app_nil_r. reflexivity.
  - cbn. destruct (h rand_String w) as [uid w1]. cbn.
    destruct (h rand_String w1) as [name w2]. cbn. rewrite Hdocker.
    match goal with
    | |- context [tree.exec h (WithVolumes_range rest ?s) w2] =>
        destruct (IH s _ w2 eq_refl) as (drawn & Hlen & Htr & Hres)
    end.
    exists ((uid, name) :: drawn).
    split; [cbn; rewrite Hlen; reflexivity|].
    split; [cbn; rewrite Htr; reflexivity|].
    cbn. rewrite Hres. cbn. rewrite <- app_assoc, with_mounts_mounted. reflexivity.
Qed.

Section Range.
Variable range_volumes : gmap string string -> list (string * string).
Hypothesis range_perm : forall m, Permutation (range_volumes m) (map_to_list m).

(** X30. On a spec with a docker section, [WithVolumes] returns; it draws
    two random strings for each entry of the map, adds after the volumes of
    the spec one volume for each entry, with the host path of the entry and
    the name of the spec as namespace, and adds after the mounts of every
    step one mount for each entry, at the container path of the entry and
    named like the volume added for it. Nothing else of the spec changes. *)
Theorem WithVolumes_adds (volumes : gmap string string) (spec : Spec)
    (docker : DockerConfig) (w : W) :
  Spec_Docker spec = Some docker ->
  let r := tree.exec h (WithVolumes range_volumes volumes spec) w in
  exists entries drawn,
    Permutation entries (map_to_list volumes) /\
    length drawn = size volumes /\
    tree.trace r = draws drawn /\
    tree.result r =
      Some {| Spec_Metadata := Spec_Metadata spec;
              Spec_Docker :=
                Some {| Docker_Volumes :=
                          Docker_Volumes docker ++
                          volumes_for (Metadata_Name (Spec_Metadata spec)) entries drawn |};
              Spec_Steps := map (with_mounts (mounts_for entries drawn)) (Spec_Steps spec) |}.
Proof.
  intros Hdocker. unfold WithVolumes.
  destruct (WithVolumes_range_adds (range_volumes volumes) spec docker w Hdocker)
    as (drawn & Hlen & Htr & Hres).
  exists (range_volumes volumes), drawn. split; [apply range_perm|].
  split; [|split; assumption].
  rewrite Hlen, (Permutation_length (range_perm volumes)).
  apply length_map_to_list.
Qed.
End Range.

(** On a spec without a docker section, [WithVolumes] panics as
    soon as the map has an entry, after drawing the two random strings of
    its first volume; with an empty map it returns the spec as it is. *)
Theorem WithVolumes_nil_docker (range_volumes : gmap string string -> list (string * string))
    (volumes : gmap string string) (spec : Spec) (w : W) :
  Spec_Docker spec = None ->
  let r := tree.exec h (WithVolumes range_volumes volumes spec) w in
  (range_volumes volumes = [] /\ r = tree.Run (Some spec) w []) \/
  (range_volumes volumes <> [] /\ tree.result r = None /\
   tree.calls (tree.trace r) = [rand_String; rand_String]).
Proof.
  intros Hdocker. unfold WithVolumes.
  destruct (range_volumes volumes) as [|[key value] rest]; cbn.
  - left. split; reflexivity.
  - right. split; [discriminate|].
    destruct (h rand_String w) as [uid w1]. cbn.
    destruct (h rand_String w1) as [name w2]. cbn. rewrite Hdocker. cbn.
    split; reflexivity.
Qed.
End Volumes.

(** The docker socket, an entry without a colon and an entry with two. *)
Lemma WithVolumeSlice_sound_witness :
  In (String.append "/var/run/docker.sock" (String colon "/docker.sock"))
     ["/var/run/docker.sock:/docker.sock"; "/cache"; "/tmp:/tmp:ro"] /\
  without colon "/var/run/docker.sock" /\ without colon "/docker.sock".
Proof.
  apply (WithVolumeSlice_sound
           ["/var/run/docker.sock:/docker.sock"; "/cache"; "/tmp:/tmp:ro"]
           "/var/run/docker.sock" "/docker.sock").
  vm_compute. reflexivity.
Defined.

(** Two entries for [/data]: the second one is mounted. *)
Lemma WithVolumeSlice_last_wins_witness :
  WithVolumeSlice_range
    (["/data:/old"] ++ String.append "/data" (String colon "/new") :: ["/tmp:/tmp"]) ∅
    !! "/data" = Some "/new".
Proof.
  apply (WithVolumeSlice_last_wins ["/data:/old"] ["/tmp:/tmp"] "/data" "/new").
  - vm_compute. repeat split; discriminate.
  - vm_compute. repeat split; discriminate.
  - intros p _ [H|[]]. vm_compute in H. discriminate.
Defined.

(** One host path on the spec of two steps, the random strings counted
    up from "a". *)
Lemma WithVolumes_adds_witness :
  let volumes : gmap string string := {[ "/data" := "/mnt" ]} in
  let r := tree.exec Sim_yaml.counter
             (WithVolumes Sim_yaml.range_sorted volumes Sim_yaml.spec) 0%nat in
  exists entries drawn,
    Permutation entries (map_to_list volumes) /\
    length drawn = size volumes /\
    tree.trace r = draws drawn /\
    tree.result r =
      Some {| Spec_Metadata := Spec_Metadata Sim_yaml.spec;
              Spec_Docker :=
                Some {| Docker_Volumes :=
                          [] ++ volumes_for (Metadata_Name (Spec_Metadata Sim_yaml.spec))
                                  entries drawn |};
              Spec_Steps := map (with_mounts (mounts_for entries drawn))
                                (Spec_Steps Sim_yaml.spec) |}.
Proof.
  apply (WithVolumes_adds Sim_yaml.counter Sim_yaml.range_sorted
           (fun m => Permutation_refl _) {[ "/data" := "/mnt" ]} Sim_yaml.spec
           {| Docker_Volumes := [] |} 0%nat).
  reflexivity.
Defined.

(** The same spec without its docker section. *)
Lemma WithVolumes_nil_docker_witness :
  let volumes : gmap string string := {[ "/data" := "/mnt" ]} in
  let spec := {| Spec_Metadata := Spec_Metadata Sim_yaml.spec;
                 Spec_Docker := None;
                 Spec_Steps := Spec_Steps Sim_yaml.spec |} in
  let r := tree.exec Sim_yaml.counter (WithVolumes Sim_yaml.range_sorted volumes spec) 0%nat in
  (Sim_yaml.range_sorted volumes = [] /\ r = tree.Run (Some spec) 0%nat []) \/
  (Sim_yaml.range_sorted volumes <> [] /\ tree.result r = None /\
   tree.calls (tree.trace r) = [rand_String; rand_String]).
Proof.
  apply (WithVolumes_nil_docker Sim_yaml.counter Sim_yaml.range_sorted
           {[ "/data" := "/mnt" ]}
           {| Spec_Metadata := Spec_Metadata Sim_yaml.spec;
              Spec_Docker := None;
              Spec_Steps := Spec_Steps Sim_yaml.spec |} 0%nat).
  reflexivity.
Defined.

(** The run of [WithVolumeSlice] on the same spec: the volume is named
    "b", and both steps mount it at [/mnt] after what they mounted. *)
Example WithVolumeSlice_run :
  tree.result (tree.exec Sim_yaml.counter
                 (WithVolumeSlice Sim_yaml.range_sorted ["/data:/mnt"; "/cache"] Sim_yaml.spec)
                 0%nat) =
    Some {| Spec_Metadata := Spec_Metadata Sim_yaml.spec;
            Spec_Docker :=
              Some {| Docker_Volumes :=
                        [ {| Volume_Metadata :=
                               {| Metadata_UID := "a"; Metadata_Name := "b";
                                  Metadata_Namespace := "default";
                                  Metadata_Labels := ∅ |};
                             Volume_HostPath := Some {| HostPath_Path := "/data" |} |} ] |};
            Spec_Steps :=
              map (with_mounts [ {| Mount_Name := "b"; Mount_Path := "/mnt" |} ])
                  (Spec_Steps Sim_yaml.spec) |}.
Proof. vm_compute. reflexivity. Qed.

End transform_facts.
